(** * MCP-Web-Search: result cache and site crawler of [search_server.py]

    A shallow embedding of the parts of [src/search_server.py] that the
    specification singles out as the core: the in-process result cache
    ([SimpleCache]), the derivation of cache keys ([_make_key]), the JSON
    envelopes returned by the tools, and the breadth-first crawler
    ([_crawl_website_impl]).

    Modelling conventions.
    - A Python [str] is a Rocq [string] read as a sequence of code points
      below 256; a Python [int] is a [Z].
    - [time.time()] is an explicit argument [now : Z] of every operation that
      reads the clock (one reading per call, as in the source).  Readings are
      exact numbers of clock ticks: floating-point rounding is not modelled.
    - A Python [dict] used as a map is a [gmap]; keyword arguments and JSON
      objects, whose order is observable, are association lists.
    - External collaborators (search backend, HTTP client, HTML parser,
      [urllib.parse]) are parameters of the functions that call them. *)

From Stdlib Require Import ZArith Lia Permutation.
From Stdlib Require Import Ascii.
From Stdlib Require String DecimalString OrderedTypeEx.
From stdpp Require Import gmap strings list.

#[local] Set Warnings "-register-all".
Local Open Scope Z_scope.

(** What a Python call produces: a returned value or a raised exception
    (with the text the handlers format into their messages). *)
Inductive outcome (A : Type) : Type :=
| Return (a : A)
| Raise (exn : string).
Arguments Return {A} a.
Arguments Raise {A} exn.

(** ** Python string operations used by the source *)

Module Py.

(** [sep.join(parts)] *)
Fixpoint join (sep : string) (parts : list string) : string :=
  match parts with
  | [] => ""
  | [p] => p
  | p :: rest => p +:+ sep +:+ join sep rest
  end.

(** [s.startswith(p)] *)
Definition startswith (s p : string) : bool := String.prefix p s.

(** [p in s] for strings: [p] occurs in [s] at some offset. *)
Fixpoint contains (p s : string) : bool :=
  String.prefix p s ||
  match s with
  | EmptyString => false
  | String _ s' => contains p s'
  end.

(** [str.lower] on one code point below 256: the ASCII capitals and the
    Latin-1 capitals U+00C0..U+00DE (U+00D7, the multiplication sign, is not
    a letter) move up by 32. *)
Definition lower_char (c : ascii) : ascii :=
  let n := N_of_ascii c in
  if ((65 <=? n) && (n <=? 90))%N
     || ((192 <=? n) && (n <=? 222) && negb (n =? 215))%N
  then ascii_of_N (n + 32)
  else c.

Fixpoint lower (s : string) : string :=
  match s with
  | EmptyString => EmptyString
  | String c s' => String (lower_char c) (lower s')
  end.

(** [any(f(x) for x in xs)] *)
Definition any {A} (f : A -> bool) (xs : list A) : bool := existsb f xs.

(** [s[:n]] *)
Definition take (n : nat) (s : string) : string := String.substring 0 n s.

(** [' ' * n] *)
Fixpoint spaces (n : nat) : string :=
  match n with
  | O => ""
  | S n' => String " " (spaces n')
  end.

(** [str(n)] for an [int]. *)
Definition str_of_int (n : Z) : string :=
  DecimalString.NilZero.string_of_int (Z.to_int n).

End Py.

(** ** json.dumps

    The encoder of the standard library for the values the source passes to
    it, with the keyword arguments the source uses: [indent], [sort_keys] and
    [default] ([ensure_ascii] keeps its default [True]).  Floats are left
    out. *)

Module Json.

(** Values the encoder serialises by itself. *)
Inductive json : Type :=
| JNull
| JBool (b : bool)
| JInt (n : Z)
| JStr (s : string)
| JList (items : list json)
| JDict (items : list (string * json)).

(** Arbitrary Python values handed to [json.dumps(..., default=str)].  An
    object the encoder does not know is represented by [str(o)], which is
    all the encoder sees of it.  The values are those the encoder can walk:
    nested less deeply than the interpreter allows calls to nest. *)
Inductive pyval : Type :=
| PNone
| PBool (b : bool)
| PInt (n : Z)
| PStr (s : string)
| PList (items : list pyval)
| PDict (items : list (string * pyval))
| PObj (str_of : string).

(** [default=str]: an unknown object is replaced by its [str()]. *)
Fixpoint default_str (v : pyval) : json :=
  match v with
  | PNone => JNull
  | PBool b => JBool b
  | PInt n => JInt n
  | PStr s => JStr s
  | PList items => JList (map default_str items)
  | PDict items => JDict (map (fun kv => (fst kv, default_str (snd kv))) items)
  | PObj s => JStr s
  end.

(** CPython converts no [int] of more than [sys.get_int_max_str_digits()]
    decimal digits to text, 4300 of them unless the interpreter was
    configured otherwise: [json.dumps] raises [ValueError] with this
    message when it meets such a number. *)
Definition int_max_str_digits : nat := 4300.

Definition int_limit_message : string :=
  "Exceeds the limit (4300 digits) for integer string conversion; use sys.set_int_max_str_digits() to increase the limit".

(** [10 ^ digits <= n] for [n >= 0], that is, [n] has more than [digits]
    decimal digits; computed digit by digit. *)
Fixpoint more_digits_than (digits : nat) (n : Z) : bool :=
  match digits with
  | O => 0 <? n
  | S digits' => if n =? 0 then false else more_digits_than digits' (n / 10)
  end.

(** The sign does not count as a digit. *)
Definition exceeds_int_limit (n : Z) : bool :=
  more_digits_than int_max_str_digits (Z.abs n).

(** Whether the encoder meets such a number somewhere in the value. *)
Fixpoint has_long_int (v : pyval) : bool :=
  match v with
  | PInt n => exceeds_int_limit n
  | PList items => existsb has_long_int items
  | PDict items => existsb (fun kv => has_long_int (snd kv)) items
  | _ => false
  end.

Definition hex_digit (n : N) : ascii :=
  if (n <? 10)%N then ascii_of_N (48 + n) else ascii_of_N (87 + n).

(** One character under [ensure_ascii]: the short escapes of [ESCAPE_DCT],
    the printable ASCII range [' '..'~'] unchanged, everything else as
    [\uXXXX] in lower-case hexadecimal. *)
Definition escape_char (c : ascii) : string :=
  let n := N_of_ascii c in
  if (n =? 92)%N then "\\"
  else if (n =? 34)%N then String "\" (String (ascii_of_N 34) "")
  else if (n =? 8)%N then "\b"
  else if (n =? 12)%N then "\f"
  else if (n =? 10)%N then "\n"
  else if (n =? 13)%N then "\r"
  else if (n =? 9)%N then "\t"
  else if ((32 <=? n) && (n <=? 126))%N then String c ""
  else "\u00" +:+ String (hex_digit (n / 16)) (String (hex_digit (n mod 16)) "").

Fixpoint escape_body (s : string) : string :=
  match s with
  | EmptyString => EmptyString
  | String c s' => escape_char c +:+ escape_body s'
  end.

Definition quote : string := String (ascii_of_N 34) "".

(** Notation for expected outputs: the text with every ['] read as the
    double quote. *)
Fixpoint dq (s : string) : string :=
  match s with
  | EmptyString => EmptyString
  | String c s' => String (if Ascii.eqb c "'" then ascii_of_N 34 else c) (dq s')
  end.

(** [py_encode_basestring_ascii] *)
Definition encode_str (s : string) : string :=
  quote +:+ escape_body s +:+ quote.

(** [sorted(dct.items())]: keys of a dict are distinct, so the order is the
    order of the keys (code point by code point). *)
Fixpoint insert_item {A} (x : string * A) (l : list (string * A)) : list (string * A) :=
  match l with
  | [] => [x]
  | y :: l' => if String.leb (fst x) (fst y) then x :: l else y :: insert_item x l'
  end.

Definition sort_items {A} (l : list (string * A)) : list (string * A) :=
  foldr insert_item [] l.

(** [newline_indent] at a nesting level: nothing without [indent]. *)
Definition newline_indent (indent : option nat) (level : nat) : string :=
  match indent with
  | None => ""
  | Some w => String (ascii_of_N 10) (Py.spaces (w * level))
  end.

(** [item_separator]: [", "] without [indent], [","] followed by the
    newline and indentation with it. *)
Definition item_separator (indent : option nat) (level : nat) : string :=
  match indent with
  | None => ", "
  | Some _ => "," +:+ newline_indent indent level
  end.

Definition bracket (indent : option nat) (level : nat)
    (opening closing : string) (parts : list string) : string :=
  match parts with
  | [] => opening +:+ closing
  | _ =>
      opening +:+ newline_indent indent (S level)
      +:+ Py.join (item_separator indent (S level)) parts
      +:+ newline_indent indent level +:+ closing
  end.

(** [_iterencode] at nesting depth [level].  The members of a dict are
    encoded first and then ordered by key; the order only looks at the
    keys, so this is the encoder's "order the items, then encode each". *)
Fixpoint encode (indent : option nat) (sort_keys : bool) (level : nat)
    (v : json) : string :=
  match v with
  | JNull => "null"
  | JBool true => "true"
  | JBool false => "false"
  | JInt n => Py.str_of_int n
  | JStr s => encode_str s
  | JList items =>
      bracket indent level "[" "]"
        (map (encode indent sort_keys (S level)) items)
  | JDict items =>
      let members :=
        map (fun kv => (fst kv, encode indent sort_keys (S level) (snd kv))) items in
      let ordered := if sort_keys then sort_items members else members in
      bracket indent level "{" "}"
        (map (fun ks => encode_str (fst ks) +:+ ": " +:+ snd ks) ordered)
  end.

(** [json.dumps(obj, indent=..., sort_keys=...)] *)
Definition dumps (indent : option nat) (sort_keys : bool) (obj : json) : string :=
  encode indent sort_keys 0 obj.

(** [obj["key"]] on a parsed response, for reading fields back. *)
Fixpoint field (key : string) (items : list (string * json)) : option json :=
  match items with
  | [] => None
  | (k, v) :: rest => if String.eqb k key then Some v else field key rest
  end.

End Json.

(** ** hashlib.md5

    Modelled from RFC 1321 (the library is an external collaborator): the
    message is a byte string, words are 32-bit integers kept in [Z] with the
    wrap-around written out. *)

Module Md5.

Definition mask32 : Z := 0xffffffff.
Definition add32 (x y : Z) : Z := Z.land (x + y) mask32.
Definition not32 (x : Z) : Z := Z.lxor x mask32.
Definition rotl32 (x : Z) (c : Z) : Z :=
  Z.land (Z.lor (Z.shiftl x c) (Z.shiftr x (32 - c))) mask32.

(** Per-round shift amounts and the sine table. *)
Definition shifts : list Z :=
  [7; 12; 17; 22; 7; 12; 17; 22; 7; 12; 17; 22; 7; 12; 17; 22;
   5; 9; 14; 20; 5; 9; 14; 20; 5; 9; 14; 20; 5; 9; 14; 20;
   4; 11; 16; 23; 4; 11; 16; 23; 4; 11; 16; 23; 4; 11; 16; 23;
   6; 10; 15; 21; 6; 10; 15; 21; 6; 10; 15; 21; 6; 10; 15; 21].

Definition sines : list Z :=
  [0xd76aa478; 0xe8c7b756; 0x242070db; 0xc1bdceee;
   0xf57c0faf; 0x4787c62a; 0xa8304613; 0xfd469501;
   0x698098d8; 0x8b44f7af; 0xffff5bb1; 0x895cd7be;
   0x6b901122; 0xfd987193; 0xa679438e; 0x49b40821;
   0xf61e2562; 0xc040b340; 0x265e5a51; 0xe9b6c7aa;
   0xd62f105d; 0x02441453; 0xd8a1e681; 0xe7d3fbc8;
   0x21e1cde6; 0xc33707d6; 0xf4d50d87; 0x455a14ed;
   0xa9e3e905; 0xfcefa3f8; 0x676f02d9; 0x8d2a4c8a;
   0xfffa3942; 0x8771f681; 0x6d9d6122; 0xfde5380c;
   0xa4beea44; 0x4bdecfa9; 0xf6bb4b60; 0xbebfbc70;
   0x289b7ec6; 0xeaa127fa; 0xd4ef3085; 0x04881d05;
   0xd9d4d039; 0xe6db99e5; 0x1fa27cf8; 0xc4ac5665;
   0xf4292244; 0x432aff97; 0xab9423a7; 0xfc93a039;
   0x655b59c3; 0x8f0ccc92; 0xffeff47d; 0x85845dd1;
   0x6fa87e4f; 0xfe2ce6e0; 0xa3014314; 0x4e0811a1;
   0xf7537e82; 0xbd3af235; 0x2ad7d2bb; 0xeb86d391].

Definition bytes_of_string (s : string) : list Z :=
  map (fun c => Z.of_N (N_of_ascii c)) (String.list_ascii_of_string s).

(** [n] as [k] little-endian bytes. *)
Fixpoint le_bytes (k : nat) (n : Z) : list Z :=
  match k with
  | O => []
  | S k' => Z.land n 0xff :: le_bytes k' (Z.shiftr n 8)
  end.

(** Padding: a 1 bit, zeros up to 56 modulo 64, the bit length on 64 bits. *)
Definition pad (msg : list Z) : list Z :=
  let len := Z.of_nat (length msg) in
  let zeros := Z.to_nat ((55 - len) mod 64) in
  msg ++ [0x80] ++ replicate zeros 0 ++ le_bytes 8 (Z.land (8 * len) 0xffffffffffffffff).

Fixpoint word_of_le (bs : list Z) : Z :=
  match bs with
  | [] => 0
  | b :: rest => b + 256 * word_of_le rest
  end.

(** Cut a byte string into [n] chunks of [size] bytes. *)
Fixpoint chunks (n size : nat) (bs : list Z) : list (list Z) :=
  match n with
  | O => []
  | S n' => firstn size bs :: chunks n' size (skipn size bs)
  end.

Definition words_of_block (block : list Z) : list Z :=
  map word_of_le (chunks 16 4 block).

Definition state : Type := Z * Z * Z * Z.

Definition init : state := (0x67452301, 0xefcdab89, 0x98badcfe, 0x10325476).

(** Operation [i] of the 64 on the working state. *)
Definition round (m : list Z) (st : state) (i : nat) : state :=
  let '(a, b, c, d) := st in
  let iz := Z.of_nat i in
  let '(f, g) :=
    if iz <? 16 then (Z.lor (Z.land b c) (Z.land (not32 b) d), iz)
    else if iz <? 32 then (Z.lor (Z.land d b) (Z.land (not32 d) c), (5 * iz + 1) mod 16)
    else if iz <? 48 then (Z.lxor (Z.lxor b c) d, (3 * iz + 5) mod 16)
    else (Z.lxor c (Z.lor b (not32 d)), (7 * iz) mod 16) in
  let f' := add32 (add32 (add32 f a) (nth i sines 0)) (nth (Z.to_nat g) m 0) in
  (d, add32 b (rotl32 f' (nth i shifts 0)), b, c).

Definition process_block (st : state) (block : list Z) : state :=
  let '(a0, b0, c0, d0) := st in
  let '(a, b, c, d) := foldl (round (words_of_block block)) st (seq 0 64) in
  (add32 a0 a, add32 b0 b, add32 c0 c, add32 d0 d).

Definition digest (msg : list Z) : list Z :=
  let padded := pad msg in
  let '(a, b, c, d) :=
    foldl process_block init (chunks (length padded / 64) 64 padded) in
  le_bytes 4 a ++ le_bytes 4 b ++ le_bytes 4 c ++ le_bytes 4 d.

Definition hex_of_byte (b : Z) : string :=
  String (Json.hex_digit (Z.to_N (b / 16)))
    (String (Json.hex_digit (Z.to_N (b mod 16))) "").

(** [hashlib.md5(data).hexdigest()] *)
Definition hexdigest (data : string) : string :=
  foldr (fun b acc => hex_of_byte b +:+ acc) "" (digest (bytes_of_string data)).

End Md5.

(** ** SimpleCache (search_server.py, lines 22-54) *)

Module SimpleCache.
Section Cache.
Context {V : Type}.

(** The instance attributes set by [__init__]. *)
Record t : Type := mk {
  _cache : gmap string V;
  _timestamps : gmap string Z;
  default_ttl : Z
}.

Definition __init__ (default_ttl : Z) : t := mk ∅ ∅ default_ttl.

(** [_make_key]: [args] is the tuple of positional arguments, [kwargs] the
    keyword arguments in the order of the call (their names are distinct).
    [json.dumps] writes a tuple as a list, and raises [ValueError] when an
    argument holds an [int] too long to be written; the JSON text is ASCII,
    so [encode()] is the identity on it. *)
Definition _make_key (args : list Json.pyval) (kwargs : list (string * Json.pyval))
    : outcome string :=
  let arguments := Json.PList [Json.PList args; Json.PDict kwargs] in
  if Json.has_long_int arguments then Raise Json.int_limit_message
  else
    let key_str := Json.dumps None true (Json.default_str arguments) in
    Return (Md5.hexdigest key_str).

(** [get]: [Return (Some v)] is [return self._cache[key]], [Return None] is
    [return None].  [self._timestamps[key]] raises [KeyError] when the key
    is missing from the timestamp dict. *)
Definition get (self : t) (now : Z) (key : string) : t * outcome (option V) :=
  match _cache self !! key with
  | Some v =>
      match _timestamps self !! key with
      | Some t0 =>
          if bool_decide (now - t0 < default_ttl self)
          then (self, Return (Some v))
          else (mk (delete key (_cache self)) (delete key (_timestamps self))
                   (default_ttl self),
                Return None)
      | None => (self, Raise "KeyError")
      end
  | None => (self, Return None)
  end.

(** [set]: the [ttl] argument ([None] when omitted) is not used by the
    body. *)
Definition set (self : t) (now : Z) (key : string) (value : V)
    (ttl : option Z) : t :=
  mk (<[key := value]> (_cache self)) (<[key := now]> (_timestamps self))
     (default_ttl self).

Definition clear (self : t) : t := mk ∅ ∅ (default_ttl self).

(** A client's view of the cache: a sequence of calls, each made at some
    clock reading, and what each call returns. *)
Inductive call : Type :=
| CallGet (key : string)
| CallSet (key : string) (value : V) (ttl : option Z)
| CallClear.

Definition perform (self : t) (now : Z) (c : call) : t * outcome (option V) :=
  match c with
  | CallGet key => get self now key
  | CallSet key value ttl => (set self now key value ttl, Return None)
  | CallClear => (clear self, Return None)
  end.

Fixpoint run (self : t) (calls : list (Z * call)) : t * list (outcome (option V)) :=
  match calls with
  | [] => (self, [])
  | (now, c) :: rest =>
      let '(self', r) := perform self now c in
      let '(self'', rs) := run self' rest in
      (self'', r :: rs)
  end.

(** The same call with the [ttl] argument left out. *)
Definition without_ttl (c : call) : call :=
  match c with
  | CallSet key value _ => CallSet key value None
  | other => other
  end.

End Cache.
Arguments t : clear implicits.
End SimpleCache.

(** The module-level instance: [cache = SimpleCache(default_ttl=300)]. *)
Definition cache {V} : SimpleCache.t V := SimpleCache.__init__ 300.

(** ** Tool envelopes (search_server.py, lines 64-102 and 289-319) *)

Module Tools.
Import Json.

(** A result of the search backend: a dict read with [result.get]. *)
Definition backend_result : Type := gmap string json.

(** [result.get(key, default)] *)
Definition dict_get (d : backend_result) (key : string) (default : string) : json :=
  match d !! key with
  | Some v => v
  | None => JStr default
  end.

Section Search.
(** [list(DDGS().text(query, max_results=...))] and
    [list(DDGS().news(query, max_results=...))]: the result list, or the
    exception raised anywhere inside the [try] block. *)
Variable ddgs_text : string -> Z -> outcome (list backend_result).
Variable ddgs_news : string -> Z -> outcome (list backend_result).

Definition _search_web_impl (query : string) (max_results : Z) : string :=
  match ddgs_text query max_results with
  | Return results =>
      match results with
      | [] =>
          dumps None false
            (JDict [("status", JStr "success"); ("results", JList []);
                    ("message", JStr "No results found.")])
      | _ =>
          let formatted_results :=
            map (fun result =>
                   JDict [("title", dict_get result "title" "No title");
                          ("url", dict_get result "href" "No URL");
                          ("snippet", dict_get result "body" "No description")])
                results in
          dumps (Some 2%nat) false
            (JDict [("status", JStr "success"); ("query", JStr query);
                    ("results", JList formatted_results)])
      end
  | Raise e =>
      dumps (Some 2%nat) false
        (JDict [("status", JStr "error"); ("query", JStr query);
                ("message", JStr ("Search failed: " +:+ e))])
  end.

Definition _search_news_impl (query : string) (max_results : Z) : string :=
  match ddgs_news query max_results with
  | Return results =>
      match results with
      | [] =>
          dumps None false
            (JDict [("status", JStr "success"); ("results", JList []);
                    ("message", JStr "No news found.")])
      | _ =>
          let formatted_results :=
            map (fun result =>
                   JDict [("title", dict_get result "title" "No title");
                          ("url", dict_get result "url" "No URL");
                          ("snippet", dict_get result "body" "No description");
                          ("source", dict_get result "source" "Unknown");
                          ("date", dict_get result "date" "Unknown")])
                results in
          dumps (Some 2%nat) false
            (JDict [("status", JStr "success"); ("query", JStr query);
                    ("results", JList formatted_results)])
      end
  | Raise e =>
      dumps (Some 2%nat) false
        (JDict [("status", JStr "error"); ("query", JStr query);
                ("message", JStr ("News search failed: " +:+ e))])
  end.

(** The registered tools only forward to the implementations. *)
Definition search_web (query : string) (max_results : Z) : string :=
  _search_web_impl query max_results.

Definition search_news (query : string) (max_results : Z) : string :=
  _search_news_impl query max_results.
End Search.

(** A response is in the 2-space-indented format when it is what
    [json.dumps(obj, indent=2)] writes for some object. *)
Definition indented2 (response : string) : Prop :=
  exists items, response = dumps (Some 2%nat) false (JDict items).

(** The status values of the envelope. *)
Definition status_values : list json :=
  [JStr "success"; JStr "error"; JStr "not_found"].

End Tools.

(** ** Site crawler (search_server.py, lines 1155-1239) *)

Module Crawler.
Import Json.

(** An entry of [pages]. *)
Record page : Type := mk_page {
  url : string;
  title : string;
  content_preview : string
}.

(** What the [try] block obtains from a fetched document before it touches
    [pages]: the stripped title (or ["No title"]), the joined body text, and
    for every [a[@href]] element in document order the value of
    [urljoin(current_url, href)], or the exception that resolving or parsing
    that link raises. *)
Record document : Type := mk_document {
  doc_title : string;
  doc_text : string;
  doc_links : list (outcome string)
}.

(** The local variables of the [while] loop. *)
Record state : Type := mk_state {
  visited : gset string;
  to_visit : list string;
  pages : list page
}.

Definition skip_patterns : list string :=
  [".pdf"; ".jpg"; ".png"; ".gif"; ".css"; ".js"; "#"; "mailto:"; "tel:"].

(** [any(p in full_url.lower() for p in skip_patterns)] *)
Definition skip_url (full_url : string) : bool :=
  Py.any (fun p => Py.contains p (Py.lower full_url)) skip_patterns.

(** [url.startswith(('http://', 'https://'))] *)
Definition has_web_scheme (u : string) : bool :=
  Py.any (Py.startswith u) ["http://"; "https://"].

(** The first statement of the function: the protocol is added when it is
    missing. *)
Definition normalize (u : string) : string :=
  if negb (has_web_scheme u) then "https://" +:+ u else u.

Section Crawl.
(** [urlparse(u).netloc] *)
Variable netloc : string -> string.
(** [client.get], [raise_for_status], [html.fromstring] and the XPath
    queries on a URL: the document, or the exception one of them raises.
    No URL is requested twice in a crawl, so a function of the URL
    describes every behaviour of the network. *)
Variable fetch : string -> outcome document.

Variable max_pages : Z.
Variable same_domain : bool.
Variable base_domain : string.

(** The [for anchor in tree.xpath('//a[@href]')] loop.  An exception
    leaves the loop for the enclosing [except: continue]; what was
    appended to [to_visit] before stays. *)
Fixpoint enqueue_links (visited : gset string) (to_visit : list string)
    (links : list (outcome string)) : list string :=
  match links with
  | [] => to_visit
  | Raise _ :: _ => to_visit
  | Return full_url :: rest =>
      if negb (has_web_scheme full_url) then
        enqueue_links visited to_visit rest
      else if same_domain && negb (String.eqb (netloc full_url) base_domain) then
        enqueue_links visited to_visit rest
      else if skip_url full_url then
        enqueue_links visited to_visit rest
      else if bool_decide (full_url ∉ visited) && bool_decide (full_url ∉ to_visit) then
        enqueue_links visited (to_visit ++ [full_url]) rest
      else
        enqueue_links visited to_visit rest
  end.

(** A link that passes the three filters of the [for] loop and is not in
    [visited]. *)
Definition accepted (visited : gset string) (u : string) : Prop :=
  has_web_scheme u = true
  ∧ (same_domain = true → netloc u = base_domain)
  ∧ skip_url u = false
  ∧ u ∉ visited.

(** [while to_visit and len(pages) < max_pages] *)
Definition loop_cond (st : state) : bool :=
  negb (bool_decide (to_visit st = [])) && (Z.of_nat (length (pages st)) <? max_pages).

(** One execution of the loop body.  [to_visit.pop(0)] on an empty list
    cannot happen under [loop_cond]; the state is then left as it is. *)
Definition loop_body (st : state) : state :=
  match to_visit st with
  | [] => st
  | current_url :: rest =>
      if bool_decide (current_url ∈ visited st) then
        mk_state (visited st) rest (pages st)
      else
        let visited' := {[current_url]} ∪ visited st in
        match fetch current_url with
        | Return doc =>
            let pages' :=
              pages st ++ [mk_page current_url (doc_title doc)
                             (Py.take 2000 (doc_text doc))] in
            mk_state visited' (enqueue_links visited' rest (doc_links doc)) pages'
        | Raise _ => mk_state visited' rest (pages st)
        end
  end.

(** The three ways through the loop body, as a relation between the state
    before and the state after: the URL was seen before, its fetch raised,
    or it was fetched and some accepted links were appended. *)
Inductive iteration (st : state) : state -> Prop :=
| iter_seen u rest :
    to_visit st = u :: rest -> u ∈ visited st ->
    iteration st (mk_state (visited st) rest (pages st))
| iter_failed u rest e :
    to_visit st = u :: rest -> u ∉ visited st -> fetch u = Raise e ->
    iteration st (mk_state ({[u]} ∪ visited st) rest (pages st))
| iter_fetched u rest doc added :
    to_visit st = u :: rest -> u ∉ visited st -> fetch u = Return doc ->
    Forall (accepted ({[u]} ∪ visited st)) added ->
    iteration st
      (mk_state ({[u]} ∪ visited st) (rest ++ added)
         (pages st ++ [mk_page u (doc_title doc) (Py.take 2000 (doc_text doc))])).

(** The loop.  An iteration either appends a page, which happens at most
    [max_pages - len(pages)] times, or shortens [to_visit] by one: [drain]
    iterates while no page is appended, with the length of the frontier as
    its bound, and hands over to [k] when one is. *)
Fixpoint drain (k : state -> state) (n : nat) (st : state) : state :=
  match n with
  | O => st
  | S n' =>
      if loop_cond st then
        let st' := loop_body st in
        if Nat.eqb (length (pages st')) (length (pages st))
        then drain k n' st'
        else k st'
      else st
  end.

Fixpoint while_budget (b : nat) (st : state) : state :=
  match b with
  | O => st
  | S b' => drain (while_budget b') (length (to_visit st)) st
  end.

Definition budget (st : state) : nat :=
  Z.to_nat (max_pages - Z.of_nat (length (pages st))).

Definition while_loop (st : state) : state := while_budget (budget st) st.

(** The loop as a relation: [loop_result st r] when the [while] loop
    started in [st] exits in [r]. *)
Inductive loop_result : state -> state -> Prop :=
| loop_exit st : loop_cond st = false -> loop_result st st
| loop_iter st r :
    loop_cond st = true -> loop_result (loop_body st) r -> loop_result st r.

(** The states in which the loop condition is evaluated during the crawl
    that starts in [st0]. *)
Inductive reachable (st0 : state) : state -> Prop :=
| reach_start : reachable st0 st0
| reach_iter st :
    reachable st0 st -> loop_cond st = true -> reachable st0 (loop_body st).
End Crawl.

(** [visited = set(); to_visit = [url]; pages = []] *)
Definition initial_state (seed : string) : state := mk_state ∅ [seed] [].

Definition json_of_page (p : page) : json :=
  JDict [("url", JStr (url p)); ("title", JStr (title p));
         ("content_preview", JStr (content_preview p))].

Section Impl.
Variable netloc : string -> string.
Variable fetch : string -> outcome document.
(** [urlparse(u)] raises [ValueError] for some texts, such as
    [http://[::1] with its unbalanced bracket: the message of the exception
    when it does.  [netloc u] is the [.netloc] of the result when it does
    not. *)
Variable urlparse_error : string -> option string.
(** [httpx.Client(follow_redirects=True, timeout=15.0)].  This call and
    [urlparse(url)] on the seed are the calls of the outer [try] block that
    are not inside the per-page [try]. *)
Variable new_client : outcome unit.

(** The state in which the loop exits, for the given arguments. *)
Definition crawl (seed : string) (max_pages : Z) (same_domain : bool) : state :=
  let seed' := normalize seed in
  while_loop netloc fetch max_pages same_domain (netloc seed') (initial_state seed').

(** The function: [base_domain = urlparse(url).netloc] comes first and may
    raise, then the client is created, then the loop runs; an exception of
    the first two is reported by the outer handler. *)
Definition _crawl_website_impl (seed : string) (max_pages : Z)
    (same_domain : bool) : string :=
  let seed' := normalize seed in
  let failed (e : string) :=
    dumps (Some 2%nat) false
      (JDict [("status", JStr "error"); ("url", JStr seed');
              ("message", JStr ("Crawl failed: " +:+ e))]) in
  match urlparse_error seed' with
  | Some e => failed e
  | None =>
      match new_client with
      | Return _ =>
          let pages := pages (crawl seed max_pages same_domain) in
          dumps (Some 2%nat) false
            (JDict [("status", JStr "success"); ("start_url", JStr seed');
                    ("pages_crawled", JInt (Z.of_nat (length pages)));
                    ("pages", JList (map json_of_page pages))])
      | Raise e => failed e
      end
  end.

Definition crawl_website (seed : string) (max_pages : Z) (same_domain : bool) : string :=
  _crawl_website_impl seed max_pages same_domain.
End Impl.

(** [s.endswith(suffix)] *)
Fixpoint endswith (s suffix : string) : bool :=
  String.eqb s suffix
  || match s with
     | EmptyString => false
     | String _ s' => endswith s' suffix
     end.

(** What the spec's sentence on link filtering calls a link that is never
    enqueued, in its words: a fragment target, a [mailto:] or [tel:] link,
    or a URL with one of the listed suffixes (in either case of the
    letters). *)
Definition spec_non_content (u : string) : bool :=
  let l := Py.lower u in
  Py.contains "#" l
  || Py.startswith l "mailto:" || Py.startswith l "tel:"
  || Py.any (endswith l) [".pdf"; ".jpg"; ".png"; ".gif"; ".css"; ".js"].

(** ** A small web for the examples

    [example_netloc] is [urlparse(u).netloc] on URLs of the form
    [scheme://host/...]: what stands between the [//] and the next [/],
    [?] or [#]. *)
Fixpoint until_delim (s : string) : string :=
  match s with
  | EmptyString => EmptyString
  | String c s' =>
      if (Ascii.eqb c "/" || Ascii.eqb c "?" || Ascii.eqb c "#")%bool
      then EmptyString else String c (until_delim s')
  end.

Definition example_netloc (u : string) : string :=
  if Py.startswith u "https://" then until_delim (String.substring 8 (String.length u) u)
  else if Py.startswith u "http://" then until_delim (String.substring 7 (String.length u) u)
  else "".

(** The check of [urlsplit] on the host: a bracket without its partner is
    an ["Invalid IPv6 URL"]. *)
Definition example_urlparse_error (u : string) : option string :=
  let host := example_netloc u in
  if xorb (Py.contains "[" host) (Py.contains "]" host)
  then Some "Invalid IPv6 URL" else None.

(** Page A links to B and C on its own host and to D on another one; B
    cannot be fetched; C links back to A and to a few non-content
    targets; a PDF report is served as well. *)
Definition example_web (u : string) : outcome document :=
  if String.eqb u "https://a.example/" then
    Return (mk_document "A" "page a"
              [Return "https://a.example/b"; Return "https://a.example/c";
               Return "https://d.example/"])
  else if String.eqb u "https://a.example/b" then
    Raise "ConnectError"
  else if String.eqb u "https://a.example/c" then
    Return (mk_document "C" "page c"
              [Return "https://a.example/"; Return "https://a.example/c#top";
               Return "mailto:me@a.example"; Return "https://a.example/data.json";
               Return "https://a.example/e"])
  else if String.eqb u "https://a.example/e" then
    Return (mk_document "E" "page e" [])
  else if String.eqb u "https://a.example/report.pdf" then
    Return (mk_document "No title" "" [])
  else Raise "HTTPStatusError".

End Crawler.

(** ** More Python string operations *)

Module PyStr.

(** [c.isspace()] for a code point below 256. *)
Definition is_space (c : ascii) : bool :=
  let n := N_of_ascii c in
  (((9 <=? n) && (n <=? 13)) || ((28 <=? n) && (n <=? 32))
   || (n =? 133) || (n =? 160))%N.

(** [s.lstrip()], [s.rstrip()] and [s.strip()] *)
Fixpoint lstrip (s : string) : string :=
  match s with
  | EmptyString => EmptyString
  | String c s' => if is_space c then lstrip s' else s
  end.

Fixpoint rstrip (s : string) : string :=
  match s with
  | EmptyString => EmptyString
  | String c s' =>
      match rstrip s' with
      | EmptyString => if is_space c then EmptyString else String c EmptyString
      | r => String c r
      end
  end.

Definition strip (s : string) : string := rstrip (lstrip s).

(** [s[:n]] for any [int]: a negative [n] counts from the end, and the
    bounds are clamped. *)
Definition slice_to (n : Z) (s : string) : string :=
  if 0 <=? n then Py.take (Z.to_nat n) s
  else Py.take (String.length s - Z.to_nat (- n)) s.

(** The truncation idiom of the fetch tools:
    [if len(s) > max_length: s = s[:max_length] + marker]. *)
Definition truncate (marker : string) (max_length : Z) (s : string) : string :=
  if Z.of_nat (String.length s) >? max_length
  then slice_to max_length s +:+ marker
  else s.

Definition newline : ascii := ascii_of_N 10.

(** [re.sub(r'\n{3,}', '\n\n', s)]: the pattern matches a whole run of
    three or more line feeds and two are written for it, a shorter run is
    left alone; so no run keeps more than its first two.  [run] counts the
    line feeds just read. *)
Fixpoint collapse_newlines_from (run : nat) (s : string) : string :=
  match s with
  | EmptyString => EmptyString
  | String c s' =>
      if Ascii.eqb c newline then
        if Nat.ltb run 2 then String c (collapse_newlines_from (S run) s')
        else collapse_newlines_from (S run) s'
      else String c (collapse_newlines_from 0 s')
  end.

Definition collapse_newlines (s : string) : string := collapse_newlines_from 0 s.

(** [s[n:]] for [n >= 0] *)
Fixpoint drop (n : nat) (s : string) : string :=
  match n, s with
  | O, _ => s
  | S n', String _ s' => drop n' s'
  | S _, EmptyString => EmptyString
  end.

(** [all(f(c) for c in s)] *)
Fixpoint all_chars (f : ascii -> bool) (s : string) : bool :=
  match s with
  | EmptyString => true
  | String c s' => f c && all_chars f s'
  end.

End PyStr.

(** ** extract_links (search_server.py, lines 463-522) *)

Module ExtractLinks.
Import Json.

(** An [a[@href]] element as the loop sees it: [anchor.text_content()] and
    the value of [urljoin(url, href)], or the exception that resolving or
    parsing the link raises. *)
Record anchor : Type := mk_anchor {
  text_content : string;
  target : outcome string
}.

(** An entry of [links]. *)
Record link : Type := mk_link {
  link_url : string;
  link_text : string
}.

Section Extract.
(** [urlparse(u).netloc] *)
Variable netloc : string -> string.
(** The request, [raise_for_status], [html.fromstring] and the XPath query:
    the anchors of the page in document order, or the exception raised. *)
Variable fetch_anchors : string -> outcome (list anchor).

(** [anchor.text_content().strip()[:100] if anchor.text_content() else ""] *)
Definition anchor_text (a : anchor) : string :=
  if String.eqb (text_content a) "" then ""
  else Py.take 100 (PyStr.strip (text_content a)).

(** What the loop guarantees of a link it appends while it goes through
    [anchors]. *)
Definition listed (same_domain_only : bool) (base_domain : string)
    (anchors : list anchor) (l : link) : Prop :=
  Crawler.has_web_scheme (link_url l) = true
  ∧ (same_domain_only = true → netloc (link_url l) = base_domain)
  ∧ (String.length (link_text l) ≤ 100)%nat
  ∧ ∃ a, a ∈ anchors ∧ target a = Return (link_url l) ∧ link_text l = anchor_text a.

(** The [for anchor in ...] loop, with its local variables [seen] and
    [links]; an exception leaves it for the handler of the function. *)
Fixpoint collect (same_domain_only : bool) (base_domain : string)
    (seen : gset string) (links : list link) (anchors : list anchor)
    : outcome (list link) :=
  match anchors with
  | [] => Return links
  | a :: rest =>
      let text := anchor_text a in
      match target a with
      | Raise e => Raise e
      | Return full_url =>
          if negb (Crawler.has_web_scheme full_url) then
            collect same_domain_only base_domain seen links rest
          else if same_domain_only && negb (String.eqb (netloc full_url) base_domain) then
            collect same_domain_only base_domain seen links rest
          else if bool_decide (full_url ∈ seen) then
            collect same_domain_only base_domain seen links rest
          else
            collect same_domain_only base_domain ({[full_url]} ∪ seen)
              (links ++ [mk_link full_url text]) rest
      end
  end.

(** The body of the [try] block up to the [return]: the list [links]. *)
Definition extracted (url : string) (same_domain_only : bool) : outcome (list link) :=
  match fetch_anchors url with
  | Raise e => Raise e
  | Return anchors => collect same_domain_only (netloc url) ∅ [] anchors
  end.

Definition json_of_link (l : link) : json :=
  JDict [("url", JStr (link_url l)); ("text", JStr (link_text l))].

Definition _extract_links_impl (url : string) (same_domain_only : bool) : string :=
  let url := Crawler.normalize url in
  match extracted url same_domain_only with
  | Return links =>
      dumps (Some 2%nat) false
        (JDict [("status", JStr "success"); ("source_url", JStr url);
                ("total_links", JInt (Z.of_nat (length links)));
                ("links", JList (map json_of_link links))])
  | Raise e =>
      dumps (Some 2%nat) false
        (JDict [("status", JStr "error"); ("url", JStr url);
                ("message", JStr ("Failed to extract links: " +:+ e))])
  end.

Definition extract_links (url : string) (same_domain_only : bool) : string :=
  _extract_links_impl url same_domain_only.
End Extract.

(** A page for the examples: a link repeated, a relative link resolved to
    the same host, a link to another host and a [mailto:] link. *)
Definition example_anchors (u : string) : outcome (list anchor) :=
  if String.eqb u "https://a.example/" then
    Return [mk_anchor "  Home " (Return "https://a.example/");
            mk_anchor "Docs" (Return "https://a.example/docs");
            mk_anchor "" (Return "https://b.example/");
            mk_anchor "Home again" (Return "https://a.example/");
            mk_anchor "Mail" (Return "mailto:me@a.example")]
  else if String.eqb u "https://a.example/broken" then
    Return [mk_anchor "Docs" (Return "https://a.example/docs");
            mk_anchor "Bad" (Raise "Invalid IPv6 URL");
            mk_anchor "Home" (Return "https://a.example/")]
  else Raise "ConnectError".

End ExtractLinks.

(** ** batch_search (search_server.py, lines 1363-1393) *)

Module BatchSearch.
Import Json.

(** [d[key] = value] on a dict kept in insertion order: a key that is
    present keeps its place and gets the new value, a new key goes last. *)
Fixpoint dict_set (key : string) (value : json) (d : list (string * json))
    : list (string * json) :=
  match d with
  | [] => [(key, value)]
  | (k, v) :: d' =>
      if String.eqb k key then (key, value) :: d'
      else (k, v) :: dict_set key value d'
  end.

(** [queries[:10]] *)
Definition first_ten (queries : list string) : list string := firstn 10 queries.

Section Batch.
(** [DDGS()] *)
Variable new_ddgs : outcome unit.
(** The [i]-th call of [list(ddgs.text(query, max_results=...))] of the
    batch (the backend may answer a repeated query differently). *)
Variable ddgs_text : nat -> string -> Z -> outcome (list Tools.backend_result).

(** What one query stores in [all_results]. *)
Definition query_entry (i : nat) (query : string) (max_results_per_query : Z) : json :=
  match ddgs_text i query max_results_per_query with
  | Return results =>
      JList (map (fun r =>
                    JDict [("title", Tools.dict_get r "title" "");
                           ("url", Tools.dict_get r "href" "");
                           ("snippet", Tools.dict_get r "body" "")])
                 results)
  | Raise e => JDict [("error", JStr e)]
  end.

(** The [for query in queries[:10]] loop from its [i]-th iteration on. *)
Fixpoint search_all (i : nat) (queries : list string) (max_results_per_query : Z)
    (all_results : list (string * json)) : list (string * json) :=
  match queries with
  | [] => all_results
  | query :: rest =>
      search_all (S i) rest max_results_per_query
        (dict_set query (query_entry i query max_results_per_query) all_results)
  end.

(** [all_results] when the loop is over. *)
Definition batch_results (queries : list string) (max_results_per_query : Z)
    : list (string * json) :=
  search_all 0 (first_ten queries) max_results_per_query [].

Definition _batch_search_impl (queries : list string) (max_results_per_query : Z) : string :=
  match new_ddgs with
  | Return _ =>
      dumps (Some 2%nat) false
        (JDict [("status", JStr "success");
                ("total_queries", JInt (Z.of_nat (length queries)));
                ("results", JDict (batch_results queries max_results_per_query))])
  | Raise e =>
      dumps (Some 2%nat) false
        (JDict [("status", JStr "error");
                ("message", JStr ("Batch search failed: " +:+ e))])
  end.

Definition batch_search (queries : list string) (max_results_per_query : Z) : string :=
  _batch_search_impl queries max_results_per_query.
End Batch.

End BatchSearch.

(** ** The video ID of get_youtube_transcript (search_server.py, lines 1066-1083) *)

Module VideoId.

(** The character class [[a-zA-Z0-9_-]]. *)
Definition is_id_char (c : ascii) : bool :=
  let n := N_of_ascii c in
  (((97 <=? n) && (n <=? 122)) || ((65 <=? n) && (n <=? 90))
   || ((48 <=? n) && (n <=? 57)) || (n =? 95) || (n =? 45))%N.

(** [([a-zA-Z0-9_-]{11})] matched at the start of [s]: the group. *)
Definition id_here (s : string) : option string :=
  let candidate := Py.take 11 s in
  if Nat.eqb (String.length candidate) 11 && PyStr.all_chars is_id_char candidate
  then Some candidate else None.

(** The alternatives of [(?:v=|/v/|youtu\.be/|/embed/)], in order. *)
Definition id_prefixes : list string := ["v="; "/v/"; "youtu.be/"; "/embed/"].

(** The first pattern matched at the start of [s]: the alternatives are
    tried in order, and the next one is tried when the group does not match
    after one. *)
Fixpoint match_here (prefixes : list string) (s : string) : option string :=
  match prefixes with
  | [] => None
  | p :: rest =>
      if Py.startswith s p then
        match id_here (PyStr.drop (String.length p) s) with
        | Some id => Some id
        | None => match_here rest s
        end
      else match_here rest s
  end.

(** [re.search] with the first pattern: the leftmost position that
    matches. *)
Fixpoint search_first (s : string) : option string :=
  match match_here id_prefixes s with
  | Some id => Some id
  | None =>
      match s with
      | EmptyString => None
      | String _ s' => search_first s'
      end
  end.

(** [re.search(r'^([a-zA-Z0-9_-]{11})$', s)]: [$] also matches before a
    line feed that ends the string. *)
Definition search_second (s : string) : option string :=
  match id_here s with
  | Some id =>
      let rest := PyStr.drop 11 s in
      if String.eqb rest "" || String.eqb rest (String PyStr.newline "")
      then Some id else None
  | None => None
  end.

(** The [for pattern in patterns] loop: [video_id], or [None]. *)
Definition extract_video_id (video_url : string) : option string :=
  match search_first video_url with
  | Some id => Some id
  | None => search_second video_url
  end.

End VideoId.

(** ** fetch_as_markdown (search_server.py, lines 969-1038) *)

Module FetchMarkdown.
Import Json.

(** [if cached:] for a value read from the cache: a string counts when it
    is not empty. *)
Definition truthy (cached : option string) : bool :=
  match cached with
  | Some s => negb (String.eqb s "")
  | None => false
  end.

Definition truncation_marker : string :=
  String PyStr.newline (String PyStr.newline "... [truncated]").

(** The clean-up of the converted text: runs of line feeds are cut, the
    ends are stripped, and the text is truncated to [max_length]. *)
Definition clean (max_length : Z) (markdown_content : string) : string :=
  PyStr.truncate truncation_marker max_length
    (PyStr.strip (PyStr.collapse_newlines markdown_content)).

Definition error_response (url message : string) : string :=
  dumps (Some 2%nat) false
    (JDict [("status", JStr "error"); ("url", JStr url);
            ("message", JStr ("Failed to fetch as markdown: " +:+ message))]).

Definition success_response (url title content : string) : string :=
  dumps (Some 2%nat) false
    (JDict [("status", JStr "success"); ("url", JStr url); ("title", JStr title);
            ("content_markdown", JStr content)]).

Section Fetch.
(** The request, the parse of the page, the removal of scripts and page
    furniture and [md(...)] for a URL: the title and the converted text, or
    the exception raised on the way. *)
Variable fetch_md : string -> outcome (string * string).

(** The function on the global cache: [now_get] and [now_set] are the clock
    readings of [cache.get] and [cache.set].  The key is made first, from
    the URL as it was passed, and making it may raise; [str(e)] of the
    [KeyError] of [get] is the quoted key.  Up to the line that adds the
    protocol, the handler reports the URL as it was passed. *)
Definition _fetch_as_markdown_impl (cache : SimpleCache.t string)
    (now_get now_set : Z) (url : string) (max_length : Z)
    : SimpleCache.t string * string :=
  match SimpleCache._make_key [PStr "markdown"; PStr url; PInt max_length] [] with
  | Raise e => (cache, error_response url e)
  | Return cache_key =>
      match SimpleCache.get cache now_get cache_key with
      | (cache1, Raise _) => (cache1, error_response url ("'" +:+ cache_key +:+ "'"))
      | (cache1, Return cached) =>
          if truthy cached then (cache1, default "" cached)
          else
            let url := Crawler.normalize url in
            match fetch_md url with
            | Raise e => (cache1, error_response url e)
            | Return (title, markdown_content) =>
                let result :=
                  success_response url title (clean max_length markdown_content) in
                (SimpleCache.set cache1 now_set cache_key result None, result)
            end
      end
  end.

Definition fetch_as_markdown := _fetch_as_markdown_impl.
End Fetch.

End FetchMarkdown.

(** ** read_pdf_url (search_server.py, lines 1262-1341) *)

Module ReadPdf.
Import Json.

(** A document opened by [fitz.open]: [doc.metadata] and, page by page,
    what [doc[page_num].get_text()] returns or raises. *)
Record pdf : Type := mk_pdf {
  metadata : gmap string json;
  page_texts : list (outcome string)
}.

(** The response to the request: the [content-type] header (empty when
    absent) and what [fitz.open] makes of the body. *)
Record response : Type := mk_response {
  content_type : string;
  opened : outcome pdf
}.

Definition truncation_marker : string := FetchMarkdown.truncation_marker.

(** [range(min(len(doc), max_pages))]: how many pages are read. *)
Definition pages_read (doc : pdf) (max_pages : Z) : nat :=
  Z.to_nat (Z.min (Z.of_nat (length (page_texts doc))) max_pages).

(** The texts the loop reads, in order; the first exception ends it. *)
Fixpoint read_texts (texts : list (outcome string)) : outcome (list string) :=
  match texts with
  | [] => Return []
  | Raise e :: _ => Raise e
  | Return text :: rest =>
      match read_texts rest with
      | Return texts' => Return (text :: texts')
      | Raise e => Raise e
      end
  end.

Definition texts_read (doc : pdf) (max_pages : Z) : outcome (list string) :=
  read_texts (firstn (pages_read doc max_pages) (page_texts doc)).

(** [pages_content] from page number [page_num] (counted from 0) on. *)
Fixpoint pages_from (page_num : nat) (texts : list string) : list json :=
  match texts with
  | [] => []
  | text :: rest =>
      JDict [("page", JInt (Z.of_nat page_num + 1)); ("text", JStr (Py.take 3000 text))]
      :: pages_from (S page_num) rest
  end.

Definition pages_content (texts : list string) : list json := pages_from 0 texts.

(** [full_text] when the loop is over: every page read, followed by two
    line feeds. *)
Fixpoint concat_pages (texts : list string) : string :=
  match texts with
  | [] => ""
  | text :: rest => text +:+ String PyStr.newline (String PyStr.newline "") +:+ concat_pages rest
  end.

(** The [full_text] of the response: truncated at 50000 characters, then
    stripped. *)
Definition full_text (texts : list string) : string :=
  PyStr.strip (PyStr.truncate truncation_marker 50000 (concat_pages texts)).

Definition metadata_of (doc : pdf) : json :=
  JDict [("title", Tools.dict_get (metadata doc) "title" "");
         ("author", Tools.dict_get (metadata doc) "author" "");
         ("subject", Tools.dict_get (metadata doc) "subject" "");
         ("creator", Tools.dict_get (metadata doc) "creator" "");
         ("total_pages", JInt (Z.of_nat (length (page_texts doc))))].

Definition error_response (url message : string) : string :=
  dumps (Some 2%nat) false
    (JDict [("status", JStr "error"); ("url", JStr url); ("message", JStr message)]).

Definition success_response (url : string) (doc : pdf) (texts : list string) : string :=
  dumps (Some 2%nat) false
    (JDict [("status", JStr "success"); ("url", JStr url);
            ("metadata", metadata_of doc);
            ("full_text", JStr (full_text texts));
            ("pages", JList (pages_content texts))]).

(** ['pdf' not in content_type.lower() and not url.lower().endswith('.pdf')] *)
Definition not_a_pdf (content_type url : string) : bool :=
  negb (Py.contains "pdf" (Py.lower content_type))
  && negb (Crawler.endswith (Py.lower url) ".pdf").

Section Read.
(** [import fitz] *)
Variable import_fitz : outcome unit.
(** [client.get] and [raise_for_status] *)
Variable http_get : string -> outcome response.

Definition _read_pdf_url_impl (cache : SimpleCache.t string)
    (now_get now_set : Z) (url : string) (max_pages : Z)
    : SimpleCache.t string * string :=
  match import_fitz with
  | Raise e => (cache, error_response url ("Failed to read PDF: " +:+ e))
  | Return _ =>
      let url := Crawler.normalize url in
      match SimpleCache._make_key [PStr "pdf"; PStr url; PInt max_pages] [] with
      | Raise e => (cache, error_response url ("Failed to read PDF: " +:+ e))
      | Return cache_key =>
          match SimpleCache.get cache now_get cache_key with
          | (cache1, Raise _) =>
              (cache1, error_response url ("Failed to read PDF: '" +:+ cache_key +:+ "'"))
          | (cache1, Return cached) =>
              if FetchMarkdown.truthy cached then (cache1, default "" cached)
              else
                match http_get url with
                | Raise e => (cache1, error_response url ("Failed to read PDF: " +:+ e))
                | Return resp =>
                    if not_a_pdf (content_type resp) url then
                      (cache1, error_response url "URL does not appear to be a PDF file")
                    else
                      match opened resp with
                      | Raise e =>
                          (cache1, error_response url ("Failed to read PDF: " +:+ e))
                      | Return doc =>
                          match texts_read doc max_pages with
                          | Raise e =>
                              (cache1, error_response url ("Failed to read PDF: " +:+ e))
                          | Return texts =>
                              let result := success_response url doc texts in
                              (SimpleCache.set cache1 now_set cache_key result None,
                               result)
                          end
                      end
                end
          end
      end
  end.

Definition read_pdf_url := _read_pdf_url_impl.
End Read.

End ReadPdf.

(** ** Cache management (search_server.py, lines 1414-1427) *)

Module CacheTool.
Import Json.

(** [clear_cache] on the global cache: the cache after the call and the
    confirmation that is returned. *)
Definition clear_cache (cache : SimpleCache.t string) : SimpleCache.t string * string :=
  (SimpleCache.clear cache,
   dumps (Some 2%nat) false
     (JDict [("status", JStr "success");
             ("message", JStr "Cache cleared successfully")])).

End CacheTool.

(** ** More inputs for the examples *)

Module MoreExamples.

(** The page A of the example web with a link in the middle that cannot be
    resolved. *)
Definition broken_web (u : string) : outcome Crawler.document :=
  if String.eqb u "https://a.example/" then
    Return (Crawler.mk_document "A" "page a"
              [Return "https://a.example/b"; Raise "Invalid IPv6 URL";
               Return "https://a.example/c"])
  else Raise "ConnectError".

(** A backend that finds one result for every query but fails on its
    second call. *)
Definition flaky_search (i : nat) (query : string) (max_results : Z)
    : outcome (list Tools.backend_result) :=
  if Nat.eqb i 1 then Raise "RatelimitException"
  else Return [{["title" := Json.JStr query]}].

(** A page that converts to a title and some text. *)
Definition markdown_site (u : string) : outcome (string * string) :=
  if String.eqb u "https://a.example/" then Return ("A", "# A")
  else Raise "ConnectError".

(** A site that cannot be reached at all. *)
Definition offline (u : string) : outcome (string * string) := Raise "ConnectError".

(** A three-page PDF, and an HTML page served where a PDF was expected. *)
Definition pdf_site (u : string) : outcome ReadPdf.response :=
  if String.eqb u "https://a.example/report.pdf" then
    Return (ReadPdf.mk_response "application/pdf"
              (Return (ReadPdf.mk_pdf ∅ [Return "one"; Return "two"; Return "three"])))
  else if String.eqb u "https://a.example/page" then
    Return (ReadPdf.mk_response "text/html; charset=utf-8" (Raise "FileDataError"))
  else Raise "ConnectError".

End MoreExamples.
(** * Proofs *)

(** ** The models on concrete inputs *)

(** The test suite of RFC 1321; the last message takes two blocks. *)
Example md5_test_suite :
  Md5.hexdigest "" = "d41d8cd98f00b204e9800998ecf8427e"
  ∧ Md5.hexdigest "a" = "0cc175b9c0f1b6a831c399e269772661"
  ∧ Md5.hexdigest "abc" = "900150983cd24fb0d6963f7d28e17f72"
  ∧ Md5.hexdigest "message digest" = "f96b697d7cb7938d525a2f31aaf161d0"
  ∧ Md5.hexdigest "abcdefghijklmnopqrstuvwxyz" = "c3fcd3d76192e4007dfb496cca67e13b"
  ∧ Md5.hexdigest
      "12345678901234567890123456789012345678901234567890123456789012345678901234567890"
    = "57edf4a22be3c955ac49da2e2107b67a".
Proof. repeat split; vm_compute; reflexivity. Qed.

(** The text that [_make_key("markdown", url, 10000, b=2, a=1)] hashes. *)
Example key_str_example :
  Json.dumps None true
    (Json.default_str
       (Json.PList [Json.PList [Json.PStr "markdown"; Json.PStr "https://a.example/";
                                Json.PInt 10000];
                    Json.PDict [("b", Json.PInt 2); ("a", Json.PInt 1)]]))
  = Json.dq "[['markdown', 'https://a.example/', 10000], {'a': 1, 'b': 2}]".
Proof. vm_compute. reflexivity. Qed.

(** Indentation, nesting, empty containers and escapes. *)
Example dumps_indent_example :
  Json.dumps (Some 2%nat) false
    (Json.JDict [("a", Json.JList [Json.JInt (-1); Json.JDict [("b", Json.JList [])]]);
                 ("s", Json.JStr (String (ascii_of_N 233) (String (ascii_of_N 9) "\")));
                 ("n", Json.JNull); ("t", Json.JBool true)])
  = Json.dq "{
  'a': [
    -1,
    {
      'b': []
    }
  ],
  's': '\u00e9\t\\',
  'n': null,
  't': true
}".
Proof. vm_compute. reflexivity. Qed.

(** The crawl of the example web from A: B fails, D is on another host, the
    links of C to itself with a fragment, to a mail address and to the
    [.json] file are skipped, E is found through C. *)
Example crawl_example :
  let r := Crawler.crawl Crawler.example_netloc Crawler.example_web "a.example/" 10 true in
  map Crawler.url (Crawler.pages r)
  = ["https://a.example/"; "https://a.example/c"; "https://a.example/e"]
  ∧ Crawler.to_visit r = []
  ∧ map Crawler.url
      (Crawler.pages
         (Crawler.crawl Crawler.example_netloc Crawler.example_web "a.example/" 2 true))
    = ["https://a.example/"; "https://a.example/c"].
Proof. repeat split; vm_compute; reflexivity. Qed.

(** A seed that [urlparse] rejects is reported by the outer handler, before
    any request is made. *)
Example unparsable_seed_example :
  Crawler.crawl_website Crawler.example_netloc Crawler.example_web
    Crawler.example_urlparse_error (Return ()) "http://[::1" 10 true
  = Json.dq "{
  'status': 'error',
  'url': 'http://[::1',
  'message': 'Crawl failed: Invalid IPv6 URL'
}".
Proof. vm_compute. reflexivity. Qed.

(** ** Result cache *)

Section CacheFacts.
Context {V : Type}.
Implicit Types (c : SimpleCache.t V) (k : string) (v : V) (now : Z).
Import SimpleCache.

Lemma set_lookup c now k v ttl :
  _cache (set c now k v ttl) !! k = Some v
  ∧ _timestamps (set c now k v ttl) !! k = Some now
  ∧ default_ttl (set c now k v ttl) = default_ttl c.
Proof. cbn. by rewrite !lookup_insert_eq. Qed.

Lemma get_stored c now (t0 : Z) k v :
  _cache c !! k = Some v → _timestamps c !! k = Some t0 →
  get c now k =
    if bool_decide (now - t0 < default_ttl c)
    then (c, Return (Some v))
    else (mk (delete k (_cache c)) (delete k (_timestamps c)) (default_ttl c),
          Return None).
Proof. intros Hc Ht. unfold get. by rewrite Hc, Ht. Qed.

Lemma perform_without_ttl c now cl :
  perform c now (without_ttl cl) = perform c now cl.
Proof. by destruct cl. Qed.

Lemma run_without_ttl c (calls : list (Z * call)) :
  run c (map (λ nc, (nc.1, without_ttl nc.2)) calls) = run c calls.
Proof.
  revert c. induction calls as [|[now cl] calls IH]; intros c; [done|].
  cbn [map run fst snd]. rewrite perform_without_ttl.
  destruct (perform c now cl) as [c' r]. by rewrite IH.
Qed.

(** C1. [set(k, v, t)] leaves the cache in the state that [set(k, v)]
    leaves it in, for every [t]: the value and the insertion time are
    stored, the process-wide default TTL is unchanged and is what a later
    [get] compares against, and no sequence of later calls, whatever [ttl]
    arguments they pass, returns anything different. *)
Theorem set_ttl_has_no_effect c now k v (t : option Z) :
  set c now k v t = set c now k v None
  ∧ _cache (set c now k v t) !! k = Some v
  ∧ _timestamps (set c now k v t) !! k = Some now
  ∧ default_ttl (set c now k v t) = default_ttl c
  ∧ (∀ now', (get (set c now k v t) now' k).2 =
             if bool_decide (now' - now < default_ttl c)
             then Return (Some v) else Return None)
  ∧ (∀ calls, run (set c now k v t) calls = run (set c now k v None) calls)
  ∧ (∀ calls, run c (map (λ nc, (nc.1, without_ttl nc.2)) calls) = run c calls).
Proof.
  destruct (set_lookup c now k v t) as (Hv & Ht & Hd).
  repeat split; try done.
  - intros now'. rewrite (get_stored _ now' now k v Hv Ht), Hd.
    by case_bool_decide.
  - apply run_without_ttl.
Qed.

(** C4. An entry stored for [k] at time [t0] and looked up at a time
    [now] with [now - t0 >= ttl] is a miss: [get] returns [None] and
    deletes the entry from both dicts, leaving the other keys alone.  The
    stored value is returned exactly when [now - t0 < ttl]. *)
Theorem get_expiry c now (t0 : Z) k v :
  _cache c !! k = Some v → _timestamps c !! k = Some t0 →
  (now - t0 >= default_ttl c →
     (get c now k).2 = Return None
     ∧ _cache (get c now k).1 !! k = None
     ∧ _timestamps (get c now k).1 !! k = None
     ∧ ∀ k', k' ≠ k →
         _cache (get c now k).1 !! k' = _cache c !! k'
         ∧ _timestamps (get c now k).1 !! k' = _timestamps c !! k')
  ∧ ((get c now k).2 = Return (Some v) ↔ now - t0 < default_ttl c).
Proof.
  intros Hc Ht. rewrite (get_stored c now t0 k v Hc Ht).
  case_bool_decide as Hlt; cbn.
  - split; [lia | done].
  - split; [|split; [done | lia]].
    intros _. rewrite !lookup_delete_eq. repeat split; try done.
    all: by rewrite lookup_delete_ne.
Qed.

(** C5. [set(k, v)] followed by [get(k)] less than [ttl] later returns
    [v] and leaves the cache as [set] left it; [set] replaces whatever was
    stored under [k] before, value and timestamp. *)
Theorem set_then_get c (t0 : Z) now k v (ttl : option Z) :
  now - t0 < default_ttl c →
  get (set c t0 k v ttl) now k = (set c t0 k v ttl, Return (Some v))
  ∧ (∀ t1 v1 ttl1, set (set c t1 k v1 ttl1) t0 k v ttl = set c t0 k v ttl)
  ∧ _cache (set c t0 k v ttl) !! k = Some v.
Proof.
  intros Hlt. destruct (set_lookup c t0 k v ttl) as (Hv & Ht & Hd).
  split; [|split; [|done]].
  - rewrite (get_stored _ now t0 k v Hv Ht), Hd. by rewrite bool_decide_eq_true_2.
  - intros t1 v1 ttl1. unfold set; cbn. by rewrite !insert_insert_eq.
Qed.
End CacheFacts.

Lemma get_expiry_witness :
  let c : SimpleCache.t string := SimpleCache.set cache 1000 "k" "v" None in
  SimpleCache._cache c !! "k" = Some "v"
  ∧ SimpleCache._timestamps c !! "k" = Some 1000
  ∧ (SimpleCache.get c 1300 "k").2 = Return None
  ∧ SimpleCache._cache (SimpleCache.get c 1300 "k").1 !! "k" = None.
Proof.
  intros c.
  assert (Hc : SimpleCache._cache c !! "k" = Some "v") by reflexivity.
  assert (Ht : SimpleCache._timestamps c !! "k" = Some 1000) by reflexivity.
  destruct (get_expiry c 1300 1000 "k" "v" Hc Ht) as [Hexp _].
  destruct Hexp as (Hr & Hgone & _); [cbn; lia|].
  repeat split; assumption.
Defined.

Lemma set_then_get_witness :
  299 - 0 < SimpleCache.default_ttl (@cache string)
  ∧ SimpleCache.get (SimpleCache.set cache 0 "k" "v" (Some 5)) 299 "k"
    = (SimpleCache.set cache 0 "k" "v" (Some 5), Return (Some "v")).
Proof.
  assert (H : 299 - 0 < SimpleCache.default_ttl (@cache string)) by (cbn; lia).
  split; [exact H|].
  exact (proj1 (set_then_get cache 0 299 "k" "v" (Some 5) H)).
Defined.

(** ** Cache keys *)

Section KeyFacts.
Import Json.

Lemma leb_lt_or_eq (a b : string) :
  String.leb a b = true ↔ a = b ∨ OrderedTypeEx.String_as_OT.lt a b.
Proof.
  unfold String.leb. destruct (String.compare a b) eqn:Hcmp.
  - apply OrderedTypeEx.String_as_OT.cmp_eq in Hcmp. tauto.
  - apply OrderedTypeEx.String_as_OT.cmp_lt in Hcmp. tauto.
  - split; [done|]. intros [->|Hlt].
    + assert (String.compare b b = Eq) as Heq
        by by apply OrderedTypeEx.String_as_OT.cmp_eq.
      congruence.
    + apply OrderedTypeEx.String_as_OT.cmp_lt in Hlt.
      unfold OrderedTypeEx.String_as_OT.cmp in Hlt. congruence.
Qed.

Lemma leb_trans (a b c : string) :
  String.leb a b = true → String.leb b c = true → String.leb a c = true.
Proof.
  rewrite !leb_lt_or_eq. intros [->|Hab] [->|Hbc]; auto.
  right. by eapply OrderedTypeEx.String_as_OT.lt_trans.
Qed.

Lemma leb_false_flip (a b : string) :
  String.leb a b = false → String.leb b a = true.
Proof. destruct (String.leb_total a b) as [H|H]; congruence. Qed.

Context {A : Type}.
Implicit Types (x y : string * A) (l : list (string * A)).

Lemma insert_item_comm x y l :
  x.1 ≠ y.1 →
  insert_item x (insert_item y l) = insert_item y (insert_item x l).
Proof.
  intros Hne. induction l as [|z l IH]; cbn.
  - destruct (String.leb x.1 y.1) eqn:Hxy, (String.leb y.1 x.1) eqn:Hyx; try done.
    + destruct Hne. by apply String.leb_antisym.
    + apply leb_false_flip in Hxy. congruence.
  - destruct (String.leb y.1 z.1) eqn:Hyz, (String.leb x.1 z.1) eqn:Hxz; cbn;
      rewrite ?Hyz, ?Hxz.
    + destruct (String.leb x.1 y.1) eqn:Hxy, (String.leb y.1 x.1) eqn:Hyx; try done.
      * destruct Hne. by apply String.leb_antisym.
      * apply leb_false_flip in Hxy. congruence.
    + destruct (String.leb x.1 y.1) eqn:Hxy; [|done].
      rewrite (leb_trans _ _ _ Hxy Hyz) in Hxz. done.
    + destruct (String.leb y.1 x.1) eqn:Hyx; [|done].
      rewrite (leb_trans _ _ _ Hyx Hxz) in Hyz. done.
    + by rewrite IH.
Qed.

Lemma sort_items_perm l1 l2 :
  NoDup (map fst l1) → l1 ≡ₚ l2 → sort_items l1 = sort_items l2.
Proof.
  intros Hnd Hperm. induction Hperm as [|x l l' _ IH|x y l|l l' l'' H1 IH1 H2 IH2].
  - done.
  - cbn in Hnd. apply NoDup_cons in Hnd as [_ Hnd].
    change (insert_item x (sort_items l) = insert_item x (sort_items l')).
    by rewrite IH.
  - cbn in Hnd. apply NoDup_cons in Hnd as [Hy _].
    change (insert_item y (insert_item x (sort_items l))
            = insert_item x (insert_item y (sort_items l))).
    apply insert_item_comm. intros Heq. apply Hy. rewrite Heq. left.
  - rewrite IH1 by done. apply IH2.
    by rewrite <-(Permutation_map fst H1).
Qed.
End KeyFacts.

Section MakeKey.
Import Json SimpleCache.

Lemma encode_dict_perm indent level (items1 items2 : list (string * json)) :
  NoDup (map fst items1) → items1 ≡ₚ items2 →
  encode indent true level (JDict items1) = encode indent true level (JDict items2).
Proof.
  intros Hnd Hperm. cbn [encode].
  set (enc := λ kv : string * json, (kv.1, encode indent true (S level) kv.2)).
  rewrite (sort_items_perm (map enc items1) (map enc items2)); [done| |].
  - by rewrite map_map.
  - by apply Permutation_map.
Qed.

Lemma default_str_keys (kwargs : list (string * pyval)) :
  map fst (map (λ kv, (kv.1, default_str kv.2)) kwargs) = map fst kwargs.
Proof. by rewrite map_map. Qed.

(** The limit on the digits of an [int], in plain terms. *)
Lemma more_digits_than_spec (digits : nat) (n : Z) :
  0 ≤ n → more_digits_than digits n = true ↔ 10 ^ Z.of_nat digits ≤ n.
Proof.
  revert n. induction digits as [|digits IH]; intros n Hn.
  - cbn [more_digits_than]. rewrite Z.ltb_lt. change (10 ^ Z.of_nat 0) with 1. lia.
  - cbn [more_digits_than].
    assert (Hpow : 10 ^ Z.of_nat (S digits) = 10 * 10 ^ Z.of_nat digits).
    { rewrite Nat2Z.inj_succ. apply Z.pow_succ_r. lia. }
    assert (Hpos : 0 < 10 ^ Z.of_nat digits) by (apply Z.pow_pos_nonneg; lia).
    destruct (Z.eqb_spec n 0) as [->|Hne]; [split; [done|lia]|].
    rewrite IH by (apply Z.div_pos; lia). rewrite Hpow. split.
    + intros Hle. pose proof (Z.mul_div_le n 10 ltac:(lia)). lia.
    + intros Hle. apply Z.div_le_lower_bound; lia.
Qed.

Lemma exceeds_int_limit_spec (n : Z) :
  exceeds_int_limit n = true ↔ 10 ^ 4300 ≤ Z.abs n.
Proof.
  unfold exceeds_int_limit. rewrite more_digits_than_spec by lia.
  by replace (Z.of_nat int_max_str_digits) with 4300 by (unfold int_max_str_digits; lia).
Qed.

Lemma existsb_perm {A} (f : A → bool) (l1 l2 : list A) :
  l1 ≡ₚ l2 → existsb f l1 = existsb f l2.
Proof.
  induction 1 as [|x l l' _ IH|x y l|l l' l'' _ IH1 _ IH2]; cbn.
  - done.
  - by rewrite IH.
  - by destruct (f x), (f y).
  - by rewrite IH1.
Qed.

(** The key, when [json.dumps] does not raise. *)
Lemma make_key_returns args (kwargs : list (string * pyval)) :
  has_long_int (PList [PList args; PDict kwargs]) = false →
  _make_key args kwargs
  = Return (Md5.hexdigest
              (dumps None true (default_str (PList [PList args; PDict kwargs])))).
Proof. intros Hshort. unfold _make_key. by rewrite Hshort. Qed.

Lemma make_key_perm args (kw1 kw2 : list (string * pyval)) :
  NoDup (map fst kw1) → kw1 ≡ₚ kw2 → _make_key args kw1 = _make_key args kw2.
Proof.
  intros Hnd Hperm. unfold _make_key.
  assert (has_long_int (PList [PList args; PDict kw1])
          = has_long_int (PList [PList args; PDict kw2])) as ->.
  { cbn [has_long_int existsb]. do 2 f_equal. by apply existsb_perm. }
  destruct (has_long_int _); [done|]. unfold dumps. do 2 f_equal.
  cbn [default_str map]. cbn [encode map]. do 3 f_equal.
  apply encode_dict_perm.
  - by rewrite default_str_keys.
  - by apply Permutation_map.
Qed.

(** C6. [_make_key] is a function of its arguments, and the key does not
    depend on the order in which keyword arguments are written: two calls
    with the same positional arguments and the same name-to-value bindings
    yield the same key, as in [make_key(a=1, b=2) == make_key(b=2, a=1)].
    The order of positional arguments does matter: [make_key(1, 2)] and
    [make_key(2, 1)] differ. *)
Theorem make_key_keyword_order args (kw1 kw2 : list (string * pyval)) :
  NoDup (map fst kw1) → kw1 ≡ₚ kw2 →
  _make_key args kw1 = _make_key args kw2
  ∧ _make_key [] [("a", PInt 1); ("b", PInt 2)]
    = _make_key [] [("b", PInt 2); ("a", PInt 1)]
  ∧ _make_key [PInt 1; PInt 2] [] ≠ _make_key [PInt 2; PInt 1] [].
Proof.
  intros Hnd Hperm. split; [by apply make_key_perm|]. split.
  - apply make_key_perm; [|apply perm_swap].
    cbn. apply NoDup_cons_2; [|apply NoDup_singleton].
    by intros ?%list_elem_of_singleton.
  - vm_compute. discriminate.
Qed.
End MakeKey.

Lemma make_key_keyword_order_witness :
  let kw1 := [("url", Json.PStr "https://a.example/"); ("max_length", Json.PInt 10000)] in
  let kw2 := [("max_length", Json.PInt 10000); ("url", Json.PStr "https://a.example/")] in
  NoDup (map fst kw1) ∧ kw1 ≡ₚ kw2
  ∧ SimpleCache._make_key [Json.PStr "markdown"] kw1
    = SimpleCache._make_key [Json.PStr "markdown"] kw2.
Proof.
  intros kw1 kw2.
  assert (Hnd : NoDup (map fst kw1)).
  { cbn. apply NoDup_cons_2; [|apply NoDup_singleton].
    intros Hin. apply list_elem_of_singleton in Hin. discriminate. }
  assert (Hperm : kw1 ≡ₚ kw2) by apply perm_swap.
  split; [exact Hnd|]. split; [exact Hperm|].
  exact (proj1 (make_key_keyword_order [Json.PStr "markdown"] kw1 kw2 Hnd Hperm)).
Defined.

(** ** Tool envelopes *)

Section ToolFacts.
Import Json Tools.

(** What [json.dumps(obj, indent=2)] writes for a dict starts with an
    opening brace followed by a line break, unless the dict is empty. *)
Lemma indented2_shape response :
  indented2 response →
  response = "{}" ∨ ∃ rest, response = String "{" (String (ascii_of_N 10) rest).
Proof.
  intros [items ->]. destruct items as [|item items]; [by left|].
  right. unfold dumps. cbn. eauto.
Qed.

Variable ddgs_text : string → Z → outcome (list backend_result).
Variable ddgs_news : string → Z → outcome (list backend_result).

(** Every branch of the two search tools returns an object with a
    [status] of ["success"] or ["error"]. *)
Lemma search_web_status query max_results :
  ∃ indent items status,
    search_web ddgs_text query max_results = dumps indent false (JDict items)
    ∧ field "status" items = Some status ∧ status ∈ status_values.
Proof.
  unfold search_web, _search_web_impl, status_values.
  destruct (ddgs_text query max_results) as [[|r results]|e];
    eexists _, _, _; (split; [reflexivity|]); (split; [reflexivity|]); set_solver.
Qed.

Lemma search_news_status query max_results :
  ∃ indent items status,
    search_news ddgs_news query max_results = dumps indent false (JDict items)
    ∧ field "status" items = Some status ∧ status ∈ status_values.
Proof.
  unfold search_news, _search_news_impl, status_values.
  destruct (ddgs_news query max_results) as [[|r results]|e];
    eexists _, _, _; (split; [reflexivity|]); (split; [reflexivity|]); set_solver.
Qed.

(** The branches that pass [indent=2]: an error and a non-empty result. *)
Lemma search_web_indented query max_results :
  ddgs_text query max_results ≠ Return [] →
  indented2 (search_web ddgs_text query max_results).
Proof.
  unfold search_web, _search_web_impl, indented2.
  destruct (ddgs_text query max_results) as [[|r results]|e]; [done|..]; eauto.
Qed.
End ToolFacts.

(** C3, evaluated where it fails.  When the backend finds nothing,
    [search_web] and [search_news] return the empty-result envelope on a
    single line, as [json.dumps] writes it without [indent]; that text is not
    the 2-space-indented form of any object.  The envelope does carry a
    [status] field, with the value ["success"]. *)
Theorem empty_result_is_not_indented (query : string) (max_results : Z) :
  let nothing : string → Z → outcome (list Tools.backend_result) := λ _ _, Return [] in
  Tools.search_web nothing query max_results
  = Json.dq "{'status': 'success', 'results': [], 'message': 'No results found.'}"
  ∧ ¬ Tools.indented2 (Tools.search_web nothing query max_results)
  ∧ Tools.search_news nothing query max_results
    = Json.dq "{'status': 'success', 'results': [], 'message': 'No news found.'}"
  ∧ ¬ Tools.indented2 (Tools.search_news nothing query max_results)
  ∧ (∃ items,
       Tools.search_web nothing query max_results
       = Json.dumps None false (Json.JDict items)
       ∧ Json.field "status" items = Some (Json.JStr "success")).
Proof.
  intros nothing.
  split; [reflexivity|]. split; [|split; [reflexivity|split]].
  - intros [Heq|[rest Heq]]%indented2_shape; vm_compute in Heq; discriminate.
  - intros [Heq|[rest Heq]]%indented2_shape; vm_compute in Heq; discriminate.
  - by eexists.
Qed.

(** ** Crawler: the loop *)

Section LoopFacts.
Import Crawler.
Variable netloc : string → string.
Variable fetch : string → outcome document.
Variable max_pages : Z.
Variable same_domain : bool.
Variable base_domain : string.

#[local] Abbreviation enqueue := (enqueue_links netloc same_domain base_domain).
#[local] Abbreviation cond := (loop_cond max_pages).
#[local] Abbreviation body := (loop_body netloc fetch same_domain base_domain).
#[local] Abbreviation result := (loop_result netloc fetch max_pages same_domain base_domain).
#[local] Abbreviation reach := (reachable netloc fetch max_pages same_domain base_domain).
#[local] Abbreviation while := (while_loop netloc fetch max_pages same_domain base_domain).
#[local] Abbreviation while_b := (while_budget netloc fetch max_pages same_domain base_domain).
#[local] Abbreviation budget_of := (budget max_pages).
#[local] Abbreviation accepted := (accepted netloc same_domain base_domain).
#[local] Abbreviation iteration := (iteration netloc fetch same_domain base_domain).

(** The [for] loop only appends to [to_visit], and only accepted links. *)
Lemma enqueue_links_appends visited tv links :
  ∃ added, enqueue visited tv links = tv ++ added ∧ Forall (accepted visited) added.
Proof.
  revert tv. induction links as [|[u|e] links IH]; intros tv; cbn [enqueue_links].
  - exists []. by rewrite app_nil_r.
  - destruct (has_web_scheme u) eqn:Hweb; cbn [negb]; [|apply IH].
    destruct (same_domain && negb (String.eqb (netloc u) base_domain)) eqn:Hdom;
      [apply IH|].
    destruct (skip_url u) eqn:Hskip; [apply IH|].
    destruct (bool_decide (u ∉ visited) && bool_decide (u ∉ tv)) eqn:Hnew;
      [|apply IH].
    destruct (IH (tv ++ [u])) as (added & -> & Hadded).
    exists (u :: added). rewrite <-app_assoc. split; [done|].
    constructor; [|done]. repeat split; try done.
    + intros ->. cbn in Hdom. apply negb_false_iff in Hdom.
      by apply String.eqb_eq.
    + apply andb_true_iff in Hnew as [Hv _]. by apply bool_decide_eq_true in Hv.
  - exists []. by rewrite app_nil_r.
Qed.

Lemma cond_true st :
  cond st = true ↔ to_visit st ≠ [] ∧ Z.of_nat (length (pages st)) < max_pages.
Proof.
  unfold loop_cond. rewrite andb_true_iff, negb_true_iff, bool_decide_eq_false.
  by rewrite Z.ltb_lt.
Qed.

Lemma cond_false st :
  cond st = false ↔ to_visit st = [] ∨ max_pages ≤ Z.of_nat (length (pages st)).
Proof.
  unfold loop_cond. rewrite andb_false_iff, negb_false_iff, bool_decide_eq_true.
  by rewrite Z.ltb_ge.
Qed.

Lemma loop_body_iteration st : to_visit st ≠ [] → iteration st (body st).
Proof.
  intros Hne. unfold loop_body. destruct (to_visit st) as [|u rest] eqn:Htv; [done|].
  case_bool_decide as Hseen; [by eapply iter_seen|].
  destruct (fetch u) as [doc|e] eqn:Hfetch; [|by eapply iter_failed].
  destruct (enqueue_links_appends ({[u]} ∪ visited st) rest (doc_links doc))
    as (added & -> & Hadded).
  by eapply iter_fetched.
Qed.

(** *** Termination *)

Lemma drain_result b :
  (∀ st, (budget_of st ≤ b)%nat → result st (while_b b st)) →
  ∀ n st, (length (to_visit st) ≤ n)%nat → (budget_of st ≤ S b)%nat →
    result st (drain netloc fetch max_pages same_domain base_domain (while_b b) n st).
Proof.
  intros Hk. induction n as [|n IH]; intros st Hlen Hbud; cbn.
  - apply loop_exit, cond_false. left. by apply nil_length_inv, Nat.le_0_r.
  - destruct (cond st) eqn:Hcond; [|by apply loop_exit].
    apply loop_iter; [done|].
    apply cond_true in Hcond as [Hne Hlt].
    destruct (loop_body_iteration st Hne) as [u rest Htv ?|u rest e Htv ? ?|u rest doc added Htv ? ? ?];
      cbn [pages to_visit]; rewrite ?Nat.eqb_refl.
    + apply IH; cbn; [rewrite Htv in Hlen; cbn in Hlen; lia | done].
    + apply IH; cbn; [rewrite Htv in Hlen; cbn in Hlen; lia | done].
    + rewrite length_app. cbn [length].
      replace (length (pages st) + 1 =? length (pages st))%nat with false
        by (symmetry; apply Nat.eqb_neq; lia).
      apply Hk. unfold budget in *. cbn [pages]. rewrite length_app. cbn [length]. lia.
Qed.

Lemma while_budget_result b st :
  (budget_of st ≤ b)%nat → result st (while_b b st).
Proof.
  revert st. induction b as [|b IH]; intros st Hbud.
  - cbn [while_budget]. apply loop_exit, cond_false. right.
    unfold budget in Hbud. lia.
  - cbn. by apply drain_result.
Qed.

(** The loop terminates from every state, and [while_loop] is the state in
    which it exits. *)
Lemma while_loop_result st : result st (while st).
Proof. by apply while_budget_result. Qed.

Lemma loop_result_unique st r1 r2 : result st r1 → result st r2 → r1 = r2.
Proof.
  intros H1. revert r2. induction H1 as [st Hc|st r Hc _ IH]; intros r2 H2.
  - destruct H2; [done | congruence].
  - destruct H2 as [st Hc2|st r2 _ H2]; [congruence | by apply IH].
Qed.

Lemma while_loop_unfold st :
  while st = if cond st then while (body st) else st.
Proof.
  pose proof (while_loop_result st) as Hr.
  destruct (cond st) eqn:Hc.
  - destruct Hr as [st Hc'|st r _ Hr]; [congruence|].
    eapply loop_result_unique; [done | apply while_loop_result].
  - destruct Hr as [st _|st r Hc' _]; [done | congruence].
Qed.

Lemma loop_result_reachable st0 st r :
  reach st0 st → result st r → reach st0 r ∧ cond r = false.
Proof.
  intros Hreach Hr. induction Hr as [st Hc|st r Hc _ IH]; [done|].
  apply IH. by apply reach_iter.
Qed.

Lemma while_loop_reachable st0 :
  reach st0 (while st0) ∧ cond (while st0) = false.
Proof.
  eapply loop_result_reachable; [apply reach_start | apply while_loop_result].
Qed.

(** Invariants: what holds at the start and is kept by every iteration
    holds whenever the loop condition is evaluated. *)
Lemma reachable_invariant (P : state → Prop) st0 :
  P st0 →
  (∀ st st', P st → cond st = true → iteration st st' → P st') →
  ∀ st, reach st0 st → P st.
Proof.
  intros H0 Hstep st Hreach. induction Hreach as [|st _ IH Hc]; [done|].
  eapply Hstep; [done..|]. apply loop_body_iteration.
  by apply cond_true in Hc as [? _].
Qed.
End LoopFacts.

(** ** Crawler: page budget and same-domain restriction *)

Section CrawlFacts.
Import Json Crawler.
Variable netloc : string → string.
Variable fetch : string → outcome document.

Lemma pages_within_budget N sd base st0 st :
  0 ≤ N → pages st0 = [] →
  reachable netloc fetch N sd base st0 st →
  Z.of_nat (length (pages st)) ≤ N.
Proof.
  intros HN Hinit Hreach.
  eapply (reachable_invariant _ _ _ _ _ (λ s, Z.of_nat (length (pages s)) ≤ N));
    [| |exact Hreach]; cbn beta.
  - rewrite Hinit. cbn. lia.
  - intros st1 st2 Hle [_ Hlt]%cond_true Hiter.
    destruct Hiter; cbn [pages]; rewrite ?length_app; cbn [length]; lia.
Qed.

(** C7, for a budget that is not negative.  Whenever the loop condition
    is evaluated [len(pages) <= N] holds; the loop exits, in a state with
    at most [N] pages; and it stops exactly in the states whose frontier is
    empty or whose page count is [N]. *)
Theorem page_budget (seed : string) (N : Z) (sd : bool) :
  0 ≤ N →
  let base := netloc (normalize seed) in
  let st0 := initial_state (normalize seed) in
  let r := crawl netloc fetch seed N sd in
  (∀ st, reachable netloc fetch N sd base st0 st →
     Z.of_nat (length (pages st)) ≤ N
     ∧ (loop_cond N st = false ↔
        to_visit st = [] ∨ Z.of_nat (length (pages st)) = N))
  ∧ reachable netloc fetch N sd base st0 r
  ∧ loop_result netloc fetch N sd base st0 r
  ∧ loop_cond N r = false
  ∧ Z.of_nat (length (pages r)) ≤ N
  ∧ (to_visit r = [] ∨ Z.of_nat (length (pages r)) = N).
Proof.
  intros HN base st0 r.
  assert (Hinv : ∀ st, reachable netloc fetch N sd base st0 st →
     Z.of_nat (length (pages st)) ≤ N
     ∧ (loop_cond N st = false ↔
        to_visit st = [] ∨ Z.of_nat (length (pages st)) = N)).
  { intros st Hreach.
    pose proof (pages_within_budget N sd base st0 st HN eq_refl Hreach) as Hle.
    split; [done|]. rewrite cond_false. split; intros [?|?]; auto; right; lia. }
  destruct (while_loop_reachable netloc fetch N sd base st0) as [Hreach Hstop].
  destruct (Hinv r Hreach) as [Hle Hiff].
  split; [exact Hinv|]. split; [exact Hreach|].
  split; [apply while_loop_result|]. split; [exact Hstop|].
  split; [exact Hle|]. apply Hiff, Hstop.
Qed.

(** With the restriction on, every URL of the frontier and of every page
    has the host of the seed. *)
Lemma same_domain_invariant N base st0 st :
  (∀ u, u ∈ to_visit st0 → netloc u = base) → pages st0 = [] →
  reachable netloc fetch N true base st0 st →
  (∀ u, u ∈ to_visit st → netloc u = base)
  ∧ (∀ p, p ∈ pages st → netloc (url p) = base).
Proof.
  intros Hfront Hpages Hreach.
  eapply (reachable_invariant _ _ _ _ _
            (λ s, (∀ u, u ∈ to_visit s → netloc u = base)
                  ∧ (∀ p, p ∈ pages s → netloc (url p) = base)));
    [| |exact Hreach]; cbn beta.
  - split; [done|]. rewrite Hpages. by intros p ?%not_elem_of_nil.
  - intros st1 st2 [Htv Hpg] _ Hiter.
    destruct Hiter as [u rest Heq _|u rest e Heq _ _|u rest doc added Heq _ _ Hadded];
      cbn [to_visit pages]; rewrite Heq in Htv.
    + split; [|done]. intros v Hv. apply Htv. by right.
    + split; [|done]. intros v Hv. apply Htv. by right.
    + split.
      * intros v [Hv|Hv]%elem_of_app; [apply Htv; by right|].
        rewrite Forall_forall in Hadded. by apply (Hadded v Hv).
      * intros p [Hp|Hp]%elem_of_app; [by apply Hpg|].
        apply list_elem_of_singleton in Hp as ->. cbn. apply Htv. left.
Qed.

(** C8. With [same_domain] on, the URL of every returned page has exactly
    the host of the normalised seed URL.  The same holds for every URL in
    the frontier at every step; the [for] loop only appends links of that
    host; and the seed, the one URL that is not filtered, has it by
    definition of [base_domain]. *)
Theorem same_domain_pages (seed : string) (N : Z) (p : page) :
  p ∈ pages (crawl netloc fetch seed N true) →
  let base := netloc (normalize seed) in
  netloc (url p) = base
  ∧ (∀ st u, reachable netloc fetch N true base (initial_state (normalize seed)) st →
             u ∈ to_visit st → netloc u = base)
  ∧ (∀ visited tv links u,
       u ∈ enqueue_links netloc true base visited tv links → u ∉ tv →
       netloc u = base)
  ∧ to_visit (initial_state (normalize seed)) = [normalize seed].
Proof.
  intros Hp base.
  assert (Hinv : ∀ st,
    reachable netloc fetch N true base (initial_state (normalize seed)) st →
    (∀ u, u ∈ to_visit st → netloc u = base)
    ∧ (∀ q, q ∈ pages st → netloc (url q) = base)).
  { intros st. apply same_domain_invariant; [|done].
    by intros u ->%list_elem_of_singleton. }
  split; [|split; [|split; [|done]]].
  - eapply Hinv; [|exact Hp]. apply while_loop_reachable.
  - intros st u Hreach. by apply Hinv.
  - intros visited tv links u Hin Hnew.
    destruct (enqueue_links_appends netloc true base visited tv links)
      as (added & Heq & Hadded).
    rewrite Heq in Hin. apply elem_of_app in Hin as [?|Hin]; [done|].
    rewrite Forall_forall in Hadded. by apply (Hadded u Hin).
Qed.
End CrawlFacts.

Lemma page_budget_witness :
  0 ≤ 2
  ∧ Z.of_nat (length (Crawler.pages
       (Crawler.crawl Crawler.example_netloc Crawler.example_web "a.example/" 2 true))) ≤ 2.
Proof.
  assert (H : 0 ≤ 2) by lia.
  split; [exact H|].
  exact (proj1 (proj2 (proj2 (proj2 (proj2
    (page_budget Crawler.example_netloc Crawler.example_web "a.example/" 2 true H)))))).
Defined.

(** C7 as stated fails for a negative budget: with [max_pages = -1] the
    loop body never runs, the result has no page, which is more than [-1],
    and the loop has stopped with the seed still in the frontier. *)
Lemma negative_budget_counterexample :
  let r := Crawler.crawl Crawler.example_netloc Crawler.example_web "a.example/" (-1) true in
  Crawler.pages r = []
  ∧ ¬ (Z.of_nat (length (Crawler.pages r)) ≤ -1)
  ∧ Crawler.loop_cond (-1) r = false
  ∧ Crawler.to_visit r = ["https://a.example/"]
  ∧ Z.of_nat (length (Crawler.pages r)) ≠ -1.
Proof.
  assert (Hr : Crawler.crawl Crawler.example_netloc Crawler.example_web "a.example/" (-1) true
               = Crawler.initial_state "https://a.example/") by reflexivity.
  cbv zeta. rewrite Hr. cbn. repeat split; try done; lia.
Qed.

Lemma same_domain_pages_witness :
  let p := Crawler.mk_page "https://a.example/c" "C" "page c" in
  p ∈ Crawler.pages
        (Crawler.crawl Crawler.example_netloc Crawler.example_web "a.example/" 10 true)
  ∧ Crawler.example_netloc (Crawler.url p) = "a.example".
Proof.
  intros p.
  assert (Hp : p ∈ Crawler.pages
        (Crawler.crawl Crawler.example_netloc Crawler.example_web "a.example/" 10 true)).
  { assert (Crawler.pages
        (Crawler.crawl Crawler.example_netloc Crawler.example_web "a.example/" 10 true)
      = [Crawler.mk_page "https://a.example/" "A" "page a"; p;
         Crawler.mk_page "https://a.example/e" "E" "page e"]) as ->
      by (vm_compute; reflexivity).
    apply list_elem_of_further, list_elem_of_here. }
  split; [exact Hp|].
  exact (proj1 (same_domain_pages Crawler.example_netloc Crawler.example_web
                  "a.example/" 10 p Hp)).
Defined.

(** ** Crawler: the link filter *)

Section FilterFacts.
Import Crawler.

Lemma append_cons (c : ascii) (s t : string) :
  String c s +:+ t = String c (s +:+ t).
Proof. reflexivity. Qed.

Lemma append_nil_r (t : string) : t +:+ "" = t.
Proof. induction t as [|d t IH]; [done|]. by rewrite append_cons, IH. Qed.

Lemma prefix_refl (t : string) : String.prefix t t = true.
Proof.
  induction t as [|d t IH]; [done|]. cbn. by destruct (ascii_dec d d).
Qed.

Lemma prefix_spec (p s : string) :
  String.prefix p s = true ↔ ∃ b, s = p +:+ b.
Proof.
  revert s. induction p as [|c p IH]; intros s.
  - split; [intros _; by exists s | by destruct s].
  - destruct s as [|d s]; cbn [String.prefix].
    + split; [done|]. intros [b Hb]. by rewrite append_cons in Hb.
    + destruct (ascii_dec c d) as [->|Hne].
      * rewrite IH. split; intros [b Hb]; exists b; rewrite append_cons in *;
          congruence.
      * split; [done|]. intros [b Hb]. rewrite append_cons in Hb. congruence.
Qed.

Lemma contains_unfold (p s : string) :
  Py.contains p s =
    String.prefix p s
    || match s with EmptyString => false | String _ s' => Py.contains p s' end.
Proof. by destruct s. Qed.

(** [p in s] holds exactly when [s] is [a + p + b] for some [a] and [b]. *)
Lemma contains_spec (p s : string) :
  Py.contains p s = true ↔ ∃ a b, s = a +:+ p +:+ b.
Proof.
  induction s as [|c s IH]; rewrite contains_unfold, orb_true_iff, prefix_spec.
  - split.
    + intros [[b Hb]|?]; [|done]. by exists "", b.
    + intros (a & b & Hab). left. destruct a as [|d a]; [by exists b|].
      by rewrite append_cons in Hab.
  - rewrite IH. split.
    + intros [[b Hb]|(a & b & Hab)]; [by exists "", b|].
      exists (String c a), b. by rewrite append_cons, Hab.
    + intros (a & b & Hab). destruct a as [|d a]; [left; by exists b|].
      right. exists a, b. rewrite append_cons in Hab. congruence.
Qed.

Lemma prefix_contains (p s : string) :
  String.prefix p s = true → Py.contains p s = true.
Proof. intros H. by rewrite contains_unfold, H. Qed.

Lemma endswith_contains (s suffix : string) :
  endswith s suffix = true → Py.contains suffix s = true.
Proof.
  induction s as [|c s IH]; cbn [endswith]; rewrite orb_true_iff.
  - intros [<-%String.eqb_eq|?]; [|done]. apply prefix_contains, prefix_refl.
  - intros [<-%String.eqb_eq|H].
    + apply prefix_contains, prefix_refl.
    + rewrite contains_unfold, (IH H). apply orb_true_r.
Qed.

Lemma skip_url_spec (u : string) :
  skip_url u = true ↔
  ∃ p a b, p ∈ skip_patterns ∧ Py.lower u = a +:+ p +:+ b.
Proof.
  unfold skip_url, Py.any. rewrite existsb_exists. split.
  - intros (p & Hp & (a & b & Hab)%contains_spec).
    exists p, a, b. split; [by apply list_elem_of_In | done].
  - intros (p & a & b & Hp & Hab). exists p. split; [by apply list_elem_of_In|].
    apply contains_spec. eauto.
Qed.

Lemma skip_url_pattern (p u : string) :
  p ∈ skip_patterns → Py.contains p (Py.lower u) = true → skip_url u = true.
Proof.
  intros Hp (a & b & Hab)%contains_spec. apply skip_url_spec. eauto.
Qed.

(** Every link that the spec's sentence describes matches a pattern. *)
Lemma spec_non_content_skipped (u : string) :
  spec_non_content u = true → skip_url u = true.
Proof.
  unfold spec_non_content, Py.startswith, Py.any. cbn [existsb].
  rewrite !orb_true_iff.
  intros [[[H|H]|H]|[H|[H|[H|[H|[H|[H|H]]]]]]]; try done.
  1: apply (skip_url_pattern "#"); [set_solver | done].
  1: apply (skip_url_pattern "mailto:"); [set_solver | by apply prefix_contains].
  1: apply (skip_url_pattern "tel:"); [set_solver | by apply prefix_contains].
  1: apply (skip_url_pattern ".pdf"); [set_solver | by apply endswith_contains].
  1: apply (skip_url_pattern ".jpg"); [set_solver | by apply endswith_contains].
  1: apply (skip_url_pattern ".png"); [set_solver | by apply endswith_contains].
  1: apply (skip_url_pattern ".gif"); [set_solver | by apply endswith_contains].
  1: apply (skip_url_pattern ".css"); [set_solver | by apply endswith_contains].
  apply (skip_url_pattern ".js"); [set_solver | by apply endswith_contains].
Qed.

Variable netloc : string → string.
Variable fetch : string → outcome document.

(** A URL that matches a pattern is in the frontier after an iteration
    only if it was there before. *)
Lemma loop_body_keeps_out sd base st (u : string) :
  skip_url u = true →
  u ∈ to_visit (loop_body netloc fetch sd base st) → u ∈ to_visit st.
Proof.
  intros Hskip Hin.
  destruct (decide (to_visit st = [])) as [Hnil|Hne].
  { unfold loop_body in Hin. by rewrite Hnil in Hin. }
  destruct (loop_body_iteration netloc fetch sd base st Hne)
    as [v rest Heq _|v rest e Heq _ _|v rest doc added Heq _ _ Hadded];
    cbn [to_visit] in Hin; rewrite Heq.
  - by right.
  - by right.
  - apply elem_of_app in Hin as [?|Hin]; [by right|].
    rewrite Forall_forall in Hadded.
    destruct (Hadded u Hin) as (_ & _ & Hno & _). congruence.
Qed.

Lemma frontier_invariant N sd base (seed : string) st :
  reachable netloc fetch N sd base (initial_state seed) st →
  ∀ u, u ∈ to_visit st → u = seed ∨ skip_url u = false.
Proof.
  intros Hreach. induction Hreach as [|st _ IH _]; intros u Hin.
  - left. by apply list_elem_of_singleton in Hin.
  - destruct (skip_url u) eqn:Hskip; [|by right].
    destruct (IH u) as [?|?]; [by eapply loop_body_keeps_out | by left | congruence].
Qed.

(** C9, with the seed set apart.  At every step of the traversal, a URL
    in the frontier other than the seed URL matches no skip pattern, so it
    is not a fragment target, not a [mailto:] or [tel:] link and has none of
    the listed suffixes. *)
Theorem frontier_links_are_content (seed : string) (N : Z) (sd : bool)
    (st : state) (u : string) :
  reachable netloc fetch N sd (netloc (normalize seed))
    (initial_state (normalize seed)) st →
  u ∈ to_visit st → u ≠ normalize seed →
  skip_url u = false ∧ spec_non_content u = false.
Proof.
  intros Hreach Hin Hne.
  destruct (frontier_invariant _ _ _ _ _ Hreach u Hin) as [?|Hskip]; [done|].
  split; [done|]. destruct (spec_non_content u) eqn:Hspec; [|done].
  apply spec_non_content_skipped in Hspec. congruence.
Qed.

(** C10. The filter is a case-insensitive substring test on the whole
    absolute URL: [skip_url] holds exactly when the lower-cased URL is
    [a + p + b] for a pattern [p].  A link for which it holds is not appended
    by the [for] loop, whatever the other filters say, and no iteration of
    the crawl adds it to the frontier.  A page with a fragment and a
    [.json] URL are skipped that way, and so is an upper-case [.PDF]
    followed by a query. *)
Theorem skip_patterns_match_substrings (u : string) :
  (skip_url u = true ↔
     ∃ p a b, p ∈ skip_patterns ∧ Py.lower u = a +:+ p +:+ b)
  ∧ (skip_url u = true →
       (∀ sd base visited tv links,
          u ∈ enqueue_links netloc sd base visited tv links → u ∈ tv)
       ∧ (∀ sd base st,
            u ∈ to_visit (loop_body netloc fetch sd base st) → u ∈ to_visit st))
  ∧ skip_url "https://example.com/page#intro" = true
  ∧ skip_url "https://example.com/data.json" = true
  ∧ skip_url "https://example.com/Report.PDF?download=1" = true
  ∧ skip_url "https://example.com/page" = false.
Proof.
  split; [apply skip_url_spec|]. split; [|by vm_compute].
  intros Hskip. split.
  - intros sd base visited tv links Hin.
    destruct (enqueue_links_appends netloc sd base visited tv links)
      as (added & Heq & Hadded).
    rewrite Heq in Hin. apply elem_of_app in Hin as [?|Hin]; [done|].
    rewrite Forall_forall in Hadded.
    destruct (Hadded u Hin) as (_ & _ & Hno & _). congruence.
  - intros sd base st. by apply loop_body_keeps_out.
Qed.
End FilterFacts.

Lemma frontier_links_are_content_witness :
  let st0 := Crawler.initial_state (Crawler.normalize "a.example/") in
  let st1 := Crawler.loop_body Crawler.example_netloc Crawler.example_web true
               (Crawler.example_netloc (Crawler.normalize "a.example/")) st0 in
  Crawler.reachable Crawler.example_netloc Crawler.example_web 10 true
    (Crawler.example_netloc (Crawler.normalize "a.example/")) st0 st1
  ∧ "https://a.example/c" ∈ Crawler.to_visit st1
  ∧ "https://a.example/c" ≠ Crawler.normalize "a.example/"
  ∧ Crawler.skip_url "https://a.example/c" = false
  ∧ Crawler.spec_non_content "https://a.example/c" = false.
Proof.
  intros st0 st1.
  assert (Hreach : Crawler.reachable Crawler.example_netloc Crawler.example_web 10 true
    (Crawler.example_netloc (Crawler.normalize "a.example/")) st0 st1).
  { apply Crawler.reach_iter; [apply Crawler.reach_start | reflexivity]. }
  assert (Hin : "https://a.example/c" ∈ Crawler.to_visit st1).
  { assert (Crawler.to_visit st1 = ["https://a.example/b"; "https://a.example/c"]) as ->
      by (vm_compute; reflexivity).
    apply list_elem_of_further, list_elem_of_here. }
  assert (Hne : "https://a.example/c" ≠ Crawler.normalize "a.example/")
    by (vm_compute; discriminate).
  split; [exact Hreach|]. split; [exact Hin|]. split; [exact Hne|].
  exact (frontier_links_are_content Crawler.example_netloc Crawler.example_web
           "a.example/" 10 true st1 "https://a.example/c" Hreach Hin Hne).
Defined.

(** C9 as stated fails for the seed: it is put in the frontier as it is.
    Started on a PDF, the crawl has that URL in the frontier at its first step,
    fetches it and returns it as a page. *)
Lemma pdf_seed_counterexample :
  let seed := "https://a.example/report.pdf" in
  let st0 := Crawler.initial_state (Crawler.normalize seed) in
  Crawler.reachable Crawler.example_netloc Crawler.example_web 10 true
    (Crawler.example_netloc (Crawler.normalize seed)) st0 st0
  ∧ seed ∈ Crawler.to_visit st0
  ∧ Crawler.endswith seed ".pdf" = true
  ∧ Crawler.spec_non_content seed = true
  ∧ map Crawler.url
      (Crawler.pages (Crawler.crawl Crawler.example_netloc Crawler.example_web seed 10 true))
    = [seed].
Proof.
  cbv zeta. split; [apply Crawler.reach_start|]. split; [apply list_elem_of_here|].
  split; [reflexivity|]. split; [reflexivity|]. vm_compute. reflexivity.
Qed.

(** ** Crawler: fetch failures *)

Section FailureFacts.
Import Json Crawler.
Variable netloc : string → string.
Variable fetch : string → outcome document.
Variable urlparse_error : string → option string.
Variable new_client : outcome unit.

(** Only fetched documents become pages. *)
Lemma pages_were_fetched N sd base st0 st :
  pages st0 = [] →
  reachable netloc fetch N sd base st0 st →
  ∀ p, p ∈ pages st → ∃ doc, fetch (url p) = Return doc.
Proof.
  intros Hinit Hreach.
  eapply (reachable_invariant _ _ _ _ _
            (λ s, ∀ p, p ∈ pages s → ∃ doc, fetch (url p) = Return doc));
    [| |exact Hreach]; cbn beta.
  - rewrite Hinit. by intros p ?%not_elem_of_nil.
  - intros st1 st2 Hpg _ Hiter.
    destruct Hiter as [u rest _ _|u rest e _ _ _|u rest doc added _ _ Hdoc _];
      cbn [pages]; [done..|].
    intros p [Hp|Hp]%elem_of_app; [by apply Hpg|].
    apply list_elem_of_singleton in Hp as ->. cbn. eauto.
Qed.

(** The iteration that takes a URL whose fetch raises off the frontier. *)
Lemma loop_body_failed sd base st (u : string) rest e :
  to_visit st = u :: rest → fetch u = Raise e →
  loop_body netloc fetch sd base st =
    mk_state (if bool_decide (u ∈ visited st) then visited st
              else {[u]} ∪ visited st)
             rest (pages st).
Proof.
  intros Htv Hfetch. unfold loop_body. rewrite Htv.
  case_bool_decide; [done|]. by rewrite Hfetch.
Qed.

(** C2, for every page, the seed included.  A URL whose fetch raises is
    not among the returned pages; the iteration that takes it off the
    frontier leaves [pages] as it was and appends nothing to the frontier,
    and the loop goes on from there with the rest of the frontier.  When it
    is the seed that fails, the crawl ends with no page.  No fetch failure
    reaches the outer handler: the response is the success envelope
    whenever the seed URL could be parsed and the HTTP client could be
    created, and the error envelope exactly when one of these two, which
    stand outside the per-page [try], raised. *)
Theorem failed_fetch_is_skipped (seed : string) (N : Z) (sd : bool)
    (u : string) (e : string) :
  fetch u = Raise e →
  let base := netloc (normalize seed) in
  (∀ p, p ∈ pages (crawl netloc fetch seed N sd) → url p ≠ u)
  ∧ (∀ st rest,
       to_visit st = u :: rest →
       let st' := mk_state (if bool_decide (u ∈ visited st) then visited st
                            else {[u]} ∪ visited st)
                           rest (pages st) in
       loop_body netloc fetch sd base st = st'
       ∧ (loop_cond N st = true →
          while_loop netloc fetch N sd base st
          = while_loop netloc fetch N sd base st'))
  ∧ (u = normalize seed → pages (crawl netloc fetch seed N sd) = [])
  ∧ (urlparse_error (normalize seed) = None → new_client = Return () →
     crawl_website netloc fetch urlparse_error new_client seed N sd
     = dumps (Some 2%nat) false
         (JDict [("status", JStr "success");
                 ("start_url", JStr (normalize seed));
                 ("pages_crawled",
                  JInt (Z.of_nat (length (pages (crawl netloc fetch seed N sd)))));
                 ("pages",
                  JList (map json_of_page (pages (crawl netloc fetch seed N sd))))]))
  ∧ (∀ msg,
       urlparse_error (normalize seed) = Some msg
       ∨ (urlparse_error (normalize seed) = None ∧ new_client = Raise msg) →
       crawl_website netloc fetch urlparse_error new_client seed N sd
       = dumps (Some 2%nat) false
           (JDict [("status", JStr "error"); ("url", JStr (normalize seed));
                   ("message", JStr ("Crawl failed: " +:+ msg))])).
Proof.
  intros Hfetch base.
  assert (Hstep : ∀ st rest,
       to_visit st = u :: rest →
       let st' := mk_state (if bool_decide (u ∈ visited st) then visited st
                            else {[u]} ∪ visited st)
                           rest (pages st) in
       loop_body netloc fetch sd base st = st'
       ∧ (loop_cond N st = true →
          while_loop netloc fetch N sd base st
          = while_loop netloc fetch N sd base st')).
  { intros st rest Htv st'.
    pose proof (loop_body_failed sd base st u rest e Htv Hfetch) as Hbody.
    split; [done|]. intros Hcond.
    by rewrite (while_loop_unfold netloc fetch N sd base st), Hcond, Hbody. }
  split; [|split; [exact Hstep|split; [|split]]].
  - intros p Hp Hu.
    destruct (pages_were_fetched N sd base (initial_state (normalize seed))
                (crawl netloc fetch seed N sd) eq_refl
                (proj1 (while_loop_reachable _ _ _ _ _ _)) p Hp) as [doc Hdoc].
    congruence.
  - intros ->. unfold crawl. fold base.
    rewrite while_loop_unfold.
    destruct (loop_cond N (initial_state (normalize seed))) eqn:Hcond; [|done].
    destruct (Hstep (initial_state (normalize seed)) [] eq_refl) as [-> _].
    by rewrite while_loop_unfold.
  - intros Hparse Hclient. unfold crawl_website, _crawl_website_impl.
    by rewrite Hparse, Hclient.
  - intros msg [Hparse|[Hparse Hclient]]; unfold crawl_website, _crawl_website_impl.
    + by rewrite Hparse.
    + by rewrite Hparse, Hclient.
Qed.
End FailureFacts.

Lemma failed_fetch_is_skipped_witness :
  Crawler.example_web "https://a.example/b" = Raise "ConnectError"
  ∧ ∀ p, p ∈ Crawler.pages
             (Crawler.crawl Crawler.example_netloc Crawler.example_web "a.example/" 10 true) →
         Crawler.url p ≠ "https://a.example/b".
Proof.
  assert (H : Crawler.example_web "https://a.example/b" = Raise "ConnectError")
    by reflexivity.
  split; [exact H|].
  exact (proj1 (failed_fetch_is_skipped Crawler.example_netloc Crawler.example_web
                  Crawler.example_urlparse_error (Return ())
                  "a.example/" 10 true "https://a.example/b" "ConnectError" H)).
Defined.

(** C2 as stated fails for the seed: its request is made inside the same
    [try] as every other page's.  When the seed cannot be fetched,
    [crawl_website] returns the success envelope with no page, not an
    error. *)
Lemma seed_failure_counterexample :
  Crawler.example_web (Crawler.normalize "a.example/b") = Raise "ConnectError"
  ∧ Crawler.crawl_website Crawler.example_netloc Crawler.example_web
      Crawler.example_urlparse_error (Return ()) "a.example/b" 10 true
    = Json.dq "{
  'status': 'success',
  'start_url': 'https://a.example/b',
  'pages_crawled': 0,
  'pages': []
}".
Proof. split; [reflexivity | vm_compute; reflexivity]. Qed.

(** * Further properties *)

(** ** Result cache: invariants and composition *)

Section CacheMore.
Context {V : Type}.
Implicit Types (c : SimpleCache.t V) (k : string) (v : V) (now : Z).
Import SimpleCache.

Lemma perform_keeps_domains c now (cl : call) :
  dom (_cache c) = dom (_timestamps c) →
  dom (_cache (perform c now cl).1) = dom (_timestamps (perform c now cl).1)
  ∧ ∃ o, (perform c now cl).2 = Return o.
Proof.
  intros Hdom. destruct cl as [k|k v ttl|]; cbn.
  - unfold get. destruct (_cache c !! k) as [v|] eqn:Hc; [|eauto].
    assert (is_Some (_timestamps c !! k)) as [t0 Ht].
    { apply elem_of_dom. rewrite <-Hdom. apply elem_of_dom. eauto. }
    rewrite Ht. case_bool_decide; cbn; [eauto|].
    split; [|eauto]. by rewrite !dom_delete_L, Hdom.
  - split; [|eauto]. by rewrite !dom_insert_L, Hdom.
  - split; [|eauto]. by rewrite !dom_empty_L.
Qed.

(** X1. The two dicts of the cache always have the same keys, so the
    [self._timestamps[key]] of [get] never raises [KeyError]: from a cache
    whose dicts agree on their keys (a new one does), every call of every
    sequence of [get], [set] and [clear] returns, and the dicts still
    agree afterwards. *)
Theorem cache_calls_never_raise c (calls : list (Z * call)) :
  dom (_cache c) = dom (_timestamps c) →
  dom (_cache (run c calls).1) = dom (_timestamps (run c calls).1)
  ∧ Forall (λ r, ∃ o, r = Return o) (run c calls).2.
Proof.
  revert c. induction calls as [|[now cl] calls IH]; intros c Hdom; [by split|].
  cbn [run]. destruct (perform_keeps_domains c now cl Hdom) as [Hdom' [o Ho]].
  destruct (perform c now cl) as [c' r]. cbn in Hdom', Ho. subst r.
  destruct (IH c' Hdom') as [Hdom'' Hall].
  destruct (run c' calls) as [c'' rs]. cbn in *. split; [done|].
  constructor; eauto.
Qed.

Lemma get_result_local (c1 c2 : t V) now k :
  _cache c1 !! k = _cache c2 !! k →
  _timestamps c1 !! k = _timestamps c2 !! k →
  default_ttl c1 = default_ttl c2 →
  (get c1 now k).2 = (get c2 now k).2.
Proof.
  intros Hc Ht Hd. unfold get. rewrite Hc, Ht, Hd.
  destruct (_cache c2 !! k); [|done]. destruct (_timestamps c2 !! k); [|done].
  by case_bool_decide.
Qed.

Lemma get_state_other c now k k' :
  k ≠ k' →
  _cache (get c now k).1 !! k' = _cache c !! k'
  ∧ _timestamps (get c now k).1 !! k' = _timestamps c !! k'
  ∧ default_ttl (get c now k).1 = default_ttl c.
Proof.
  intros Hne. unfold get. destruct (_cache c !! k); [|done].
  destruct (_timestamps c !! k); [|done].
  case_bool_decide; cbn; [done|]. by rewrite !lookup_delete_ne.
Qed.

(** X2. Keys do not interfere: what [get(k')] returns is the same before
    and after a [set] or a [get] on a different key [k], whether or not that
    [get] expired and deleted the entry of [k]. *)
Theorem other_keys_are_unaffected c (t1 now1 now : Z) k k' v (ttl : option Z) :
  k ≠ k' →
  (get (set c t1 k v ttl) now k').2 = (get c now k').2
  ∧ (get (get c now1 k).1 now k').2 = (get c now k').2.
Proof.
  intros Hne. split.
  - apply get_result_local; cbn; [by rewrite lookup_insert_ne..|done].
  - destruct (get_state_other c now1 k k' Hne) as (Hc & Ht & Hd).
    by apply get_result_local.
Qed.

(** X3. Reading does not extend the life of an entry.  A hit returns the
    value and leaves the cache exactly as it was, timestamp included, so an
    entry that was read just before its expiry is still a miss once
    [now - t0 >= ttl]. *)
Theorem hit_does_not_refresh c (t0 now1 now2 : Z) k v :
  _cache c !! k = Some v → _timestamps c !! k = Some t0 →
  now1 - t0 < default_ttl c → default_ttl c ≤ now2 - t0 →
  get c now1 k = (c, Return (Some v))
  ∧ (get (get c now1 k).1 now2 k).2 = Return None.
Proof.
  intros Hc Ht Hlt Hge.
  assert (Hhit : get c now1 k = (c, Return (Some v))).
  { rewrite (get_stored c now1 t0 k v Hc Ht). by rewrite bool_decide_eq_true_2. }
  split; [done|]. rewrite Hhit. cbn [fst].
  rewrite (get_stored c now2 t0 k v Hc Ht). rewrite bool_decide_eq_false_2 by lia.
  done.
Qed.

(** X4. After [clear] nothing is found: whatever was stored, every lookup
    of every key at every time returns [None] and leaves the cache empty. *)
Theorem clear_forgets_everything c (lookups : list (Z * string)) :
  run (clear c) (map (λ nk, (nk.1, CallGet nk.2)) lookups)
  = (clear c, map (λ _, Return None) lookups).
Proof.
  induction lookups as [|[now k] lookups IH]; [done|].
  cbn [map run perform fst snd]. unfold get at 1. cbn [_cache clear].
  rewrite lookup_empty. by rewrite IH.
Qed.

(** X5. A cache with a TTL that is not positive never returns anything:
    unless the clock went backwards, a value is already expired at the
    first lookup after it was stored, and that lookup deletes it. *)
Theorem nonpositive_ttl_stores_nothing c (t0 now : Z) k v (ttl : option Z) :
  default_ttl c ≤ 0 → t0 ≤ now →
  (get (set c t0 k v ttl) now k).2 = Return None
  ∧ _cache (get (set c t0 k v ttl) now k).1 !! k = None.
Proof.
  intros Httl Hclock.
  destruct (set_lookup c t0 k v ttl) as (Hv & Ht & Hd).
  rewrite (get_stored _ now t0 k v Hv Ht), Hd.
  rewrite bool_decide_eq_false_2 by lia. cbn. by rewrite lookup_delete_eq.
Qed.
End CacheMore.

Lemma cache_calls_never_raise_witness :
  let calls := [(0, SimpleCache.CallSet "k" "v" None); (400, SimpleCache.CallGet "k");
                (401, SimpleCache.CallClear); (402, SimpleCache.CallGet "k")] in
  dom (SimpleCache._cache (@cache string)) = dom (SimpleCache._timestamps (@cache string))
  ∧ Forall (λ r, ∃ o, r = Return o) (SimpleCache.run (@cache string) calls).2.
Proof.
  intros calls.
  assert (H : dom (SimpleCache._cache (@cache string))
              = dom (SimpleCache._timestamps (@cache string))).
  { cbn. by rewrite !dom_empty_L. }
  split; [exact H|].
  exact (proj2 (cache_calls_never_raise cache calls H)).
Defined.

Lemma other_keys_are_unaffected_witness :
  "a" ≠ "b"
  ∧ (SimpleCache.get (SimpleCache.set (@cache string) 5 "a" "x" None) 7 "b").2
    = (SimpleCache.get (@cache string) 7 "b").2.
Proof.
  assert (H : "a" ≠ "b") by discriminate.
  split; [exact H|].
  exact (proj1 (other_keys_are_unaffected cache 5 0 7 "a" "b" "x" None H)).
Defined.

Lemma hit_does_not_refresh_witness :
  let c : SimpleCache.t string := SimpleCache.set cache 0 "k" "v" None in
  SimpleCache._cache c !! "k" = Some "v"
  ∧ SimpleCache._timestamps c !! "k" = Some 0
  ∧ 299 - 0 < SimpleCache.default_ttl c ∧ SimpleCache.default_ttl c ≤ 300 - 0
  ∧ (SimpleCache.get (SimpleCache.get c 299 "k").1 300 "k").2 = Return None.
Proof.
  intros c.
  assert (Hc : SimpleCache._cache c !! "k" = Some "v") by reflexivity.
  assert (Ht : SimpleCache._timestamps c !! "k" = Some 0) by reflexivity.
  assert (H1 : 299 - 0 < SimpleCache.default_ttl c) by (cbn; lia).
  assert (H2 : SimpleCache.default_ttl c ≤ 300 - 0) by (cbn; lia).
  split; [exact Hc|]. split; [exact Ht|]. split; [exact H1|]. split; [exact H2|].
  exact (proj2 (hit_does_not_refresh c 0 299 300 "k" "v" Hc Ht H1 H2)).
Defined.

Lemma nonpositive_ttl_stores_nothing_witness :
  let c : SimpleCache.t string := SimpleCache.__init__ 0 in
  SimpleCache.default_ttl c ≤ 0 ∧ 10 ≤ 10
  ∧ (SimpleCache.get (SimpleCache.set c 10 "k" "v" None) 10 "k").2 = Return None.
Proof.
  intros c.
  assert (H1 : SimpleCache.default_ttl c ≤ 0) by (cbn; lia).
  assert (H2 : 10 ≤ 10) by lia.
  split; [exact H1|]. split; [exact H2|].
  exact (proj1 (nonpositive_ttl_stores_nothing c 10 10 "k" "v" None H1 H2)).
Defined.

(** ** Cache keys: shape *)

Section KeyShape.
Import Json Md5.

Lemma le_bytes_length (k : nat) (n : Z) : length (le_bytes k n) = k.
Proof. revert n. induction k as [|k IH]; intros n; cbn; [done|]. by rewrite IH. Qed.

Lemma le_bytes_range (k : nat) (n : Z) :
  Forall (λ b, 0 ≤ b < 256) (le_bytes k n).
Proof.
  revert n. induction k as [|k IH]; intros n; cbn; [constructor|].
  constructor; [|apply IH].
  change 255 with (Z.ones 8). rewrite Z.land_ones by lia.
  apply Z.mod_pos_bound. lia.
Qed.

Lemma digest_shape (msg : list Z) :
  length (digest msg) = 16%nat ∧ Forall (λ b, 0 ≤ b < 256) (digest msg).
Proof.
  unfold digest.
  destruct (foldl process_block init _) as [[[a b] c] d].
  split.
  - rewrite !length_app, !le_bytes_length. done.
  - rewrite !Forall_app. repeat split; apply le_bytes_range.
Qed.

Lemma hex_digit_is_hex (n : N) :
  (n < 16)%N → In (hex_digit n) (String.list_ascii_of_string "0123456789abcdef").
Proof.
  intros Hlt. destruct n as [|p]; [cbn; tauto|].
  do 4 (try destruct p as [p|p|]); try lia; cbn; tauto.
Qed.

Lemma hex_of_bytes_shape (bs : list Z) :
  Forall (λ b, 0 ≤ b < 256) bs →
  let s := foldr (λ b acc, hex_of_byte b +:+ acc) "" bs in
  String.length s = (2 * length bs)%nat
  ∧ Forall (λ c, In c (String.list_ascii_of_string "0123456789abcdef"))
      (String.list_ascii_of_string s).
Proof.
  induction 1 as [|b bs Hb _ IH]; cbn zeta in *; [by split|].
  destruct IH as [Hlen Hhex]. cbn [foldr length]. unfold hex_of_byte at 1.
  rewrite !append_cons. cbn [String.length String.list_ascii_of_string].
  change ("" +:+ ?t) with t. split; [lia|].
  apply Forall_cons; split; [apply hex_digit_is_hex|
    apply Forall_cons; split; [apply hex_digit_is_hex|done]].
  - apply N2Z.inj_lt. rewrite Z2N.id by (apply Z.div_pos; lia).
    apply Z.div_lt_upper_bound; lia.
  - apply N2Z.inj_lt. rewrite Z2N.id by (apply Z.mod_pos_bound; lia).
    apply Z.mod_pos_bound. lia.
Qed.

Lemma tool_arguments_short (tool url : string) (n : Z) :
  has_long_int (PList [PList [PStr tool; PStr url; PInt n]; PDict []])
  = exceeds_int_limit n.
Proof. cbn [has_long_int existsb]. by destruct (exceeds_int_limit n). Qed.

Lemma make_key_shape (args : list pyval) (kwargs : list (string * pyval)) (key : string) :
  SimpleCache._make_key args kwargs = Return key →
  String.length key = 32%nat
  ∧ Forall (λ c, In c (String.list_ascii_of_string "0123456789abcdef"))
      (String.list_ascii_of_string key).
Proof.
  unfold SimpleCache._make_key. destruct (has_long_int _); [done|].
  intros [= <-]. unfold hexdigest.
  set (msg := bytes_of_string _).
  destruct (digest_shape msg) as [Hlen Hrange].
  destruct (hex_of_bytes_shape (digest msg) Hrange) as [Hl Hh].
  rewrite Hlen in Hl. by split.
Qed.

(** X6. A key made by [_make_key] is a string of exactly 32 characters,
    each a lower-case hexadecimal digit, whatever the arguments.  For the
    calls the tools make, with a name, a URL and a number, such a key is
    made whenever the number has at most 4300 digits; when it has more,
    [_make_key] raises the [ValueError] of [json.dumps]. *)
Theorem make_key_is_32_hex_digits (args : list pyval) (kwargs : list (string * pyval)) :
  let well_formed (key : string) :=
    String.length key = 32%nat
    ∧ Forall (λ c, In c (String.list_ascii_of_string "0123456789abcdef"))
        (String.list_ascii_of_string key) in
  (∀ key, SimpleCache._make_key args kwargs = Return key → well_formed key)
  ∧ (∀ (tool url : string) (n : Z),
       (Z.abs n < 10 ^ 4300 →
          ∃ key, SimpleCache._make_key [PStr tool; PStr url; PInt n] [] = Return key
                 ∧ well_formed key)
       ∧ (10 ^ 4300 ≤ Z.abs n →
          SimpleCache._make_key [PStr tool; PStr url; PInt n] []
          = Raise int_limit_message)).
Proof.
  intros well_formed. split; [intros key; apply make_key_shape|].
  intros tool url n. split.
  - intros Hn.
    assert (Hs : has_long_int (PList [PList [PStr tool; PStr url; PInt n]; PDict []])
                 = false).
    { rewrite tool_arguments_short.
      destruct (exceeds_int_limit n) eqn:He; [|done].
      apply exceeds_int_limit_spec in He. lia. }
    eexists. split; [by apply make_key_returns|].
    apply (make_key_shape [PStr tool; PStr url; PInt n] []). by apply make_key_returns.
  - intros Hn. unfold SimpleCache._make_key. rewrite tool_arguments_short.
    by rewrite (proj2 (exceeds_int_limit_spec n) Hn).
Qed.
End KeyShape.

(** ** Crawler: deduplication, order and page records *)

Section CrawlMore.
Import Json Crawler.
Variable netloc : string → string.
Variable fetch : string → outcome document.

Lemma enqueue_links_nodup sd base (visited : gset string) tv links :
  NoDup tv → NoDup (enqueue_links netloc sd base visited tv links).
Proof.
  revert tv. induction links as [|[u|e] links IH]; intros tv Hnd;
    cbn [enqueue_links]; [done| |done].
  destruct (negb (has_web_scheme u)); [by apply IH|].
  destruct (sd && negb (String.eqb (netloc u) base)); [by apply IH|].
  destruct (skip_url u); [by apply IH|].
  destruct (bool_decide (u ∉ visited) && bool_decide (u ∉ tv)) eqn:Hnew;
    [|by apply IH].
  apply IH. apply andb_true_iff in Hnew as [_ Hfresh%bool_decide_eq_true].
  apply NoDup_app. split; [done|]. split; [|apply NoDup_singleton].
  intros v Hv ->%list_elem_of_singleton. done.
Qed.

Lemma enqueue_links_fresh sd base (visited : gset string) tv links (u : string) :
  u ∈ enqueue_links netloc sd base visited tv links → u ∈ tv ∨ u ∉ visited.
Proof.
  destruct (enqueue_links_appends netloc sd base visited tv links)
    as (added & -> & Hadded).
  intros [?|Hin]%elem_of_app; [by left|]. right.
  rewrite Forall_forall in Hadded. by destruct (Hadded u Hin) as (_ & _ & _ & ?).
Qed.

(** The deduplication invariant of the loop. *)
Lemma dedup_invariant N sd base (seed : string) st :
  reachable netloc fetch N sd base (initial_state seed) st →
  NoDup (to_visit st)
  ∧ (∀ u, u ∈ to_visit st → u ∉ visited st)
  ∧ NoDup (map url (pages st))
  ∧ (∀ p, p ∈ pages st → url p ∈ visited st).
Proof.
  induction 1 as [|st _ (Hnd & Hdisj & Hpg & Hvis) Hcond].
  - cbn. split; [apply NoDup_singleton|]. split; [set_solver|].
    split; [apply NoDup_nil_2|]. by intros p ?%not_elem_of_nil.
  - unfold loop_body. destruct (to_visit st) as [|u rest] eqn:Htv;
      [by apply cond_true in Hcond as [? _]|].
    apply NoDup_cons in Hnd as [Hu Hrest].
    assert (Hfresh : u ∉ visited st) by (apply Hdisj; left).
    rewrite bool_decide_eq_false_2 by done.
    destruct (fetch u) as [doc|e]; cbn [to_visit visited pages].
    + split; [by apply enqueue_links_nodup|]. split; [|split].
      * intros v Hv Hin.
        apply enqueue_links_fresh in Hv as [Hv|Hv]; [|done].
        apply elem_of_union in Hin as [->%elem_of_singleton|Hin]; [done|].
        revert Hin. apply Hdisj. by right.
      * rewrite map_app. cbn. apply NoDup_app. split; [done|].
        split; [|apply NoDup_singleton].
        intros v Hv ->%list_elem_of_singleton.
        apply list_elem_of_In, in_map_iff in Hv as (p & <- & Hp).
        apply Hfresh, Hvis. by apply list_elem_of_In.
      * intros p [Hp| ->%list_elem_of_singleton]%elem_of_app; [|set_solver].
        apply elem_of_union_r. by apply Hvis.
    + split; [done|]. split; [|split; [done|]].
      * intros v Hv Hin.
        apply elem_of_union in Hin as [->%elem_of_singleton|Hin]; [done|].
        revert Hin. apply Hdisj. by right.
      * intros p Hp. apply elem_of_union_r. by apply Hvis.
Qed.

(** X7. No URL is requested twice.  At every step the frontier holds no
    URL twice and none that was visited, so the URL taken off the frontier is
    always a new one (the [continue] for a visited URL is never taken) and the
    URLs of the returned pages are pairwise different. *)
Theorem no_url_is_fetched_twice (seed : string) (N : Z) (sd : bool) :
  let base := netloc (normalize seed) in
  let st0 := initial_state (normalize seed) in
  (∀ st, reachable netloc fetch N sd base st0 st →
     NoDup (to_visit st)
     ∧ (∀ u, u ∈ to_visit st → u ∉ visited st)
     ∧ (∀ u rest, to_visit st = u :: rest →
          visited (loop_body netloc fetch sd base st) = {[u]} ∪ visited st))
  ∧ NoDup (map url (pages (crawl netloc fetch seed N sd))).
Proof.
  intros base st0. split.
  - intros st Hreach.
    destruct (dedup_invariant N sd base _ st Hreach) as (Hnd & Hdisj & _).
    split; [done|]. split; [done|]. intros u rest Htv.
    unfold loop_body. rewrite Htv.
    rewrite bool_decide_eq_false_2 by (apply Hdisj; rewrite Htv; left).
    by destruct (fetch u).
  - destruct (while_loop_reachable netloc fetch N sd base st0) as [Hreach _].
    by destruct (dedup_invariant N sd base _ _ Hreach) as (_ & _ & Hpg & _).
Qed.

Lemma pages_only_grow N sd base st r :
  loop_result netloc fetch N sd base st r → ∃ more, pages r = pages st ++ more.
Proof.
  induction 1 as [st _|st r Hcond _ [more Hmore]].
  - exists []. by rewrite app_nil_r.
  - apply cond_true in Hcond as [Hne _].
    destruct (loop_body_iteration netloc fetch sd base st Hne)
      as [u rest _ _|u rest e _ _ _|u rest doc added _ _ _ _];
      cbn [pages] in Hmore; [by exists more..|].
    rewrite <-app_assoc in Hmore. eauto.
Qed.

(** X8. When the budget allows a page and the seed can be fetched, the
    first returned page is the seed's: its URL is the normalised seed URL,
    with the title and the first 2000 characters of the text of the fetched
    document.  If that document has no link, it is the only page. *)
Theorem seed_is_first_page (seed : string) (N : Z) (sd : bool) (doc : document) :
  0 < N → fetch (normalize seed) = Return doc →
  let p0 := mk_page (normalize seed) (doc_title doc) (Py.take 2000 (doc_text doc)) in
  (∃ more, pages (crawl netloc fetch seed N sd) = p0 :: more)
  ∧ (doc_links doc = [] → pages (crawl netloc fetch seed N sd) = [p0]).
Proof.
  intros HN Hfetch p0. unfold crawl.
  set (base := netloc (normalize seed)).
  rewrite while_loop_unfold.
  assert (loop_cond N (initial_state (normalize seed)) = true) as ->.
  { apply cond_true. cbn. split; [done | lia]. }
  set (st1 := mk_state ({[normalize seed]} ∪ ∅)
                (enqueue_links netloc sd base ({[normalize seed]} ∪ ∅) [] (doc_links doc))
                [p0]).
  assert (loop_body netloc fetch sd base (initial_state (normalize seed)) = st1) as ->.
  { unfold loop_body. cbn [to_visit initial_state visited pages].
    rewrite bool_decide_eq_false_2 by set_solver. by rewrite Hfetch. }
  split.
  - destruct (pages_only_grow N sd base st1 _
                (while_loop_result netloc fetch N sd base st1)) as [more Hmore].
    rewrite Hmore. cbn. eauto.
  - intros Hnone. rewrite while_loop_unfold.
    assert (loop_cond N st1 = false) as ->; [|done].
    apply cond_false. left. unfold st1. by rewrite Hnone.
Qed.

Lemma take_is_prefix (n : nat) (s : string) :
  (String.length (Py.take n s) ≤ n)%nat ∧ String.prefix (Py.take n s) s = true.
Proof.
  unfold Py.take. revert s. induction n as [|n IH]; intros s.
  - destruct s; cbn; split; done.
  - destruct s as [|c s]; cbn; [split; [lia|done]|].
    destruct (IH s) as [Hlen Hpre]. split; [lia|].
    by destruct (ascii_dec c c).
Qed.

(** X9. Every returned page is the record of a document that was fetched
    at its URL: the title is the document's, and the preview is the text of
    the document cut after 2000 characters, never longer. *)
Theorem pages_record_fetched_documents (seed : string) (N : Z) (sd : bool) (p : page) :
  p ∈ pages (crawl netloc fetch seed N sd) →
  (String.length (content_preview p) ≤ 2000)%nat
  ∧ ∃ doc, fetch (url p) = Return doc
      ∧ title p = doc_title doc
      ∧ content_preview p = Py.take 2000 (doc_text doc)
      ∧ String.prefix (content_preview p) (doc_text doc) = true.
Proof.
  intros Hp.
  assert (Hinv : ∀ st,
    reachable netloc fetch N sd (netloc (normalize seed))
      (initial_state (normalize seed)) st →
    ∀ q, q ∈ pages st →
      ∃ doc, fetch (url q) = Return doc ∧ title q = doc_title doc
        ∧ content_preview q = Py.take 2000 (doc_text doc)).
  { intros st Hreach.
    eapply (reachable_invariant _ _ _ _ _
              (λ s, ∀ q, q ∈ pages s →
                 ∃ doc, fetch (url q) = Return doc ∧ title q = doc_title doc
                   ∧ content_preview q = Py.take 2000 (doc_text doc)));
      [| |exact Hreach]; cbn beta.
    - by intros q ?%not_elem_of_nil.
    - intros st1 st2 Hpg _ Hiter.
      destruct Hiter as [u rest _ _|u rest e _ _ _|u rest doc added _ _ Hdoc _];
        cbn [pages]; [done..|].
      intros q [Hq| ->%list_elem_of_singleton]%elem_of_app; [by apply Hpg|].
      cbn. eauto. }
  destruct (Hinv _ (proj1 (while_loop_reachable _ _ _ _ _ _)) p Hp)
    as (doc & Hfetch & Htitle & Hprev).
  destruct (take_is_prefix 2000 (doc_text doc)) as [Hlen Hpre].
  rewrite Hprev. split; [done|]. by exists doc.
Qed.

Lemma normalize_has_web_scheme (u : string) : has_web_scheme (normalize u) = true.
Proof.
  unfold normalize. destruct (has_web_scheme u) eqn:Hu; cbn [negb]; [done|].
  unfold has_web_scheme, Py.any, Py.startswith. cbn [existsb].
  rewrite !append_cons. change ("" +:+ u) with u. cbn. by destruct u.
Qed.

(** X10. The URL-normalising prologue shared by the tools gives a URL that
    starts with [http://] or [https://], leaves such a URL alone (so applying
    it twice is applying it once), and puts [https://] in front of anything
    else, a URL with another or an upper-case scheme included. *)
Theorem normalize_adds_scheme_once (u : string) :
  has_web_scheme (normalize u) = true
  ∧ normalize (normalize u) = normalize u
  ∧ (has_web_scheme u = true → normalize u = u)
  ∧ (has_web_scheme u = false → normalize u = "https://" +:+ u).
Proof.
  split; [apply normalize_has_web_scheme|]. split; [|split].
  - unfold normalize at 1. by rewrite normalize_has_web_scheme.
  - intros Hu. unfold normalize. by rewrite Hu.
  - intros Hu. unfold normalize. by rewrite Hu.
Qed.

(** X11. Every URL the crawler requests or returns is a web URL: at every
    step each URL of the frontier starts with [http://] or [https://], and so
    does the URL of every returned page. *)
Theorem crawl_stays_on_the_web (seed : string) (N : Z) (sd : bool) :
  let base := netloc (normalize seed) in
  (∀ st u, reachable netloc fetch N sd base (initial_state (normalize seed)) st →
           u ∈ to_visit st → has_web_scheme u = true)
  ∧ (∀ p, p ∈ pages (crawl netloc fetch seed N sd) → has_web_scheme (url p) = true).
Proof.
  intros base.
  assert (Hinv : ∀ st,
    reachable netloc fetch N sd base (initial_state (normalize seed)) st →
    (∀ u, u ∈ to_visit st → has_web_scheme u = true)
    ∧ (∀ p, p ∈ pages st → has_web_scheme (url p) = true)).
  { intros st Hreach.
    eapply (reachable_invariant _ _ _ _ _
              (λ s, (∀ u, u ∈ to_visit s → has_web_scheme u = true)
                    ∧ (∀ p, p ∈ pages s → has_web_scheme (url p) = true)));
      [| |exact Hreach]; cbn beta.
    - split; [|by intros p ?%not_elem_of_nil].
      intros u ->%list_elem_of_singleton. apply normalize_has_web_scheme.
    - intros st1 st2 [Htv Hpg] _ Hiter.
      destruct Hiter as [u rest Heq _|u rest e Heq _ _|u rest doc added Heq _ _ Hadded];
        cbn [to_visit pages]; rewrite Heq in Htv.
      + split; [|done]. intros v Hv. apply Htv. by right.
      + split; [|done]. intros v Hv. apply Htv. by right.
      + split.
        * intros v [Hv|Hv]%elem_of_app; [apply Htv; by right|].
          rewrite Forall_forall in Hadded. by destruct (Hadded v Hv).
        * intros p [Hp| ->%list_elem_of_singleton]%elem_of_app; [by apply Hpg|].
          cbn. apply Htv. left. }
  split.
  - intros st u Hreach. by apply Hinv.
  - apply Hinv, while_loop_reachable.
Qed.

(** X12. An exception while a link of a fetched page is resolved does not
    undo the page: the page record stays in [pages], the links before the
    failing one are filtered and enqueued as usual, and the links after it
    are never looked at. *)
Theorem link_error_keeps_the_page (sd : bool) (base : string) (st : state)
    (u : string) rest (doc : document) links1 (e : string) links2 :
  to_visit st = u :: rest → u ∉ visited st →
  fetch u = Return doc → doc_links doc = links1 ++ Raise e :: links2 →
  loop_body netloc fetch sd base st
  = mk_state ({[u]} ∪ visited st)
      (enqueue_links netloc sd base ({[u]} ∪ visited st) rest links1)
      (pages st ++ [mk_page u (doc_title doc) (Py.take 2000 (doc_text doc))]).
Proof.
  intros Htv Hfresh Hfetch Hlinks. unfold loop_body.
  rewrite Htv, bool_decide_eq_false_2, Hfetch, Hlinks by done. f_equal.
  generalize ({[u]} ∪ visited st). intros vis.
  clear Htv Hfresh Hfetch Hlinks. revert rest.
  induction links1 as [|[v|e1] links1 IH]; intros rest; cbn [app enqueue_links];
    [done| |done].
  destruct (negb (has_web_scheme v)); [apply IH|].
  destruct (sd && negb (String.eqb (netloc v) base)); [apply IH|].
  destruct (skip_url v); [apply IH|].
  destruct (bool_decide (v ∉ vis) && bool_decide (v ∉ rest)); apply IH.
Qed.
End CrawlMore.

(** ** extract_links *)

Section ExtractLinksFacts.
Import Json ExtractLinks.
Variable netloc : string → string.
Variable fetch_anchors : string → outcome (list anchor).

Lemma anchor_text_length (a : anchor) : (String.length (anchor_text a) ≤ 100)%nat.
Proof.
  unfold anchor_text. destruct (String.eqb (text_content a) ""); [cbn; lia|].
  apply take_is_prefix.
Qed.

#[local] Abbreviation listed := (ExtractLinks.listed netloc).

Lemma collect_sound sdo base anchors (seen : gset string) links r :
  collect netloc sdo base seen links anchors = Return r →
  NoDup (map link_url links) → (∀ l, l ∈ links → link_url l ∈ seen) →
  ∃ more, r = links ++ more
    ∧ NoDup (map link_url r)
    ∧ Forall (listed sdo base anchors) more.
Proof.
  revert seen links. induction anchors as [|a anchors IH]; intros seen links;
    cbn [collect].
  - intros [= <-] Hnd _. exists []. rewrite app_nil_r. by split.
  - assert (Hweak : ∀ more, Forall (listed sdo base anchors) more →
                            Forall (listed sdo base (a :: anchors)) more).
    { intros more Hmore. eapply Forall_impl; [exact Hmore|].
      intros l (H1 & H2 & H3 & b & Hb & Hrest).
      repeat split; try done. exists b. split; [by right | done]. }
    destruct (target a) as [u|e] eqn:Htarget; [|done].
    destruct (Crawler.has_web_scheme u) eqn:Hweb; cbn [negb];
      [|intros Hc Hnd Hseen; destruct (IH _ _ Hc Hnd Hseen) as (more & ? & ? & ?); eauto].
    destruct (sdo && negb (String.eqb (netloc u) base)) eqn:Hdom;
      [intros Hc Hnd Hseen; destruct (IH _ _ Hc Hnd Hseen) as (more & ? & ? & ?); eauto|].
    case_bool_decide as Hin;
      [intros Hc Hnd Hseen; destruct (IH _ _ Hc Hnd Hseen) as (more & ? & ? & ?); eauto|].
    intros Hc Hnd Hseen.
    destruct (IH _ _ Hc) as (more & -> & Hnd' & Hmore).
    + rewrite map_app. cbn. apply NoDup_app. split; [done|].
      split; [|apply NoDup_singleton].
      intros v Hv ->%list_elem_of_singleton.
      apply list_elem_of_In, in_map_iff in Hv as (l & <- & Hl).
      apply Hin, Hseen. by apply list_elem_of_In.
    + intros l [Hl| ->%list_elem_of_singleton]%elem_of_app; [|set_solver].
      apply elem_of_union_r. by apply Hseen.
    + exists (mk_link u (anchor_text a) :: more). rewrite <-app_assoc in Hnd' |- *.
      split; [done|]. split; [done|]. constructor; [|by apply Hweak].
      repeat split; cbn.
      * done.
      * intros ->. cbn in Hdom. apply negb_false_iff in Hdom.
        by apply String.eqb_eq.
      * apply anchor_text_length.
      * exists a. split; [left | done].
Qed.

Lemma collect_complete sdo base anchors (seen : gset string) links r :
  collect netloc sdo base seen links anchors = Return r →
  (∀ u, u ∈ seen → u ∈ map link_url links) →
  ∀ a u, a ∈ anchors → target a = Return u →
    Crawler.has_web_scheme u = true → (sdo = true → netloc u = base) →
    u ∈ map link_url r.
Proof.
  revert seen links. induction anchors as [|a anchors IH]; intros seen links;
    cbn [collect]; [by intros _ _ b u ?%not_elem_of_nil|].
  intros Hc Hseen b u Hb Hu Hweb Hdom.
  destruct (target a) as [v|e] eqn:Htarget; [|done].
  apply elem_of_cons in Hb as [->|Hb].
  - rewrite Hu in Htarget. injection Htarget as <-.
    rewrite Hweb in Hc. cbn [negb] in Hc.
    assert (sdo && negb (String.eqb (netloc u) base) = false) as Hd.
    { destruct sdo; [|done]. cbn. rewrite (Hdom eq_refl).
      by rewrite String.eqb_refl. }
    rewrite Hd in Hc. case_bool_decide as Hin.
    + clear IH. revert Hc. generalize (Hseen u Hin). clear.
      revert seen links. induction anchors as [|a anchors IH]; intros seen links Hu;
        cbn [collect]; [by intros [= <-]|].
      destruct (target a) as [v|e]; [|done].
      destruct (negb (Crawler.has_web_scheme v)); [by apply IH|].
      destruct (sdo && negb (String.eqb (netloc v) base)); [by apply IH|].
      case_bool_decide; [by apply IH|].
      apply IH. rewrite map_app. apply elem_of_app. by left.
    + clear IH. revert Hc.
      assert (u ∈ map link_url (links ++ [mk_link u (anchor_text a)])) as Hu'.
      { rewrite map_app. apply elem_of_app. right. cbn. left. }
      revert Hu'. generalize (links ++ [mk_link u (anchor_text a)]).
      generalize ({[u]} ∪ seen). clear.
      intros seen links. revert seen links.
      induction anchors as [|a anchors IH]; intros seen links Hu;
        cbn [collect]; [by intros [= <-]|].
      destruct (target a) as [v|e]; [|done].
      destruct (negb (Crawler.has_web_scheme v)); [by apply IH|].
      destruct (sdo && negb (String.eqb (netloc v) base)); [by apply IH|].
      case_bool_decide; [by apply IH|].
      apply IH. rewrite map_app. apply elem_of_app. by left.
  - destruct (negb (Crawler.has_web_scheme v)); [by eapply IH|].
    destruct (sdo && negb (String.eqb (netloc v) base)); [by eapply IH|].
    case_bool_decide; [by eapply IH|].
    eapply IH; [exact Hc| |done..].
    intros w [->%elem_of_singleton|Hw]%elem_of_union; rewrite map_app;
      apply elem_of_app; [right; cbn; left | left; by apply Hseen].
Qed.

Lemma collect_returns sdo base anchors (seen : gset string) links :
  Forall (λ a, ∃ u, target a = Return u) anchors →
  ∃ r, collect netloc sdo base seen links anchors = Return r.
Proof.
  intros Hok. revert seen links.
  induction Hok as [|a anchors [u Hu] _ IH]; intros seen links; cbn [collect];
    [by eexists|].
  rewrite Hu. destruct (negb (Crawler.has_web_scheme u)); [apply IH|].
  destruct (sdo && negb (String.eqb (netloc u) base)); [apply IH|].
  case_bool_decide; apply IH.
Qed.

(** What [extract_links] returns when the page is fetched and every link
    resolves. *)
Lemma extract_links_returns (url : string) (sdo : bool) (anchors : list anchor) :
  fetch_anchors (Crawler.normalize url) = Return anchors →
  Forall (λ a, ∃ u, target a = Return u) anchors →
  ∃ links,
    collect netloc sdo (netloc (Crawler.normalize url)) ∅ [] anchors = Return links
    ∧ extract_links netloc fetch_anchors url sdo
      = dumps (Some 2%nat) false
          (JDict [("status", JStr "success");
                  ("source_url", JStr (Crawler.normalize url));
                  ("total_links", JInt (Z.of_nat (length links)));
                  ("links",
                   JList (map (λ l, JDict [("url", JStr (link_url l));
                                           ("text", JStr (link_text l))]) links))]).
Proof.
  intros Hfetch Hok.
  destruct (collect_returns sdo (netloc (Crawler.normalize url)) anchors ∅ [] Hok)
    as [links Hlinks].
  exists links. split; [done|].
  unfold extract_links, _extract_links_impl, extracted. by rewrite Hfetch, Hlinks.
Qed.



Lemma collect_raises sdo base (seen : gset string) links before text e after :
  Forall (λ a, ∃ u, target a = Return u) before →
  collect netloc sdo base seen links (before ++ mk_anchor text (Raise e) :: after)
  = Raise e.
Proof.
  intros Hok. revert seen links.
  induction Hok as [|a before [u Hu] _ IH]; intros seen links; cbn [app collect];
    [done|].
  rewrite Hu. destruct (negb (Crawler.has_web_scheme u)); [apply IH|].
  destruct (sdo && negb (String.eqb (netloc u) base)); [apply IH|].
  case_bool_decide; apply IH.
Qed.

(** X15. One link that cannot be resolved fails the whole extraction: when
    resolving an anchor raises, [extract_links] returns the error envelope
    with that exception's message, and the links found before it are not
    reported. *)
Theorem unresolvable_link_fails_extraction (url : string) (sdo : bool)
    (before : list anchor) (text e : string) (after : list anchor) :
  fetch_anchors (Crawler.normalize url)
    = Return (before ++ mk_anchor text (Raise e) :: after) →
  Forall (λ a, ∃ u, target a = Return u) before →
  extract_links netloc fetch_anchors url sdo
  = dumps (Some 2%nat) false
      (JDict [("status", JStr "error"); ("url", JStr (Crawler.normalize url));
              ("message", JStr ("Failed to extract links: " +:+ e))]).
Proof.
  intros Hfetch Hok. unfold extract_links, _extract_links_impl, extracted.
  by rewrite Hfetch, collect_raises.
Qed.
End ExtractLinksFacts.

(** ** batch_search *)

Section BatchFacts.
Import Json BatchSearch.
Variable new_ddgs : outcome unit.
Variable ddgs_text : nat → string → Z → outcome (list Tools.backend_result).

Lemma field_dict_set (k k' : string) (v : json) d :
  field k' (dict_set k v d) = if String.eqb k k' then Some v else field k' d.
Proof.
  induction d as [|[k0 v0] d IH]; cbn.
  - by destruct (String.eqb k k').
  - destruct (String.eqb k0 k) eqn:Hk0; cbn.
    + apply String.eqb_eq in Hk0 as ->. by destruct (String.eqb k k').
    + rewrite IH. destruct (String.eqb k0 k') eqn:Hk0'; [|done].
      apply String.eqb_eq in Hk0' as ->. by rewrite String.eqb_sym, Hk0.
Qed.

Lemma keys_dict_set (k : string) (v : json) d :
  map fst (dict_set k v d)
  = if bool_decide (k ∈ map fst d) then map fst d else map fst d ++ [k].
Proof.
  induction d as [|[k0 v0] d IH]; cbn; [done|].
  destruct (String.eqb k0 k) eqn:Hk0; cbn.
  - apply String.eqb_eq in Hk0 as ->. rewrite bool_decide_eq_true_2; [done|left].
  - rewrite IH. apply String.eqb_neq in Hk0.
    case_bool_decide as Hin.
    + rewrite bool_decide_eq_true_2; [done | by right].
    + rewrite bool_decide_eq_false_2; [done|].
      intros [?|?]%elem_of_cons; congruence.
Qed.

Lemma search_all_keys i (queries : list string) n acc :
  NoDup (map fst acc) →
  NoDup (map fst (search_all ddgs_text i queries n acc))
  ∧ (∀ q, q ∈ map fst (search_all ddgs_text i queries n acc)
          ↔ q ∈ map fst acc ∨ q ∈ queries)
  ∧ (length (search_all ddgs_text i queries n acc) ≤ length acc + length queries)%nat.
Proof.
  revert i acc. induction queries as [|query queries IH]; intros i acc Hnd; cbn [search_all].
  - split; [done|]. split; [|cbn; lia]. intros q. split; [by left|].
    by intros [?|?%not_elem_of_nil].
  - set (acc' := dict_set query (query_entry ddgs_text i query n) acc).
    assert (Hkeys : map fst acc'
              = if bool_decide (query ∈ map fst acc) then map fst acc
                else map fst acc ++ [query]) by apply keys_dict_set.
    assert (Hnd' : NoDup (map fst acc')).
    { rewrite Hkeys. case_bool_decide as Hin; [done|].
      apply NoDup_app. split; [done|]. split; [|apply NoDup_singleton].
      by intros q Hq ->%list_elem_of_singleton. }
    assert (Hlen : (length acc' ≤ length acc + 1)%nat).
    { rewrite <-(length_map fst acc'), Hkeys.
      case_bool_decide; rewrite ?length_app, !length_map; cbn; lia. }
    destruct (IH (S i) acc' Hnd') as (Hnd'' & Hiff & Hle).
    split; [done|]. split; [|cbn; lia].
    intros q. rewrite Hiff, Hkeys, elem_of_cons.
    case_bool_decide as Hin; [|rewrite elem_of_app, list_elem_of_singleton]; [|tauto].
    split; [tauto|]. intros [?|[->|?]]; tauto.
Qed.

(** X16. [batch_search] searches at most ten queries but counts them all:
    [total_queries] is the length of the list that was passed, whatever it
    is, while [results] has one key for each different query among the first
    ten and no other, so never more than ten. *)
Theorem batch_counts_all_but_searches_ten (queries : list string) (n : Z) :
  new_ddgs = Return () →
  let results := batch_results ddgs_text queries n in
  batch_search new_ddgs ddgs_text queries n
  = dumps (Some 2%nat) false
      (JDict [("status", JStr "success");
              ("total_queries", JInt (Z.of_nat (length queries)));
              ("results", JDict results)])
  ∧ NoDup (map fst results)
  ∧ (∀ q, q ∈ map fst results ↔ q ∈ firstn 10 queries)
  ∧ (length results ≤ 10)%nat.
Proof.
  intros Hddgs results. split.
  { unfold batch_search, _batch_search_impl. by rewrite Hddgs. }
  destruct (search_all_keys 0 (first_ten queries) n [] (NoDup_nil_2 (A:=string)))
    as (Hnd & Hiff & Hle).
  split; [done|]. split.
  - intros q. unfold results, batch_results. rewrite Hiff. unfold first_ten.
    split; [by intros [?%not_elem_of_nil|?] | by right].
  - unfold results, batch_results. etrans; [exact Hle|].
    unfold first_ten. cbn [length]. rewrite length_take. lia.
Qed.

Lemma search_all_entry i (queries : list string) n acc (j : nat) (q : string) :
  queries !! j = Some q →
  (∀ j', (j < j')%nat → queries !! j' ≠ Some q) →
  field q (search_all ddgs_text i queries n acc)
  = Some (query_entry ddgs_text (i + j) q n).
Proof.
  revert i acc j. induction queries as [|query queries IH]; intros i acc j Hj Hlast;
    [done|]. cbn [search_all]. destruct j as [|j].
  - injection Hj as ->. rewrite Nat.add_0_r.
    assert (Hnot : q ∉ queries).
    { intros (j' & Hj')%list_elem_of_lookup. apply (Hlast (S j')); [lia | done]. }
    generalize (field_dict_set q q (query_entry ddgs_text i q n) acc).
    rewrite String.eqb_refl. generalize (dict_set q (query_entry ddgs_text i q n) acc).
    generalize (S i). clear -Hnot.
    induction queries as [|q' queries IH]; intros i' acc' Hacc; [done|].
    cbn [search_all]. apply IH.
    + intros Hin. apply Hnot. by right.
    + rewrite field_dict_set.
      destruct (String.eqb q' q) eqn:Heq; [|done].
      apply String.eqb_eq in Heq as ->. destruct Hnot. left.
  - cbn in Hj. rewrite (IH (S i) _ j Hj).
    + f_equal. f_equal. lia.
    + intros j' Hlt. apply (Hlast (S j')). lia.
Qed.

(** X17. The queries of a batch do not affect one another, and a failing
    one does not fail the batch.  The entry stored for a query is the outcome
    of its own search, the last one if the query is repeated among the first
    ten: the formatted results, or [{"error": message}] when that search
    raised. *)
Theorem batch_entries_are_independent (queries : list string) (n : Z)
    (j : nat) (q : string) :
  firstn 10 queries !! j = Some q →
  (∀ j', (j < j')%nat → firstn 10 queries !! j' ≠ Some q) →
  field q (batch_results ddgs_text queries n) = Some (query_entry ddgs_text j q n)
  ∧ (∀ e, ddgs_text j q n = Raise e →
          field q (batch_results ddgs_text queries n)
          = Some (JDict [("error", JStr e)])).
Proof.
  intros Hj Hlast.
  assert (Hentry : field q (batch_results ddgs_text queries n)
                   = Some (query_entry ddgs_text j q n)).
  { unfold batch_results, first_ten. by rewrite (search_all_entry 0 _ n [] j q Hj Hlast). }
  split; [done|]. intros e He. rewrite Hentry. unfold query_entry. by rewrite He.
Qed.
End BatchFacts.

(** ** Video IDs *)

Section VideoIdFacts.
Import VideoId.

Lemma take_length_le (n : nat) (s : string) :
  (n ≤ String.length s)%nat → String.length (Py.take n s) = n.
Proof.
  unfold Py.take. revert s. induction n as [|n IH]; intros s Hle.
  - by destruct s.
  - destruct s as [|c s]; cbn in *; [lia|]. rewrite IH; [done|lia].
Qed.

Lemma take_drop (n : nat) (s : string) : Py.take n s +:+ PyStr.drop n s = s.
Proof.
  unfold Py.take. revert s. induction n as [|n IH]; intros s.
  - by destruct s.
  - destruct s as [|c s]; cbn; [done|]. rewrite append_cons. by rewrite IH.
Qed.

Lemma take_append (s t : string) : Py.take (String.length s) (s +:+ t) = s.
Proof.
  unfold Py.take. induction s as [|c s IH]; cbn.
  - by destruct t.
  - rewrite append_cons. cbn. by rewrite IH.
Qed.

Lemma drop_append (s t : string) : PyStr.drop (String.length s) (s +:+ t) = t.
Proof. induction s as [|c s IH]; cbn; [by destruct t|]. by rewrite append_cons. Qed.

Lemma id_here_sound (s id : string) :
  id_here s = Some id →
  String.length id = 11%nat ∧ PyStr.all_chars is_id_char id = true
  ∧ ∃ rest, s = id +:+ rest.
Proof.
  unfold id_here.
  destruct (Nat.eqb (String.length (Py.take 11 s)) 11) eqn:Hlen; [|done].
  destruct (PyStr.all_chars is_id_char (Py.take 11 s)) eqn:Hall; [|done].
  intros [= <-]. apply Nat.eqb_eq in Hlen. split; [done|]. split; [done|].
  exists (PyStr.drop 11 s). by rewrite take_drop.
Qed.

Lemma id_here_append (id rest : string) :
  String.length id = 11%nat → PyStr.all_chars is_id_char id = true →
  id_here (id +:+ rest) = Some id.
Proof.
  intros Hlen Hall. unfold id_here.
  assert (Py.take 11 (id +:+ rest) = id) as ->
    by (rewrite <-Hlen; apply take_append).
  by rewrite Hlen, Hall.
Qed.

Lemma match_here_sound prefixes (s id : string) :
  match_here prefixes s = Some id →
  String.length id = 11%nat ∧ PyStr.all_chars is_id_char id = true
  ∧ Py.contains id s = true.
Proof.
  induction prefixes as [|p prefixes IH]; cbn [match_here]; [done|].
  destruct (Py.startswith s p) eqn:Hp; [|done].
  destruct (id_here (PyStr.drop (String.length p) s)) as [id'|] eqn:Hid; [|done].
  intros [= ->]. apply id_here_sound in Hid as (Hlen & Hall & rest & Hrest).
  split; [done|]. split; [done|].
  apply contains_spec. exists p, rest.
  apply prefix_spec in Hp as [b Hb]. rewrite Hb in Hrest.
  rewrite drop_append in Hrest. by rewrite Hb, Hrest.
Qed.

Lemma search_first_sound (s id : string) :
  search_first s = Some id →
  String.length id = 11%nat ∧ PyStr.all_chars is_id_char id = true
  ∧ Py.contains id s = true.
Proof.
  induction s as [|c s IH]; cbn [search_first].
  - destruct (match_here id_prefixes "") eqn:Hm; [|done].
    intros [= ->]. by apply match_here_sound in Hm.
  - destruct (match_here id_prefixes (String c s)) eqn:Hm.
    + intros [= ->]. by apply match_here_sound in Hm.
    + intros (Hlen & Hall & Hin)%IH. split; [done|]. split; [done|].
      rewrite contains_unfold, Hin. apply orb_true_r.
Qed.

(** X18. A video ID that is extracted is always 11 characters of
    [[a-zA-Z0-9_-]], and is a part of the given text. *)
Theorem video_id_is_well_formed (video_url id : string) :
  extract_video_id video_url = Some id →
  String.length id = 11%nat
  ∧ PyStr.all_chars is_id_char id = true
  ∧ Py.contains id video_url = true.
Proof.
  unfold extract_video_id.
  destruct (search_first video_url) as [id'|] eqn:Hfirst.
  - intros [= ->]. by apply search_first_sound.
  - unfold search_second. destruct (id_here video_url) as [id'|] eqn:Hid; [|done].
    destruct (String.eqb _ "" || String.eqb _ _); [|done].
    intros [= ->]. apply id_here_sound in Hid as (Hlen & Hall & rest & ->).
    split; [done|]. split; [done|]. apply contains_spec. by exists "", rest.
Qed.

Lemma prefix_all_chars (f : ascii → bool) (p s : string) :
  String.prefix p s = true → PyStr.all_chars f s = true → PyStr.all_chars f p = true.
Proof.
  intros [b ->]%prefix_spec. induction p as [|c p IH]; [done|].
  rewrite append_cons. cbn. intros [-> ?]%andb_true_iff. by apply IH.
Qed.

Lemma search_first_plain (s : string) :
  PyStr.all_chars (λ c, is_id_char c || Ascii.eqb c PyStr.newline) s = true →
  search_first s = None.
Proof.
  set (f := λ c, is_id_char c || Ascii.eqb c PyStr.newline).
  assert (Hno : ∀ t, PyStr.all_chars f t = true → match_here id_prefixes t = None).
  { intros t Ht. unfold id_prefixes. cbn [match_here].
    repeat match goal with
    | |- context [Py.startswith t ?p] =>
        let H := fresh in
        destruct (Py.startswith t p) eqn:H;
          [apply (prefix_all_chars f) in H; [discriminate H | exact Ht]|]
    end. done. }
  induction s as [|c s IH]; intros Hs; cbn [search_first]; rewrite (Hno _ Hs); [done|].
  apply IH. cbn in Hs. by apply andb_true_iff in Hs as [_ ?].
Qed.

Lemma search_first_skip (c : ascii) (s : string) :
  match_here id_prefixes (String c s) = None →
  search_first (String c s) = search_first s.
Proof. intros H. cbn [search_first]. by rewrite H. Qed.

Lemma search_first_found (s id : string) :
  match_here id_prefixes s = Some id → search_first s = Some id.
Proof. intros H. destruct s; cbn [search_first]; by rewrite H. Qed.

(** X19. The usual ways of naming a video all give its ID.  For an ID of
    11 characters of [[a-zA-Z0-9_-]]: a watch URL and a short URL yield it
    whatever follows it (a longer run of such characters is cut after the
    11th), and so does the bare ID, also with a line feed after it. *)
Theorem video_id_of_usual_forms (id rest : string) :
  String.length id = 11%nat → PyStr.all_chars is_id_char id = true →
  extract_video_id ("https://www.youtube.com/watch?v=" +:+ id +:+ rest) = Some id
  ∧ extract_video_id ("https://youtu.be/" +:+ id +:+ rest) = Some id
  ∧ extract_video_id ("https://www.youtube.com/embed/" +:+ id +:+ rest) = Some id
  ∧ extract_video_id id = Some id
  ∧ extract_video_id (id +:+ String PyStr.newline "") = Some id.
Proof.
  intros Hlen Hall.
  assert (Hhere : ∀ p, In p id_prefixes →
            match_here id_prefixes (p +:+ id +:+ rest) = Some id).
  { intros p Hp.
    assert (Hid : id_here (PyStr.drop (String.length p) (p +:+ id +:+ rest)) = Some id)
      by (rewrite drop_append; by apply id_here_append).
    assert (Hpre : Py.startswith (p +:+ id +:+ rest) p = true)
      by (apply prefix_spec; eauto).
    revert Hid Hpre. generalize (id +:+ rest). intros t Hid Hpre.
    unfold id_prefixes. cbn in Hp. destruct Hp as [<-|[<-|[<-|[<-|[]]]]];
      cbn [match_here].
    - by rewrite Hpre, Hid.
    - assert (Py.startswith ("/v/" +:+ t) "v=" = false) as ->
        by (unfold Py.startswith; by rewrite !append_cons).
      by rewrite Hpre, Hid.
    - assert (Py.startswith ("youtu.be/" +:+ t) "v=" = false) as ->
        by (unfold Py.startswith; by rewrite !append_cons).
      assert (Py.startswith ("youtu.be/" +:+ t) "/v/" = false) as ->
        by (unfold Py.startswith; by rewrite !append_cons).
      by rewrite Hpre, Hid.
    - assert (Py.startswith ("/embed/" +:+ t) "v=" = false) as ->
        by (unfold Py.startswith; by rewrite !append_cons).
      assert (Py.startswith ("/embed/" +:+ t) "/v/" = false) as ->
        by (unfold Py.startswith; by rewrite !append_cons).
      assert (Py.startswith ("/embed/" +:+ t) "youtu.be/" = false) as ->
        by (unfold Py.startswith; by rewrite !append_cons).
      by rewrite Hpre, Hid. }
  unfold extract_video_id. repeat split.
  - assert (search_first ("https://www.youtube.com/watch?v=" +:+ id +:+ rest) = Some id) as ->; [|done].
    change ("https://www.youtube.com/watch?v=" +:+ id +:+ rest)
      with ("https://www.youtube.com/watch?" +:+ ("v=" +:+ id +:+ rest)).
    rewrite !append_cons. change ("" +:+ ?t) with t.
    rewrite !search_first_skip by (vm_compute; reflexivity).
    apply search_first_found, (Hhere "v="). cbn. tauto.
  - assert (search_first ("https://youtu.be/" +:+ id +:+ rest) = Some id) as ->; [|done].
    change ("https://youtu.be/" +:+ id +:+ rest)
      with ("https://" +:+ ("youtu.be/" +:+ id +:+ rest)).
    rewrite !append_cons. change ("" +:+ ?t) with t.
    rewrite !search_first_skip by (vm_compute; reflexivity).
    apply search_first_found, (Hhere "youtu.be/"). cbn. tauto.
  - assert (search_first ("https://www.youtube.com/embed/" +:+ id +:+ rest) = Some id) as ->; [|done].
    change ("https://www.youtube.com/embed/" +:+ id +:+ rest)
      with ("https://www.youtube.com" +:+ ("/embed/" +:+ id +:+ rest)).
    rewrite !append_cons. change ("" +:+ ?t) with t.
    rewrite !search_first_skip by (vm_compute; reflexivity).
    apply search_first_found, (Hhere "/embed/"). cbn. tauto.
  - rewrite search_first_plain.
    + unfold search_second. rewrite <-(append_nil_r id) at 1.
      rewrite id_here_append by done.
      rewrite <-Hlen. rewrite <-(append_nil_r id) at 2. by rewrite drop_append.
    + revert Hall. clear. induction id as [|c id IH]; [done|]. cbn.
      intros [-> ?]%andb_true_iff. cbn. by apply IH.
  - rewrite search_first_plain.
    + unfold search_second. rewrite id_here_append by done.
      rewrite <-Hlen, drop_append. by rewrite String.eqb_refl, orb_true_r.
    + revert Hall. clear. induction id as [|c id IH]; [done|].
      rewrite append_cons. cbn. intros [-> ?]%andb_true_iff. cbn. by apply IH.
Qed.
End VideoIdFacts.

(** ** fetch_as_markdown and the cache *)

Section MarkdownFacts.
Import Json FetchMarkdown.

#[local] Abbreviation make_key url max_length :=
  (SimpleCache._make_key [PStr "markdown"; PStr url; PInt max_length] []).

Lemma get_none_absent {V} (c : SimpleCache.t V) (now : Z) (k : string) :
  (SimpleCache.get c now k).2 = Return None →
  SimpleCache._cache (SimpleCache.get c now k).1 !! k = None.
Proof.
  unfold SimpleCache.get. destruct (SimpleCache._cache c !! k) eqn:Hc; [|done].
  destruct (SimpleCache._timestamps c !! k); [|done].
  case_bool_decide; [done|]. intros _. cbn. apply lookup_delete_eq.
Qed.

Lemma success_response_not_empty (url title content : string) :
  success_response url title content ≠ "".
Proof.
  intros Heq.
  destruct (indented2_shape (success_response url title content)) as [H|[rest H]];
    [by eexists | |]; rewrite Heq in H; discriminate.
Qed.

(** A response that was just stored is found by the next call in time. *)
Lemma markdown_hit (fetch_md : string → outcome (string * string))
    (cache : SimpleCache.t string) (now_get now_set t0 : Z)
    (url : string) (max_length : Z) (key response : string) :
  make_key url max_length = Return key →
  response ≠ "" → now_get - t0 < SimpleCache.default_ttl cache →
  let stored := SimpleCache.set cache t0 key response None in
  fetch_as_markdown fetch_md stored now_get now_set url max_length = (stored, response).
Proof.
  intros Hkey Hne Hlt stored. unfold fetch_as_markdown, _fetch_as_markdown_impl.
  rewrite Hkey.
  destruct (set_lookup cache t0 key response None) as (Hc & Ht & Hd).
  fold stored in Hc, Ht, Hd.
  rewrite (get_stored stored now_get t0 _ response Hc Ht).
  rewrite bool_decide_eq_true_2 by (by rewrite Hd). cbn [truthy default].
  apply String.eqb_neq in Hne. by rewrite Hne.
Qed.

(** The call that misses the cache and goes to the network. *)
Lemma markdown_miss (fetch_md : string → outcome (string * string))
    (cache : SimpleCache.t string) (now_get now_set : Z)
    (url : string) (max_length : Z) (key : string) :
  make_key url max_length = Return key →
  (SimpleCache.get cache now_get key).2 = Return None →
  fetch_as_markdown fetch_md cache now_get now_set url max_length
  = let cache1 := (SimpleCache.get cache now_get key).1 in
    match fetch_md (Crawler.normalize url) with
    | Raise e => (cache1, error_response (Crawler.normalize url) e)
    | Return (title, markdown_content) =>
        let result := success_response (Crawler.normalize url) title
                        (clean max_length markdown_content) in
        (SimpleCache.set cache1 now_set key result None, result)
    end.
Proof.
  intros Hkey Hmiss. unfold fetch_as_markdown, _fetch_as_markdown_impl. rewrite Hkey.
  destruct (SimpleCache.get cache now_get key) as [c1 r] eqn:Hget.
  cbn in Hmiss. subst r. by cbn [truthy fst].
Qed.

(** X20. A cached page is returned as it is.  When the cache holds a
    non-empty response for the key of the call and it has not expired,
    [fetch_as_markdown] returns exactly that response and leaves the cache
    unchanged, whatever the network would answer. *)
Theorem cached_markdown_is_returned (fetch_md : string → outcome (string * string))
    (cache : SimpleCache.t string) (now_get now_set t0 : Z)
    (url : string) (max_length : Z) (key response : string) :
  SimpleCache._make_key [PStr "markdown"; PStr url; PInt max_length] [] = Return key →
  SimpleCache._cache cache !! key = Some response →
  SimpleCache._timestamps cache !! key = Some t0 →
  response ≠ "" → now_get - t0 < SimpleCache.default_ttl cache →
  fetch_as_markdown fetch_md cache now_get now_set url max_length = (cache, response).
Proof.
  intros Hkey Hc Ht Hne Hlt. unfold fetch_as_markdown, _fetch_as_markdown_impl.
  rewrite Hkey, (get_stored _ now_get t0 _ response Hc Ht).
  rewrite bool_decide_eq_true_2 by done. cbn [truthy default].
  apply String.eqb_neq in Hne. by rewrite Hne.
Qed.

(** X21. The second of two identical calls is answered from the cache.
    After a call that missed the cache and fetched the page, a call with the
    same URL and [max_length] made less than [ttl] after the first one stored
    its result returns the identical response and leaves the cache as it is,
    even if the page has changed or can no longer be fetched. *)
Theorem second_call_is_served_from_cache
    (fetch1 fetch2 : string → outcome (string * string))
    (cache : SimpleCache.t string) (now1 now2 now3 now4 : Z)
    (url : string) (max_length : Z) (key title markdown_content : string) :
  SimpleCache._make_key [PStr "markdown"; PStr url; PInt max_length] [] = Return key →
  (SimpleCache.get cache now1 key).2 = Return None →
  fetch1 (Crawler.normalize url) = Return (title, markdown_content) →
  now3 - now2 < SimpleCache.default_ttl cache →
  let first := fetch_as_markdown fetch1 cache now1 now2 url max_length in
  first.2
  = dumps (Some 2%nat) false
      (JDict [("status", JStr "success"); ("url", JStr (Crawler.normalize url));
              ("title", JStr title);
              ("content_markdown",
               JStr (PyStr.truncate truncation_marker max_length
                       (PyStr.strip (PyStr.collapse_newlines markdown_content))))])
  ∧ fetch_as_markdown fetch2 first.1 now3 now4 url max_length = first.
Proof.
  intros Hkey Hmiss Hfetch Hlt first.
  assert (Hfirst : first
    = (SimpleCache.set (SimpleCache.get cache now1 key).1 now2 key
         (success_response (Crawler.normalize url) title (clean max_length markdown_content))
         None,
       success_response (Crawler.normalize url) title (clean max_length markdown_content))).
  { unfold first. rewrite (markdown_miss fetch1 _ _ _ _ _ key Hkey Hmiss).
    cbn zeta. by rewrite Hfetch. }
  rewrite Hfirst. cbn [fst snd]. split; [done|].
  apply (markdown_hit fetch2 _ now3 now4 now2 url max_length key _ Hkey).
  - apply success_response_not_empty.
  - assert (SimpleCache.default_ttl (SimpleCache.get cache now1 key).1
            = SimpleCache.default_ttl cache) as ->; [|done].
    unfold SimpleCache.get. destruct (SimpleCache._cache cache !! _); [|done].
    destruct (SimpleCache._timestamps cache !! _); [|done]. by case_bool_decide.
Qed.

(** X22. A failure is not cached.  When the cache misses and the fetch
    raises, [fetch_as_markdown] returns the error envelope with the
    normalised URL and the exception's message and stores nothing: the key
    of the call is absent from the cache afterwards, so the next call tries
    again.  When the key itself cannot be made, the error envelope carries
    the URL as it was passed, and neither the cache nor the network is
    touched. *)
Theorem failed_fetch_is_not_cached (fetch_md : string → outcome (string * string))
    (cache : SimpleCache.t string) (now_get now_set : Z)
    (url : string) (max_length : Z) :
  let after := fetch_as_markdown fetch_md cache now_get now_set url max_length in
  (∀ key e,
     SimpleCache._make_key [PStr "markdown"; PStr url; PInt max_length] [] = Return key →
     (SimpleCache.get cache now_get key).2 = Return None →
     fetch_md (Crawler.normalize url) = Raise e →
     after.2
     = dumps (Some 2%nat) false
         (JDict [("status", JStr "error"); ("url", JStr (Crawler.normalize url));
                 ("message", JStr ("Failed to fetch as markdown: " +:+ e))])
     ∧ after.1 = (SimpleCache.get cache now_get key).1
     ∧ SimpleCache._cache after.1 !! key = None)
  ∧ (10 ^ 4300 ≤ Z.abs max_length →
     after
     = (cache,
        dumps (Some 2%nat) false
          (JDict [("status", JStr "error"); ("url", JStr url);
                  ("message",
                   JStr ("Failed to fetch as markdown: " +:+ int_limit_message))]))).
Proof.
  intros after. split.
  - intros key e Hkey Hmiss Hfetch.
    assert (Hafter : after
      = ((SimpleCache.get cache now_get key).1,
         error_response (Crawler.normalize url) e)).
    { unfold after. rewrite (markdown_miss fetch_md _ _ _ _ _ key Hkey Hmiss).
      cbn zeta. by rewrite Hfetch. }
    rewrite Hafter. cbn [fst snd]. split; [done|]. split; [done|].
    by apply get_none_absent.
  - intros Hlong. unfold after, fetch_as_markdown, _fetch_as_markdown_impl.
    unfold SimpleCache._make_key. rewrite tool_arguments_short.
    by rewrite (proj2 (exceeds_int_limit_spec max_length) Hlong).
Qed.

(** X30. [clear_cache] forces fresh data.  Whatever the cache held, the call
    of [fetch_as_markdown] that follows [clear_cache] goes to the network:
    its response is made from what is fetched then, the success envelope of
    the fetched page or the error envelope of the exception, never a stored
    response. *)
Theorem clear_cache_forces_refetch (fetch_md : string → outcome (string * string))
    (cache : SimpleCache.t string) (now_get now_set : Z)
    (url : string) (max_length : Z) (key : string) :
  SimpleCache._make_key [PStr "markdown"; PStr url; PInt max_length] [] = Return key →
  let cleared := (CacheTool.clear_cache cache).1 in
  let after := fetch_as_markdown fetch_md cleared now_get now_set url max_length in
  (∀ title markdown_content,
     fetch_md (Crawler.normalize url) = Return (title, markdown_content) →
     after.2
     = dumps (Some 2%nat) false
         (JDict [("status", JStr "success"); ("url", JStr (Crawler.normalize url));
                 ("title", JStr title);
                 ("content_markdown",
                  JStr (PyStr.truncate truncation_marker max_length
                          (PyStr.strip (PyStr.collapse_newlines markdown_content))))])
     ∧ SimpleCache._cache after.1 = {[key := after.2]})
  ∧ (∀ e, fetch_md (Crawler.normalize url) = Raise e →
          after
          = (cleared,
             dumps (Some 2%nat) false
               (JDict [("status", JStr "error"); ("url", JStr (Crawler.normalize url));
                       ("message", JStr ("Failed to fetch as markdown: " +:+ e))]))).
Proof.
  intros Hkey cleared after.
  assert (Hget : SimpleCache.get cleared now_get key = (cleared, Return None)).
  { unfold SimpleCache.get, cleared, CacheTool.clear_cache, SimpleCache.clear.
    cbn [fst SimpleCache._cache]. by rewrite lookup_empty. }
  assert (Hafter := markdown_miss fetch_md cleared now_get now_set url max_length key Hkey).
  rewrite Hget in Hafter. specialize (Hafter eq_refl). cbn [fst] in Hafter. cbn zeta in Hafter.
  fold after in Hafter. split.
  - intros title markdown_content Hfetch. rewrite Hfetch in Hafter. rewrite Hafter.
    cbn [fst snd]. split; [done|].
    unfold SimpleCache.set, cleared, CacheTool.clear_cache, SimpleCache.clear.
    cbn [fst SimpleCache._cache]. by rewrite insert_empty.
  - intros e Hfetch. by rewrite Hfetch in Hafter.
Qed.
End MarkdownFacts.

(** ** Truncation and white space *)

Section TruncationFacts.

Lemma take_length (n : nat) (s : string) :
  String.length (Py.take n s) = Nat.min n (String.length s).
Proof.
  unfold Py.take. revert s. induction n as [|n IH]; intros s.
  - by destruct s.
  - destruct s as [|c s]; cbn; [done|]. by rewrite IH.
Qed.

Lemma append_length (s t : string) :
  String.length (s +:+ t) = (String.length s + String.length t)%nat.
Proof. induction s as [|c s IH]; [done|]. rewrite append_cons. cbn. by rewrite IH. Qed.

(** X23. The truncation of the fetched text.  A text of at most
    [max_length] characters is returned whole.  A longer one is cut to its
    first [max_length] characters and the marker is added, so the result has
    [max_length] characters plus the marker.  A negative [max_length] counts
    from the end, as Python slices do: every text is then "too long", loses
    its last [-max_length] characters and gets the marker. *)
Theorem truncate_cuts_and_marks (marker : string) (max_length : Z) (s : string) :
  (Z.of_nat (String.length s) ≤ max_length → PyStr.truncate marker max_length s = s)
  ∧ (0 ≤ max_length < Z.of_nat (String.length s) →
       PyStr.truncate marker max_length s = Py.take (Z.to_nat max_length) s +:+ marker
       ∧ Z.of_nat (String.length (PyStr.truncate marker max_length s))
         = max_length + Z.of_nat (String.length marker))
  ∧ (max_length < 0 →
       PyStr.truncate marker max_length s
       = Py.take (String.length s - Z.to_nat (- max_length)) s +:+ marker
       ∧ Z.of_nat (String.length (PyStr.truncate marker max_length s))
         = Z.max 0 (Z.of_nat (String.length s) + max_length)
           + Z.of_nat (String.length marker)).
Proof.
  unfold PyStr.truncate, PyStr.slice_to. rewrite Z.gtb_ltb.
  destruct (Z.ltb_spec max_length (Z.of_nat (String.length s))) as [Hlt|Hge];
    destruct (Z.leb_spec 0 max_length) as [H0|Hneg].
  - split; [lia|]. split; [|lia]. intros _. split; [done|].
    rewrite append_length, take_length. lia.
  - split; [lia|]. split; [lia|]. intros _. split; [done|].
    rewrite append_length, take_length. lia.
  - split; [done|]. split; lia.
  - split; [done|]. split; lia.
Qed.
End TruncationFacts.

(** ** read_pdf_url *)

Section PdfFacts.
Import Json ReadPdf.
Variable import_fitz : outcome unit.
Variable http_get : string → outcome response.

Lemma read_texts_lookup (sources : list (outcome string)) (texts : list string) :
  read_texts sources = Return texts →
  length texts = length sources
  ∧ ∀ i text, texts !! i = Some text → sources !! i = Some (Return text).
Proof.
  revert texts. induction sources as [|[t|e] sources IH]; intros texts; cbn [read_texts].
  - intros [= <-]. by split.
  - destruct (read_texts sources) as [texts'|] eqn:Hrest; [|done].
    intros [= <-]. destruct (IH texts' eq_refl) as [Hlen Hget].
    split; [cbn; by rewrite Hlen|]. intros [|i] text; cbn; [by intros [= ->]|].
    apply Hget.
  - done.
Qed.

Lemma pages_from_lookup (start : nat) (texts : list string) (i : nat) (text : string) :
  texts !! i = Some text →
  pages_from start texts !! i
  = Some (JDict [("page", JInt (Z.of_nat (start + i) + 1));
                 ("text", JStr (Py.take 3000 text))]).
Proof.
  revert start i. induction texts as [|t texts IH]; intros start i; [done|].
  destruct i as [|i].
  - cbn. intros [= ->]. by rewrite Nat.add_0_r.
  - intros Hi. change (pages_from (S start) texts !! i = Some
      (JDict [("page", JInt (Z.of_nat (start + S i) + 1));
              ("text", JStr (Py.take 3000 text))])).
    rewrite (IH (S start) i Hi). do 5 f_equal. lia.
Qed.

Lemma pages_from_length (start : nat) (texts : list string) :
  length (pages_from start texts) = length texts.
Proof. revert start. induction texts as [|t texts IH]; intros start; cbn; [done|]. by rewrite IH. Qed.

Lemma read_texts_returns (texts : list string) :
  read_texts (map Return texts) = Return texts.
Proof. induction texts as [|t texts IH]; cbn; [done|]. by rewrite IH. Qed.

Lemma pages_from_imap (start : nat) (texts : list string) :
  pages_from start texts
  = imap (λ i text, JDict [("page", JInt (Z.of_nat (start + i) + 1));
                           ("text", JStr (Py.take 3000 text))]) texts.
Proof.
  revert start. induction texts as [|t texts IH]; intros start; [done|].
  cbn [pages_from imap]. rewrite Nat.add_0_r. f_equal.
  rewrite IH. apply imap_ext. intros i text _. cbn. do 5 f_equal. lia.
Qed.

(** X24. The pages of a PDF that [read_pdf_url] reports.  When the call
    reaches the document and its first [max_pages] pages (all of them, if
    there are fewer; none, if [max_pages] is zero or negative) can be read,
    the response is the success envelope whose [pages] are these pages in
    order, numbered from 1, each with the first 3000 characters of its
    text. *)
Theorem pdf_pages_are_the_first_ones (cache : SimpleCache.t string)
    (now_get now_set : Z) (url : string) (max_pages : Z) (key : string)
    (resp : response) (doc : pdf) (texts : list string) :
  let url' := Crawler.normalize url in
  import_fitz = Return () →
  SimpleCache._make_key [PStr "pdf"; PStr url'; PInt max_pages] [] = Return key →
  (SimpleCache.get cache now_get key).2 = Return None →
  http_get url' = Return resp →
  Py.contains "pdf" (Py.lower (content_type resp)) = true
  ∨ Crawler.endswith (Py.lower url') ".pdf" = true →
  opened resp = Return doc →
  map Return texts = firstn (Z.to_nat max_pages) (page_texts doc) →
  (read_pdf_url import_fitz http_get cache now_get now_set url max_pages).2
  = dumps (Some 2%nat) false
      (JDict [("status", JStr "success"); ("url", JStr url');
              ("metadata", metadata_of doc);
              ("full_text", JStr (full_text texts));
              ("pages",
               JList (imap (λ i text,
                              JDict [("page", JInt (Z.of_nat i + 1));
                                     ("text", JStr (Py.take 3000 text))]) texts))])
  ∧ Z.of_nat (length texts)
    = Z.max 0 (Z.min (Z.of_nat (length (page_texts doc))) max_pages).
Proof.
  intros url' Himport Hkey Hmiss Hget Hpdf Hopen Htexts.
  assert (Hlen : Z.of_nat (length texts)
                 = Z.max 0 (Z.min (Z.of_nat (length (page_texts doc))) max_pages)).
  { rewrite <-(length_map Return texts), Htexts, length_take. lia. }
  split; [|exact Hlen].
  assert (Hread : texts_read doc max_pages = Return texts).
  { unfold texts_read, pages_read. rewrite <-read_texts_returns, Htexts. f_equal.
    destruct (Z.le_ge_cases (Z.of_nat (length (page_texts doc))) max_pages) as [Hle|Hle].
    - rewrite Z.min_l by done. rewrite Nat2Z.id.
      rewrite !firstn_all2; [done|lia..].
    - by rewrite Z.min_r. }
  unfold read_pdf_url, _read_pdf_url_impl. rewrite Himport. fold url'. rewrite Hkey.
  destruct (SimpleCache.get cache now_get key) as [c1 r] eqn:Hg.
  cbn in Hmiss. subst r. cbn [FetchMarkdown.truthy]. rewrite Hget.
  assert (not_a_pdf (content_type resp) url' = false) as ->.
  { unfold not_a_pdf. destruct Hpdf as [->| ->]; [done|]. apply andb_false_r. }
  rewrite Hopen, Hread. cbn [snd]. unfold success_response, pages_content.
  rewrite pages_from_imap. done.
Qed.

(** X25. [read_pdf_url] does not distinguish a URL from its normalised
    form: the key of the cache is made after the protocol was added, so a
    call with [example.com/a.pdf] and a call with
    [https://example.com/a.pdf] read and write the same cache entry and
    return the same response. *)
Theorem pdf_url_is_normalised_before_caching (cache : SimpleCache.t string)
    (now_get now_set : Z) (url : string) (max_pages : Z) :
  import_fitz = Return () →
  read_pdf_url import_fitz http_get cache now_get now_set url max_pages
  = read_pdf_url import_fitz http_get cache now_get now_set
      (Crawler.normalize url) max_pages.
Proof.
  intros Himport. unfold read_pdf_url, _read_pdf_url_impl. rewrite Himport.
  assert (Crawler.normalize (Crawler.normalize url) = Crawler.normalize url) as ->; [|done].
  unfold Crawler.normalize at 1. by rewrite normalize_has_web_scheme.
Qed.

(** X26. What is not a PDF is refused and not cached.  When the cache
    misses and the response has no [pdf] in its content type (in any case of
    the letters) and the URL does not end in [.pdf] (in any case), the
    response is the error "URL does not appear to be a PDF file", whatever
    the body is, and nothing is stored under the key of the call. *)
Theorem non_pdf_is_refused (cache : SimpleCache.t string) (now_get now_set : Z)
    (url : string) (max_pages : Z) (key : string) (resp : response) :
  let url' := Crawler.normalize url in
  import_fitz = Return () →
  SimpleCache._make_key [PStr "pdf"; PStr url'; PInt max_pages] [] = Return key →
  (SimpleCache.get cache now_get key).2 = Return None →
  http_get url' = Return resp →
  Py.contains "pdf" (Py.lower (content_type resp)) = false →
  Crawler.endswith (Py.lower url') ".pdf" = false →
  let after := read_pdf_url import_fitz http_get cache now_get now_set url max_pages in
  after.2
  = dumps (Some 2%nat) false
      (JDict [("status", JStr "error"); ("url", JStr url');
              ("message", JStr "URL does not appear to be a PDF file")])
  ∧ after.1 = (SimpleCache.get cache now_get key).1
  ∧ SimpleCache._cache after.1 !! key = None.
Proof.
  intros url' Himport Hkey Hmiss Hget Hct Hurl after.
  assert (Hafter : after
    = ((SimpleCache.get cache now_get key).1,
       error_response url' "URL does not appear to be a PDF file")).
  { unfold after, read_pdf_url, _read_pdf_url_impl. rewrite Himport.
    fold url'. rewrite Hkey.
    destruct (SimpleCache.get cache now_get key) as [c1 r] eqn:Hg.
    cbn in Hmiss. subst r. cbn [FetchMarkdown.truthy fst]. rewrite Hget.
    unfold not_a_pdf. by rewrite Hct, Hurl. }
  rewrite Hafter. cbn [fst snd]. split; [done|]. split; [done|].
  by apply get_none_absent.
Qed.
End PdfFacts.

(** ** Crawler: budget and link discovery, continued *)

Section CrawlEdge.
Import Json Crawler.
Variable netloc : string → string.
Variable fetch : string → outcome document.
Variable urlparse_error : string → option string.
Variable new_client : outcome unit.

(** X27. With a page budget of zero or less nothing is requested, not even
    the seed: the loop body never runs, and when the seed URL can be parsed
    and the client created, [crawl_website] reports success with no page. *)
Theorem empty_budget_fetches_nothing (seed : string) (N : Z) (sd : bool) :
  N ≤ 0 → urlparse_error (normalize seed) = None → new_client = Return () →
  crawl netloc fetch seed N sd = initial_state (normalize seed)
  ∧ crawl_website netloc fetch urlparse_error new_client seed N sd
    = dumps (Some 2%nat) false
        (JDict [("status", JStr "success"); ("start_url", JStr (normalize seed));
                ("pages_crawled", JInt 0); ("pages", JList [])]).
Proof.
  intros HN Hparse Hclient.
  assert (Hcrawl : crawl netloc fetch seed N sd = initial_state (normalize seed)).
  { unfold crawl. rewrite while_loop_unfold.
    assert (loop_cond N (initial_state (normalize seed)) = false) as ->; [|done].
    apply cond_false. right. cbn. lia. }
  split; [done|]. unfold crawl_website, _crawl_website_impl.
  by rewrite Hparse, Hclient, Hcrawl.
Qed.

Lemma enqueue_links_keeps sd base (visited : gset string) tv links (u : string) :
  u ∈ tv → u ∈ enqueue_links netloc sd base visited tv links.
Proof.
  destruct (enqueue_links_appends netloc sd base visited tv links) as (added & -> & _).
  intros Hin. apply elem_of_app. by left.
Qed.

(** X28. Nothing acceptable is dropped.  If every link of a page resolves,
    each link that is a web URL, matches no skip pattern, was not visited and
    (with the restriction on) has the seed's host is in the frontier after
    the page was processed. *)
Theorem acceptable_links_are_enqueued (sd : bool) (base : string)
    (visited : gset string) (tv : list string) (links : list (outcome string))
    (u : string) :
  Forall (λ l, ∃ v, l = Return v) links → Return u ∈ links →
  has_web_scheme u = true → (sd = true → netloc u = base) →
  skip_url u = false → u ∉ visited →
  u ∈ enqueue_links netloc sd base visited tv links.
Proof.
  intros Hok Hin Hweb Hdom Hskip Hfresh. revert tv.
  induction Hok as [|l links [v ->] _ IH]; intros tv; [by apply not_elem_of_nil in Hin|].
  cbn [enqueue_links]. apply elem_of_cons in Hin as [[= <-]|Hin].
  - rewrite Hweb, Hskip. cbn [negb].
    assert (sd && negb (String.eqb (netloc u) base) = false) as ->.
    { destruct sd; [|done]. cbn. by rewrite (Hdom eq_refl), String.eqb_refl. }
    rewrite (bool_decide_eq_true_2 _ Hfresh). cbn [andb].
    case_bool_decide as Hnew; apply enqueue_links_keeps.
    + apply elem_of_app. right. left.
    + exact Hnew.
  - destruct (negb (has_web_scheme v)); [by apply IH|].
    destruct (sd && negb (String.eqb (netloc v) base)); [by apply IH|].
    destruct (skip_url v); [by apply IH|].
    destruct (bool_decide (v ∉ visited) && bool_decide (v ∉ tv)); by apply IH.
Qed.
End CrawlEdge.

(** ** The clean-up of the converted text *)

Section CleanFacts.

#[local] Abbreviation nl := PyStr.newline.

Lemma prefix_cons (c d : ascii) (p s : string) :
  String.prefix (String c p) (String d s)
  = if Ascii.eqb c d then String.prefix p s else false.
Proof.
  cbn. destruct (ascii_dec c d) as [->|Hne].
  - by rewrite Ascii.eqb_refl.
  - by apply Ascii.eqb_neq in Hne as ->.
Qed.

Lemma collapse_from_shape (run : nat) (s : string) :
  Py.contains (String nl (String nl (String nl "")))
    (PyStr.collapse_newlines_from run s) = false
  ∧ ((1 ≤ run)%nat →
     String.prefix (String nl (String nl "")) (PyStr.collapse_newlines_from run s) = false)
  ∧ ((2 ≤ run)%nat →
     String.prefix (String nl "") (PyStr.collapse_newlines_from run s) = false)
  ∧ (String.length (PyStr.collapse_newlines_from run s) ≤ String.length s)%nat.
Proof.
  revert run. induction s as [|c s IH]; intros run; cbn [PyStr.collapse_newlines_from].
  - repeat split; done.
  - destruct (Ascii.eqb c nl) eqn:Hc.
    + apply Ascii.eqb_eq in Hc as ->.
      destruct (IH (S run)) as (Hin & H1 & H2 & Hlen).
      destruct (Nat.ltb_spec run 2) as [Hlt|Hge].
      * rewrite contains_unfold, !prefix_cons, Ascii.eqb_refl.
        rewrite H1 by lia. rewrite Hin. split; [done|]. split; [|split].
        -- intros Hrun. apply H2. lia.
        -- lia.
        -- cbn. lia.
      * split; [done|]. split; [intros _; apply H1; lia|].
        split; [intros _; apply H2; lia | cbn; lia].
    + destruct (IH 0%nat) as (Hin & _ & _ & Hlen).
      rewrite contains_unfold, !prefix_cons, !(Ascii.eqb_sym nl c), Hc, Hin.
      cbn. repeat split; try done. lia.
Qed.

Lemma append_assoc (a b c : string) : (a +:+ b) +:+ c = a +:+ b +:+ c.
Proof. induction a as [|x a IH]; [done|]. rewrite !append_cons. by rewrite IH. Qed.

Lemma lstrip_suffix (s : string) : ∃ w, s = w +:+ PyStr.lstrip s.
Proof.
  induction s as [|c s [w Hw]]; [by exists ""|]. cbn.
  destruct (PyStr.is_space c); [|by exists ""].
  exists (String c w). rewrite append_cons. by rewrite <-Hw.
Qed.

Lemma rstrip_prefix (s : string) : ∃ w, s = PyStr.rstrip s +:+ w.
Proof.
  induction s as [|c s [w Hw]]; [by exists ""|]. cbn.
  destruct (PyStr.rstrip s) as [|d r] eqn:Hr.
  - destruct (PyStr.is_space c); [by exists (String c s)|].
    exists w. rewrite append_cons. by rewrite <-Hw.
  - exists w. rewrite append_cons. by rewrite <-Hw.
Qed.

Lemma contains_strip (p s : string) :
  Py.contains p (PyStr.strip s) = true → Py.contains p s = true.
Proof.
  unfold PyStr.strip. intros (a & b & Hab)%contains_spec.
  destruct (rstrip_prefix (PyStr.lstrip s)) as [w Hw].
  destruct (lstrip_suffix s) as [v Hv].
  apply contains_spec. exists (v +:+ a), (b +:+ w).
  rewrite Hv at 1. rewrite Hw, Hab. by rewrite !append_assoc.
Qed.

(** X29. The text stored as [content_markdown] has at most one blank line
    in a row: after the clean-up no three line feeds follow one another, in
    the text with its runs cut and in the stripped text alike, unless the
    truncation marker was added; and cutting the runs never makes the text
    longer. *)
Theorem cleaned_markdown_has_no_blank_run (max_length : Z) (markdown_content : string) :
  let triple := String nl (String nl (String nl "")) in
  let stripped := PyStr.strip (PyStr.collapse_newlines markdown_content) in
  Py.contains triple (PyStr.collapse_newlines markdown_content) = false
  ∧ Py.contains triple stripped = false
  ∧ (String.length (PyStr.collapse_newlines markdown_content)
     ≤ String.length markdown_content)%nat
  ∧ (Z.of_nat (String.length stripped) ≤ max_length →
     FetchMarkdown.clean max_length markdown_content = stripped
     ∧ Py.contains triple (FetchMarkdown.clean max_length markdown_content) = false).
Proof.
  intros triple stripped.
  destruct (collapse_from_shape 0 markdown_content) as (Hin & _ & _ & Hlen).
  assert (Hstripped : Py.contains triple stripped = false).
  { destruct (Py.contains triple stripped) eqn:H; [|done].
    apply contains_strip in H. unfold PyStr.collapse_newlines, triple in H.
    congruence. }
  split; [done|]. split; [done|]. split; [done|]. intros Hfit.
  assert (FetchMarkdown.clean max_length markdown_content = stripped) as ->; [|done].
  unfold FetchMarkdown.clean. fold stripped. unfold PyStr.truncate.
  rewrite Z.gtb_ltb. by destruct (Z.ltb_spec max_length (Z.of_nat (String.length stripped))); [lia|].
Qed.
End CleanFacts.

(** ** The further properties on concrete inputs *)

Lemma seed_is_first_page_witness :
  let doc := Crawler.mk_document "A" "page a"
               [Return "https://a.example/b"; Return "https://a.example/c";
                Return "https://d.example/"] in
  0 < 10
  ∧ Crawler.example_web (Crawler.normalize "a.example/") = Return doc
  ∧ ∃ more,
      Crawler.pages
        (Crawler.crawl Crawler.example_netloc Crawler.example_web "a.example/" 10 true)
      = Crawler.mk_page "https://a.example/" "A" "page a" :: more.
Proof.
  intros doc.
  assert (H1 : 0 < 10) by lia.
  assert (H2 : Crawler.example_web (Crawler.normalize "a.example/") = Return doc)
    by reflexivity.
  split; [exact H1|]. split; [exact H2|].
  exact (proj1 (seed_is_first_page Crawler.example_netloc Crawler.example_web
                  "a.example/" 10 true doc H1 H2)).
Defined.

Lemma pages_record_fetched_documents_witness :
  let p := Crawler.mk_page "https://a.example/c" "C" "page c" in
  p ∈ Crawler.pages
        (Crawler.crawl Crawler.example_netloc Crawler.example_web "a.example/" 10 true)
  ∧ (String.length (Crawler.content_preview p) ≤ 2000)%nat.
Proof.
  intros p.
  assert (Hp : p ∈ Crawler.pages
        (Crawler.crawl Crawler.example_netloc Crawler.example_web "a.example/" 10 true)).
  { assert (Crawler.pages
        (Crawler.crawl Crawler.example_netloc Crawler.example_web "a.example/" 10 true)
      = [Crawler.mk_page "https://a.example/" "A" "page a"; p;
         Crawler.mk_page "https://a.example/e" "E" "page e"]) as ->
      by (vm_compute; reflexivity).
    apply list_elem_of_further, list_elem_of_here. }
  split; [exact Hp|].
  exact (proj1 (pages_record_fetched_documents Crawler.example_netloc Crawler.example_web
                  "a.example/" 10 true p Hp)).
Defined.

Lemma link_error_keeps_the_page_witness :
  let st := Crawler.initial_state "https://a.example/" in
  let doc := Crawler.mk_document "A" "page a"
               [Return "https://a.example/b"; Raise "Invalid IPv6 URL";
                Return "https://a.example/c"] in
  Crawler.to_visit st = ["https://a.example/"]
  ∧ ("https://a.example/" ∉ Crawler.visited st)
  ∧ MoreExamples.broken_web "https://a.example/" = Return doc
  ∧ Crawler.doc_links doc
    = [Return "https://a.example/b"] ++ Raise "Invalid IPv6 URL" :: [Return "https://a.example/c"]
  ∧ Crawler.loop_body Crawler.example_netloc MoreExamples.broken_web true "a.example" st
    = Crawler.mk_state ({["https://a.example/"]} ∪ Crawler.visited st)
        (Crawler.enqueue_links Crawler.example_netloc true "a.example"
           ({["https://a.example/"]} ∪ Crawler.visited st) []
           [Return "https://a.example/b"])
        (Crawler.pages st ++ [Crawler.mk_page "https://a.example/" "A" "page a"]).
Proof.
  intros st doc.
  assert (H1 : Crawler.to_visit st = ["https://a.example/"]) by reflexivity.
  assert (H2 : "https://a.example/" ∉ Crawler.visited st) by apply not_elem_of_empty.
  assert (H3 : MoreExamples.broken_web "https://a.example/" = Return doc) by reflexivity.
  assert (H4 : Crawler.doc_links doc
    = [Return "https://a.example/b"] ++ Raise "Invalid IPv6 URL" :: [Return "https://a.example/c"])
    by reflexivity.
  split; [exact H1|]. split; [exact H2|]. split; [exact H3|]. split; [exact H4|].
  exact (link_error_keeps_the_page Crawler.example_netloc MoreExamples.broken_web
           true "a.example" st "https://a.example/" [] doc
           [Return "https://a.example/b"] "Invalid IPv6 URL"
           [Return "https://a.example/c"] H1 H2 H3 H4).
Defined.



Lemma unresolvable_link_fails_extraction_witness :
  let before := [ExtractLinks.mk_anchor "Docs" (Return "https://a.example/docs")] in
  let after := [ExtractLinks.mk_anchor "Home" (Return "https://a.example/")] in
  ExtractLinks.example_anchors (Crawler.normalize "a.example/broken")
  = Return (before ++ ExtractLinks.mk_anchor "Bad" (Raise "Invalid IPv6 URL") :: after)
  ∧ Forall (λ a, ∃ u, ExtractLinks.target a = Return u) before
  ∧ ExtractLinks.extract_links Crawler.example_netloc ExtractLinks.example_anchors
      "a.example/broken" true
    = Json.dumps (Some 2%nat) false
        (Json.JDict [("status", Json.JStr "error");
                     ("url", Json.JStr (Crawler.normalize "a.example/broken"));
                     ("message", Json.JStr ("Failed to extract links: " +:+ "Invalid IPv6 URL"))]).
Proof.
  intros before after.
  assert (H1 : ExtractLinks.example_anchors (Crawler.normalize "a.example/broken")
    = Return (before ++ ExtractLinks.mk_anchor "Bad" (Raise "Invalid IPv6 URL") :: after))
    by reflexivity.
  assert (H2 : Forall (λ a, ∃ u, ExtractLinks.target a = Return u) before).
  { apply Forall_cons. split; [by eexists | apply Forall_nil_2]. }
  split; [exact H1|]. split; [exact H2|].
  exact (unresolvable_link_fails_extraction Crawler.example_netloc
           ExtractLinks.example_anchors "a.example/broken" true before "Bad"
           "Invalid IPv6 URL" after H1 H2).
Defined.

Lemma batch_counts_all_but_searches_ten_witness :
  let queries := ["a"; "b"; "c"; "d"; "e"; "f"; "g"; "h"; "i"; "j"; "k"; "l"] in
  @Return unit () = Return ()
  ∧ (length (BatchSearch.batch_results MoreExamples.flaky_search queries 3) ≤ 10)%nat.
Proof.
  intros queries.
  assert (H : @Return unit () = Return ()) by reflexivity.
  split; [exact H|].
  exact (proj2 (proj2 (proj2
    (batch_counts_all_but_searches_ten (Return ()) MoreExamples.flaky_search
       queries 3 H)))).
Defined.

Lemma batch_entries_are_independent_witness :
  let queries := ["a"; "b"; "a"] in
  firstn 10 queries !! 1%nat = Some "b"
  ∧ (∀ j', (1 < j')%nat → firstn 10 queries !! j' ≠ Some "b")
  ∧ MoreExamples.flaky_search 1 "b" 3 = Raise "RatelimitException"
  ∧ Json.field "b" (BatchSearch.batch_results MoreExamples.flaky_search queries 3)
    = Some (Json.JDict [("error", Json.JStr "RatelimitException")]).
Proof.
  intros queries.
  assert (H1 : firstn 10 queries !! 1%nat = Some "b") by reflexivity.
  assert (H2 : ∀ j', (1 < j')%nat → firstn 10 queries !! j' ≠ Some "b").
  { intros [|[|[|[|j']]]] Hj; cbn; try lia; discriminate. }
  assert (H3 : MoreExamples.flaky_search 1 "b" 3 = Raise "RatelimitException")
    by reflexivity.
  split; [exact H1|]. split; [exact H2|]. split; [exact H3|].
  exact (proj2 (batch_entries_are_independent MoreExamples.flaky_search queries 3
                  1 "b" H1 H2) "RatelimitException" H3).
Defined.

Lemma video_id_is_well_formed_witness :
  VideoId.extract_video_id "https://www.youtube.com/watch?v=dQw4w9WgXcQ&t=42s"
  = Some "dQw4w9WgXcQ"
  ∧ String.length "dQw4w9WgXcQ" = 11%nat
  ∧ PyStr.all_chars VideoId.is_id_char "dQw4w9WgXcQ" = true
  ∧ Py.contains "dQw4w9WgXcQ" "https://www.youtube.com/watch?v=dQw4w9WgXcQ&t=42s" = true.
Proof.
  assert (H : VideoId.extract_video_id "https://www.youtube.com/watch?v=dQw4w9WgXcQ&t=42s"
              = Some "dQw4w9WgXcQ") by (vm_compute; reflexivity).
  split; [exact H|].
  exact (video_id_is_well_formed _ _ H).
Defined.

Lemma video_id_of_usual_forms_witness :
  String.length "dQw4w9WgXcQ" = 11%nat
  ∧ PyStr.all_chars VideoId.is_id_char "dQw4w9WgXcQ" = true
  ∧ VideoId.extract_video_id ("https://youtu.be/" +:+ "dQw4w9WgXcQ" +:+ "?t=42")
    = Some "dQw4w9WgXcQ".
Proof.
  assert (H1 : String.length "dQw4w9WgXcQ" = 11%nat) by reflexivity.
  assert (H2 : PyStr.all_chars VideoId.is_id_char "dQw4w9WgXcQ" = true) by reflexivity.
  split; [exact H1|]. split; [exact H2|].
  exact (proj1 (proj2 (video_id_of_usual_forms "dQw4w9WgXcQ" "?t=42" H1 H2))).
Defined.

Lemma cached_markdown_is_returned_witness :
  let key := "d8d3562801bc7bd872f12ae8757714be" in
  let c : SimpleCache.t string := SimpleCache.set cache 100 key "cached" None in
  SimpleCache._make_key [Json.PStr "markdown"; Json.PStr "a.example/"; Json.PInt 8000] []
  = Return key
  ∧ SimpleCache._cache c !! key = Some "cached"
  ∧ SimpleCache._timestamps c !! key = Some 100
  ∧ "cached" ≠ ""
  ∧ 200 - 100 < SimpleCache.default_ttl c
  ∧ FetchMarkdown.fetch_as_markdown MoreExamples.offline c 200 201 "a.example/" 8000
    = (c, "cached").
Proof.
  intros key c.
  assert (H0 : SimpleCache._make_key
                 [Json.PStr "markdown"; Json.PStr "a.example/"; Json.PInt 8000] []
               = Return key) by (vm_compute; reflexivity).
  assert (H1 : SimpleCache._cache c !! key = Some "cached") by apply lookup_insert_eq.
  assert (H2 : SimpleCache._timestamps c !! key = Some 100) by apply lookup_insert_eq.
  assert (H3 : "cached" ≠ "") by discriminate.
  assert (H4 : 200 - 100 < SimpleCache.default_ttl c) by (cbn; lia).
  split; [exact H0|]. split; [exact H1|]. split; [exact H2|]. split; [exact H3|].
  split; [exact H4|].
  exact (cached_markdown_is_returned MoreExamples.offline c 200 201 100 "a.example/"
           8000 key "cached" H0 H1 H2 H3 H4).
Defined.

Lemma second_call_is_served_from_cache_witness :
  let key := "d8d3562801bc7bd872f12ae8757714be" in
  let first := FetchMarkdown.fetch_as_markdown MoreExamples.markdown_site
                 (@cache string) 100 101 "a.example/" 8000 in
  SimpleCache._make_key [Json.PStr "markdown"; Json.PStr "a.example/"; Json.PInt 8000] []
  = Return key
  ∧ (SimpleCache.get (@cache string) 100 key).2 = Return None
  ∧ MoreExamples.markdown_site (Crawler.normalize "a.example/") = Return ("A", "# A")
  ∧ 102 - 101 < SimpleCache.default_ttl (@cache string)
  ∧ FetchMarkdown.fetch_as_markdown MoreExamples.offline first.1 102 103 "a.example/" 8000
    = first.
Proof.
  intros key first.
  assert (H0 : SimpleCache._make_key
                 [Json.PStr "markdown"; Json.PStr "a.example/"; Json.PInt 8000] []
               = Return key) by (vm_compute; reflexivity).
  assert (H1 : (SimpleCache.get (@cache string) 100 key).2 = Return None).
  { unfold SimpleCache.get, cache, SimpleCache.__init__.
    cbn [SimpleCache._cache]. by rewrite lookup_empty. }
  assert (H2 : MoreExamples.markdown_site (Crawler.normalize "a.example/")
               = Return ("A", "# A")) by reflexivity.
  assert (H3 : 102 - 101 < SimpleCache.default_ttl (@cache string)) by (cbn; lia).
  split; [exact H0|]. split; [exact H1|]. split; [exact H2|]. split; [exact H3|].
  exact (proj2 (second_call_is_served_from_cache MoreExamples.markdown_site
                  MoreExamples.offline cache 100 101 102 103 "a.example/" 8000
                  key "A" "# A" H0 H1 H2 H3)).
Defined.

Lemma failed_fetch_is_not_cached_witness :
  let key := "d8d3562801bc7bd872f12ae8757714be" in
  let after := FetchMarkdown.fetch_as_markdown MoreExamples.offline
                 (@cache string) 100 101 "a.example/" 8000 in
  SimpleCache._make_key [Json.PStr "markdown"; Json.PStr "a.example/"; Json.PInt 8000] []
  = Return key
  ∧ (SimpleCache.get (@cache string) 100 key).2 = Return None
  ∧ MoreExamples.offline (Crawler.normalize "a.example/") = Raise "ConnectError"
  ∧ SimpleCache._cache after.1 !! key = None.
Proof.
  intros key after.
  assert (H0 : SimpleCache._make_key
                 [Json.PStr "markdown"; Json.PStr "a.example/"; Json.PInt 8000] []
               = Return key) by (vm_compute; reflexivity).
  assert (H1 : (SimpleCache.get (@cache string) 100 key).2 = Return None).
  { unfold SimpleCache.get, cache, SimpleCache.__init__.
    cbn [SimpleCache._cache]. by rewrite lookup_empty. }
  assert (H2 : MoreExamples.offline (Crawler.normalize "a.example/")
               = Raise "ConnectError") by reflexivity.
  split; [exact H0|]. split; [exact H1|]. split; [exact H2|].
  exact (proj2 (proj2 (proj1 (failed_fetch_is_not_cached MoreExamples.offline cache
                                100 101 "a.example/" 8000)
                         key "ConnectError" H0 H1 H2))).
Defined.

Lemma clear_cache_forces_refetch_witness :
  let key := "d8d3562801bc7bd872f12ae8757714be" in
  let stale : SimpleCache.t string := SimpleCache.set cache 100 key "cached" None in
  let cleared := (CacheTool.clear_cache stale).1 in
  SimpleCache._make_key [Json.PStr "markdown"; Json.PStr "a.example/"; Json.PInt 8000] []
  = Return key
  ∧ MoreExamples.offline (Crawler.normalize "a.example/") = Raise "ConnectError"
  ∧ FetchMarkdown.fetch_as_markdown MoreExamples.offline cleared 101 102 "a.example/" 8000
    = (cleared,
       Json.dumps (Some 2%nat) false
         (Json.JDict
            [("status", Json.JStr "error");
             ("url", Json.JStr (Crawler.normalize "a.example/"));
             ("message", Json.JStr ("Failed to fetch as markdown: " +:+ "ConnectError"))])).
Proof.
  intros key stale cleared.
  assert (H0 : SimpleCache._make_key
                 [Json.PStr "markdown"; Json.PStr "a.example/"; Json.PInt 8000] []
               = Return key) by (vm_compute; reflexivity).
  assert (H1 : MoreExamples.offline (Crawler.normalize "a.example/")
               = Raise "ConnectError") by reflexivity.
  split; [exact H0|]. split; [exact H1|].
  exact (proj2 (clear_cache_forces_refetch MoreExamples.offline stale 101 102
                  "a.example/" 8000 key H0) "ConnectError" H1).
Defined.

Lemma pdf_pages_are_the_first_ones_witness :
  let url' := Crawler.normalize "a.example/report.pdf" in
  let key := "9efd41aa091b0f6a241583d52b509455" in
  let doc := ReadPdf.mk_pdf ∅ [Return "one"; Return "two"; Return "three"] in
  let resp := ReadPdf.mk_response "application/pdf" (Return doc) in
  @Return unit () = Return ()
  ∧ SimpleCache._make_key [Json.PStr "pdf"; Json.PStr url'; Json.PInt 2] [] = Return key
  ∧ (SimpleCache.get (@cache string) 100 key).2 = Return None
  ∧ MoreExamples.pdf_site url' = Return resp
  ∧ (Py.contains "pdf" (Py.lower (ReadPdf.content_type resp)) = true
     ∨ Crawler.endswith (Py.lower url') ".pdf" = true)
  ∧ ReadPdf.opened resp = Return doc
  ∧ map Return ["one"; "two"] = firstn (Z.to_nat 2) (ReadPdf.page_texts doc)
  ∧ (ReadPdf.read_pdf_url (Return ()) MoreExamples.pdf_site (@cache string) 100 101
       "a.example/report.pdf" 2).2
    = Json.dumps (Some 2%nat) false
        (Json.JDict
           [("status", Json.JStr "success"); ("url", Json.JStr url');
            ("metadata", ReadPdf.metadata_of doc);
            ("full_text", Json.JStr (ReadPdf.full_text ["one"; "two"]));
            ("pages",
             Json.JList
               (imap (λ i text,
                        Json.JDict [("page", Json.JInt (Z.of_nat i + 1));
                                    ("text", Json.JStr (Py.take 3000 text))])
                  ["one"; "two"]))]).
Proof.
  intros url' key doc resp.
  assert (H0 : @Return unit () = Return ()) by reflexivity.
  assert (H1 : SimpleCache._make_key [Json.PStr "pdf"; Json.PStr url'; Json.PInt 2] []
               = Return key) by (vm_compute; reflexivity).
  assert (H2 : (SimpleCache.get (@cache string) 100 key).2 = Return None).
  { unfold SimpleCache.get, cache, SimpleCache.__init__.
    cbn [SimpleCache._cache]. by rewrite lookup_empty. }
  assert (H3 : MoreExamples.pdf_site url' = Return resp) by reflexivity.
  assert (H4 : Py.contains "pdf" (Py.lower (ReadPdf.content_type resp)) = true
               ∨ Crawler.endswith (Py.lower url') ".pdf" = true)
    by (left; reflexivity).
  assert (H5 : ReadPdf.opened resp = Return doc) by reflexivity.
  assert (H6 : map Return ["one"; "two"]
               = firstn (Z.to_nat 2) (ReadPdf.page_texts doc)) by reflexivity.
  split; [exact H0|]. split; [exact H1|]. split; [exact H2|]. split; [exact H3|].
  split; [exact H4|]. split; [exact H5|]. split; [exact H6|].
  exact (proj1 (pdf_pages_are_the_first_ones (Return ()) MoreExamples.pdf_site cache
                  100 101 "a.example/report.pdf" 2 key resp doc ["one"; "two"]
                  H0 H1 H2 H3 H4 H5 H6)).
Defined.

Lemma pdf_url_is_normalised_before_caching_witness :
  @Return unit () = Return ()
  ∧ ReadPdf.read_pdf_url (Return ()) MoreExamples.pdf_site (@cache string) 100 101
      "a.example/report.pdf" 2
    = ReadPdf.read_pdf_url (Return ()) MoreExamples.pdf_site (@cache string) 100 101
        (Crawler.normalize "a.example/report.pdf") 2.
Proof.
  assert (H : @Return unit () = Return ()) by reflexivity.
  split; [exact H|].
  exact (pdf_url_is_normalised_before_caching (Return ()) MoreExamples.pdf_site
           cache 100 101 "a.example/report.pdf" 2 H).
Defined.

Lemma non_pdf_is_refused_witness :
  let url' := Crawler.normalize "a.example/page" in
  let key := "47c501e63e728046c404da2305bd4e1e" in
  let resp := ReadPdf.mk_response "text/html; charset=utf-8" (Raise "FileDataError") in
  let after := ReadPdf.read_pdf_url (Return ()) MoreExamples.pdf_site (@cache string)
                 100 101 "a.example/page" 2 in
  @Return unit () = Return ()
  ∧ SimpleCache._make_key [Json.PStr "pdf"; Json.PStr url'; Json.PInt 2] [] = Return key
  ∧ (SimpleCache.get (@cache string) 100 key).2 = Return None
  ∧ MoreExamples.pdf_site url' = Return resp
  ∧ Py.contains "pdf" (Py.lower (ReadPdf.content_type resp)) = false
  ∧ Crawler.endswith (Py.lower url') ".pdf" = false
  ∧ after.2
    = Json.dumps (Some 2%nat) false
        (Json.JDict [("status", Json.JStr "error"); ("url", Json.JStr url');
                     ("message", Json.JStr "URL does not appear to be a PDF file")]).
Proof.
  intros url' key resp after.
  assert (H0 : @Return unit () = Return ()) by reflexivity.
  assert (H1 : SimpleCache._make_key [Json.PStr "pdf"; Json.PStr url'; Json.PInt 2] []
               = Return key) by (vm_compute; reflexivity).
  assert (H2 : (SimpleCache.get (@cache string) 100 key).2 = Return None).
  { unfold SimpleCache.get, cache, SimpleCache.__init__.
    cbn [SimpleCache._cache]. by rewrite lookup_empty. }
  assert (H3 : MoreExamples.pdf_site url' = Return resp) by reflexivity.
  assert (H4 : Py.contains "pdf" (Py.lower (ReadPdf.content_type resp)) = false)
    by reflexivity.
  assert (H5 : Crawler.endswith (Py.lower url') ".pdf" = false) by reflexivity.
  split; [exact H0|]. split; [exact H1|]. split; [exact H2|]. split; [exact H3|].
  split; [exact H4|]. split; [exact H5|].
  exact (proj1 (non_pdf_is_refused (Return ()) MoreExamples.pdf_site cache 100 101
                  "a.example/page" 2 key resp H0 H1 H2 H3 H4 H5)).
Defined.

Lemma empty_budget_fetches_nothing_witness :
  0 ≤ 0
  ∧ Crawler.example_urlparse_error (Crawler.normalize "a.example/") = None
  ∧ @Return unit () = Return ()
  ∧ Crawler.crawl_website Crawler.example_netloc Crawler.example_web
      Crawler.example_urlparse_error (Return ()) "a.example/" 0 true
    = Json.dumps (Some 2%nat) false
        (Json.JDict [("status", Json.JStr "success");
                     ("start_url", Json.JStr (Crawler.normalize "a.example/"));
                     ("pages_crawled", Json.JInt 0); ("pages", Json.JList [])]).
Proof.
  assert (H1 : 0 ≤ 0) by lia.
  assert (H2 : Crawler.example_urlparse_error (Crawler.normalize "a.example/") = None)
    by reflexivity.
  assert (H3 : @Return unit () = Return ()) by reflexivity.
  split; [exact H1|]. split; [exact H2|]. split; [exact H3|].
  exact (proj2 (empty_budget_fetches_nothing Crawler.example_netloc Crawler.example_web
                  Crawler.example_urlparse_error (Return ()) "a.example/" 0 true
                  H1 H2 H3)).
Defined.

Lemma acceptable_links_are_enqueued_witness :
  let links : list (outcome string) :=
    [Return "https://a.example/b"; Return "https://d.example/"] in
  let u := "https://a.example/b" in
  Forall (λ l, ∃ v, l = Return v) links
  ∧ Return u ∈ links
  ∧ Crawler.has_web_scheme u = true
  ∧ Crawler.example_netloc u = "a.example"
  ∧ Crawler.skip_url u = false
  ∧ (u ∉ ({["https://a.example/"]} : gset string))
  ∧ u ∈ Crawler.enqueue_links Crawler.example_netloc true "a.example"
          {["https://a.example/"]} [] links.
Proof.
  intros links u.
  assert (H1 : Forall (λ l : outcome string, ∃ v, l = Return v) links).
  { apply Forall_cons. split; [by eexists|].
    apply Forall_cons. split; [by eexists | apply Forall_nil_2]. }
  assert (H2 : Return u ∈ links) by apply list_elem_of_here.
  assert (H3 : Crawler.has_web_scheme u = true) by reflexivity.
  assert (H4 : Crawler.example_netloc u = "a.example") by reflexivity.
  assert (H5 : Crawler.skip_url u = false) by reflexivity.
  assert (H6 : u ∉ ({["https://a.example/"]} : gset string)).
  { intros Hin%elem_of_singleton. discriminate Hin. }
  split; [exact H1|]. split; [exact H2|]. split; [exact H3|]. split; [exact H4|].
  split; [exact H5|]. split; [exact H6|].
  exact (acceptable_links_are_enqueued Crawler.example_netloc true "a.example"
           {["https://a.example/"]} [] links u H1 H2 H3 (λ _, H4) H5 H6).
Defined.
